(** * SecureTrace: a shallow embedding of the messaging client and its
      forensic audit subsystem

    The development follows the TypeScript sources: [services/crypto.ts]
    (codecs, hashing, AES-GCM message encryption), [types.ts] (records and
    enumerations), [App.tsx] (the forensic log), [components/Chat.tsx] (the
    handshake and the outbound message pipeline), [components/Settings.tsx]
    (the keyword list), [components/Dashboard.tsx] (chain verification) and
    [services/gemini.ts] (risk analysis).

    Conventions.
    - A JavaScript string is its sequence of UTF-16 code units, a [list Z]
      with every element in [0, 65536).
    - A byte buffer ([ArrayBuffer], [Uint8Array]) is a [list Z] with every
      element in [0, 256).
    - Values the platform draws ([Date.now()], [crypto.randomUUID()],
      [crypto.getRandomValues]) are explicit arguments of the functions that
      read them, one argument per read.
    - A promise that may reject, or a call that may throw, returns an
      [option] or a sum. *)

From Stdlib Require Import ZArith List Bool Lia String Ascii.
Import ListNotations.
Local Open Scope Z_scope.

(** ** Unicode case conversion to lowercase

    The locale-insensitive lowercase mapping of the Unicode Character
    Database, version 14.0: the simple mappings of UnicodeData.txt, and of
    SpecialCasing.txt the one unconditional mapping (U+0130) and the
    Final_Sigma rule. *)

Module Unicode.

(** The code points with a simple lowercase mapping to another code point,
    as runs [(first, last, step, delta)]: every [step]-th code point from
    [first] to [last] maps [delta] positions further. *)
Definition lowerRuns : list (Z * Z * Z * Z) :=
  [(65, 90, 1, 32); (192, 214, 1, 32); (216, 222, 1, 32); (256, 302, 2, 1);
   (304, 304, 1, -199); (306, 310, 2, 1); (313, 327, 2, 1); (330, 374, 2, 1);
   (376, 376, 1, -121); (377, 381, 2, 1); (385, 385, 1, 210);
   (386, 388, 2, 1); (390, 390, 1, 206); (391, 391, 1, 1); (393, 394, 1, 205);
   (395, 395, 1, 1); (398, 398, 1, 79); (399, 399, 1, 202);
   (400, 400, 1, 203); (401, 401, 1, 1); (403, 403, 1, 205);
   (404, 404, 1, 207); (406, 406, 1, 211); (407, 407, 1, 209);
   (408, 408, 1, 1); (412, 412, 1, 211); (413, 413, 1, 213);
   (415, 415, 1, 214); (416, 420, 2, 1); (422, 422, 1, 218); (423, 423, 1, 1);
   (425, 425, 1, 218); (428, 428, 1, 1); (430, 430, 1, 218); (431, 431, 1, 1);
   (433, 434, 1, 217); (435, 437, 2, 1); (439, 439, 1, 219); (440, 440, 1, 1);
   (444, 444, 1, 1); (452, 452, 1, 2); (453, 453, 1, 1); (455, 455, 1, 2);
   (456, 456, 1, 1); (458, 458, 1, 2); (459, 475, 2, 1); (478, 494, 2, 1);
   (497, 497, 1, 2); (498, 500, 2, 1); (502, 502, 1, -97); (503, 503, 1, -56);
   (504, 542, 2, 1); (544, 544, 1, -130); (546, 562, 2, 1);
   (570, 570, 1, 10795); (571, 571, 1, 1); (573, 573, 1, -163);
   (574, 574, 1, 10792); (577, 577, 1, 1); (579, 579, 1, -195);
   (580, 580, 1, 69); (581, 581, 1, 71); (582, 590, 2, 1); (880, 882, 2, 1);
   (886, 886, 1, 1); (895, 895, 1, 116); (902, 902, 1, 38); (904, 906, 1, 37);
   (908, 908, 1, 64); (910, 911, 1, 63); (913, 929, 1, 32); (931, 939, 1, 32);
   (975, 975, 1, 8); (984, 1006, 2, 1); (1012, 1012, 1, -60);
   (1015, 1015, 1, 1); (1017, 1017, 1, -7); (1018, 1018, 1, 1);
   (1021, 1023, 1, -130); (1024, 1039, 1, 80); (1040, 1071, 1, 32);
   (1120, 1152, 2, 1); (1162, 1214, 2, 1); (1216, 1216, 1, 15);
   (1217, 1229, 2, 1); (1232, 1326, 2, 1); (1329, 1366, 1, 48);
   (4256, 4293, 1, 7264); (4295, 4295, 1, 7264); (4301, 4301, 1, 7264);
   (5024, 5103, 1, 38864); (5104, 5109, 1, 8); (7312, 7354, 1, -3008);
   (7357, 7359, 1, -3008); (7680, 7828, 2, 1); (7838, 7838, 1, -7615);
   (7840, 7934, 2, 1); (7944, 7951, 1, -8); (7960, 7965, 1, -8);
   (7976, 7983, 1, -8); (7992, 7999, 1, -8); (8008, 8013, 1, -8);
   (8025, 8031, 2, -8); (8040, 8047, 1, -8); (8072, 8079, 1, -8);
   (8088, 8095, 1, -8); (8104, 8111, 1, -8); (8120, 8121, 1, -8);
   (8122, 8123, 1, -74); (8124, 8124, 1, -9); (8136, 8139, 1, -86);
   (8140, 8140, 1, -9); (8152, 8153, 1, -8); (8154, 8155, 1, -100);
   (8168, 8169, 1, -8); (8170, 8171, 1, -112); (8172, 8172, 1, -7);
   (8184, 8185, 1, -128); (8186, 8187, 1, -126); (8188, 8188, 1, -9);
   (8486, 8486, 1, -7517); (8490, 8490, 1, -8383); (8491, 8491, 1, -8262);
   (8498, 8498, 1, 28); (8544, 8559, 1, 16); (8579, 8579, 1, 1);
   (9398, 9423, 1, 26); (11264, 11311, 1, 48); (11360, 11360, 1, 1);
   (11362, 11362, 1, -10743); (11363, 11363, 1, -3814);
   (11364, 11364, 1, -10727); (11367, 11371, 2, 1); (11373, 11373, 1, -10780);
   (11374, 11374, 1, -10749); (11375, 11375, 1, -10783);
   (11376, 11376, 1, -10782); (11378, 11378, 1, 1); (11381, 11381, 1, 1);
   (11390, 11391, 1, -10815); (11392, 11490, 2, 1); (11499, 11501, 2, 1);
   (11506, 11506, 1, 1); (42560, 42604, 2, 1); (42624, 42650, 2, 1);
   (42786, 42798, 2, 1); (42802, 42862, 2, 1); (42873, 42875, 2, 1);
   (42877, 42877, 1, -35332); (42878, 42886, 2, 1); (42891, 42891, 1, 1);
   (42893, 42893, 1, -42280); (42896, 42898, 2, 1); (42902, 42920, 2, 1);
   (42922, 42922, 1, -42308); (42923, 42923, 1, -42319);
   (42924, 42924, 1, -42315); (42925, 42925, 1, -42305);
   (42926, 42926, 1, -42308); (42928, 42928, 1, -42258);
   (42929, 42929, 1, -42282); (42930, 42930, 1, -42261);
   (42931, 42931, 1, 928); (42932, 42946, 2, 1); (42948, 42948, 1, -48);
   (42949, 42949, 1, -42307); (42950, 42950, 1, -35384); (42951, 42953, 2, 1);
   (42960, 42960, 1, 1); (42966, 42968, 2, 1); (42997, 42997, 1, 1);
   (65313, 65338, 1, 32); (66560, 66599, 1, 40); (66736, 66771, 1, 40);
   (66928, 66938, 1, 39); (66940, 66954, 1, 39); (66956, 66962, 1, 39);
   (66964, 66965, 1, 39); (68736, 68786, 1, 64); (71840, 71871, 1, 32);
   (93760, 93791, 1, 32); (125184, 125217, 1, 34)].

Definition expand (run : Z * Z * Z * Z) : list (Z * Z) :=
  let '(first, last, step, delta) := run in
  map (fun k => (first + step * Z.of_nat k, first + step * Z.of_nat k + delta))
      (seq 0 (S (Z.to_nat ((last - first) / step)))).

(** The same mapping, one pair for each code point. *)
Definition lowerPairs : list (Z * Z) :=
  Eval vm_compute in flat_map expand lowerRuns.

(** Simple_Lowercase_Mapping *)
Definition simpleLower (cp : Z) : Z :=
  match find (fun p => fst p =? cp) lowerPairs with
  | Some p => snd p
  | None => cp
  end.

Definition within (cp : Z) (range : Z * Z) : bool :=
  (fst range <=? cp) && (cp <=? snd range).

(** The ranges of the code points with the property Cased. *)
Definition casedRanges : list (Z * Z) :=
  [(65, 90); (97, 122); (170, 170); (181, 181); (186, 186); (192, 214);
   (216, 246); (248, 442); (444, 447); (452, 659); (661, 696); (704, 705);
   (736, 740); (837, 837); (880, 883); (886, 887); (890, 893); (895, 895);
   (902, 902); (904, 906); (908, 908); (910, 929); (931, 1013); (1015, 1153);
   (1162, 1327); (1329, 1366); (1376, 1416); (4256, 4293); (4295, 4295);
   (4301, 4301); (4304, 4346); (4349, 4351); (5024, 5109); (5112, 5117);
   (7296, 7304); (7312, 7354); (7357, 7359); (7424, 7615); (7680, 7957);
   (7960, 7965); (7968, 8005); (8008, 8013); (8016, 8023); (8025, 8025);
   (8027, 8027); (8029, 8029); (8031, 8061); (8064, 8116); (8118, 8124);
   (8126, 8126); (8130, 8132); (8134, 8140); (8144, 8147); (8150, 8155);
   (8160, 8172); (8178, 8180); (8182, 8188); (8305, 8305); (8319, 8319);
   (8336, 8348); (8450, 8450); (8455, 8455); (8458, 8467); (8469, 8469);
   (8473, 8477); (8484, 8484); (8486, 8486); (8488, 8488); (8490, 8493);
   (8495, 8500); (8505, 8505); (8508, 8511); (8517, 8521); (8526, 8526);
   (8544, 8575); (8579, 8580); (9398, 9449); (11264, 11492); (11499, 11502);
   (11506, 11507); (11520, 11557); (11559, 11559); (11565, 11565);
   (42560, 42605); (42624, 42653); (42786, 42887); (42891, 42894);
   (42896, 42954); (42960, 42961); (42963, 42963); (42965, 42969);
   (42997, 42998); (43000, 43002); (43824, 43866); (43868, 43880);
   (43888, 43967); (64256, 64262); (64275, 64279); (65313, 65338);
   (65345, 65370); (66560, 66639); (66736, 66771); (66776, 66811);
   (66928, 66938); (66940, 66954); (66956, 66962); (66964, 66965);
   (66967, 66977); (66979, 66993); (66995, 67001); (67003, 67004);
   (67456, 67456); (67459, 67461); (67463, 67504); (67506, 67514);
   (68736, 68786); (68800, 68850); (71840, 71903); (93760, 93823);
   (119808, 119892); (119894, 119964); (119966, 119967); (119970, 119970);
   (119973, 119974); (119977, 119980); (119982, 119993); (119995, 119995);
   (119997, 120003); (120005, 120069); (120071, 120074); (120077, 120084);
   (120086, 120092); (120094, 120121); (120123, 120126); (120128, 120132);
   (120134, 120134); (120138, 120144); (120146, 120485); (120488, 120512);
   (120514, 120538); (120540, 120570); (120572, 120596); (120598, 120628);
   (120630, 120654); (120656, 120686); (120688, 120712); (120714, 120744);
   (120746, 120770); (120772, 120779); (122624, 122633); (122635, 122654);
   (125184, 125251); (127280, 127305); (127312, 127337); (127344, 127369)].

(** The ranges of the code points with the property Case_Ignorable. *)
Definition caseIgnorableRanges : list (Z * Z) :=
  [(39, 39); (46, 46); (58, 58); (94, 94); (96, 96); (168, 168); (173, 173);
   (175, 175); (180, 180); (183, 184); (688, 879); (884, 885); (890, 890);
   (900, 901); (903, 903); (1155, 1161); (1369, 1369); (1375, 1375);
   (1425, 1469); (1471, 1471); (1473, 1474); (1476, 1477); (1479, 1479);
   (1524, 1524); (1536, 1541); (1552, 1562); (1564, 1564); (1600, 1600);
   (1611, 1631); (1648, 1648); (1750, 1757); (1759, 1768); (1770, 1773);
   (1807, 1807); (1809, 1809); (1840, 1866); (1958, 1968); (2027, 2037);
   (2042, 2042); (2045, 2045); (2070, 2093); (2137, 2139); (2184, 2184);
   (2192, 2193); (2200, 2207); (2249, 2306); (2362, 2362); (2364, 2364);
   (2369, 2376); (2381, 2381); (2385, 2391); (2402, 2403); (2417, 2417);
   (2433, 2433); (2492, 2492); (2497, 2500); (2509, 2509); (2530, 2531);
   (2558, 2558); (2561, 2562); (2620, 2620); (2625, 2626); (2631, 2632);
   (2635, 2637); (2641, 2641); (2672, 2673); (2677, 2677); (2689, 2690);
   (2748, 2748); (2753, 2757); (2759, 2760); (2765, 2765); (2786, 2787);
   (2810, 2815); (2817, 2817); (2876, 2876); (2879, 2879); (2881, 2884);
   (2893, 2893); (2901, 2902); (2914, 2915); (2946, 2946); (3008, 3008);
   (3021, 3021); (3072, 3072); (3076, 3076); (3132, 3132); (3134, 3136);
   (3142, 3144); (3146, 3149); (3157, 3158); (3170, 3171); (3201, 3201);
   (3260, 3260); (3263, 3263); (3270, 3270); (3276, 3277); (3298, 3299);
   (3328, 3329); (3387, 3388); (3393, 3396); (3405, 3405); (3426, 3427);
   (3457, 3457); (3530, 3530); (3538, 3540); (3542, 3542); (3633, 3633);
   (3636, 3642); (3654, 3662); (3761, 3761); (3764, 3772); (3782, 3782);
   (3784, 3789); (3864, 3865); (3893, 3893); (3895, 3895); (3897, 3897);
   (3953, 3966); (3968, 3972); (3974, 3975); (3981, 3991); (3993, 4028);
   (4038, 4038); (4141, 4144); (4146, 4151); (4153, 4154); (4157, 4158);
   (4184, 4185); (4190, 4192); (4209, 4212); (4226, 4226); (4229, 4230);
   (4237, 4237); (4253, 4253); (4348, 4348); (4957, 4959); (5906, 5908);
   (5938, 5939); (5970, 5971); (6002, 6003); (6068, 6069); (6071, 6077);
   (6086, 6086); (6089, 6099); (6103, 6103); (6109, 6109); (6155, 6159);
   (6211, 6211); (6277, 6278); (6313, 6313); (6432, 6434); (6439, 6440);
   (6450, 6450); (6457, 6459); (6679, 6680); (6683, 6683); (6742, 6742);
   (6744, 6750); (6752, 6752); (6754, 6754); (6757, 6764); (6771, 6780);
   (6783, 6783); (6823, 6823); (6832, 6862); (6912, 6915); (6964, 6964);
   (6966, 6970); (6972, 6972); (6978, 6978); (7019, 7027); (7040, 7041);
   (7074, 7077); (7080, 7081); (7083, 7085); (7142, 7142); (7144, 7145);
   (7149, 7149); (7151, 7153); (7212, 7219); (7222, 7223); (7288, 7293);
   (7376, 7378); (7380, 7392); (7394, 7400); (7405, 7405); (7412, 7412);
   (7416, 7417); (7468, 7530); (7544, 7544); (7579, 7679); (8125, 8125);
   (8127, 8129); (8141, 8143); (8157, 8159); (8173, 8175); (8189, 8190);
   (8203, 8207); (8216, 8217); (8228, 8228); (8231, 8231); (8234, 8238);
   (8288, 8292); (8294, 8303); (8305, 8305); (8319, 8319); (8336, 8348);
   (8400, 8432); (11388, 11389); (11503, 11505); (11631, 11631);
   (11647, 11647); (11744, 11775); (11823, 11823); (12293, 12293);
   (12330, 12333); (12337, 12341); (12347, 12347); (12441, 12446);
   (12540, 12542); (40981, 40981); (42232, 42237); (42508, 42508);
   (42607, 42610); (42612, 42621); (42623, 42623); (42652, 42655);
   (42736, 42737); (42752, 42785); (42864, 42864); (42888, 42890);
   (42994, 42996); (43000, 43001); (43010, 43010); (43014, 43014);
   (43019, 43019); (43045, 43046); (43052, 43052); (43204, 43205);
   (43232, 43249); (43263, 43263); (43302, 43309); (43335, 43345);
   (43392, 43394); (43443, 43443); (43446, 43449); (43452, 43453);
   (43471, 43471); (43493, 43494); (43561, 43566); (43569, 43570);
   (43573, 43574); (43587, 43587); (43596, 43596); (43632, 43632);
   (43644, 43644); (43696, 43696); (43698, 43700); (43703, 43704);
   (43710, 43711); (43713, 43713); (43741, 43741); (43756, 43757);
   (43763, 43764); (43766, 43766); (43867, 43871); (43881, 43883);
   (44005, 44005); (44008, 44008); (44013, 44013); (64286, 64286);
   (64434, 64450); (65024, 65039); (65043, 65043); (65056, 65071);
   (65106, 65106); (65109, 65109); (65279, 65279); (65287, 65287);
   (65294, 65294); (65306, 65306); (65342, 65342); (65344, 65344);
   (65392, 65392); (65438, 65439); (65507, 65507); (65529, 65531);
   (66045, 66045); (66272, 66272); (66422, 66426); (67456, 67461);
   (67463, 67504); (67506, 67514); (68097, 68099); (68101, 68102);
   (68108, 68111); (68152, 68154); (68159, 68159); (68325, 68326);
   (68900, 68903); (69291, 69292); (69446, 69456); (69506, 69509);
   (69633, 69633); (69688, 69702); (69744, 69744); (69747, 69748);
   (69759, 69761); (69811, 69814); (69817, 69818); (69821, 69821);
   (69826, 69826); (69837, 69837); (69888, 69890); (69927, 69931);
   (69933, 69940); (70003, 70003); (70016, 70017); (70070, 70078);
   (70089, 70092); (70095, 70095); (70191, 70193); (70196, 70196);
   (70198, 70199); (70206, 70206); (70367, 70367); (70371, 70378);
   (70400, 70401); (70459, 70460); (70464, 70464); (70502, 70508);
   (70512, 70516); (70712, 70719); (70722, 70724); (70726, 70726);
   (70750, 70750); (70835, 70840); (70842, 70842); (70847, 70848);
   (70850, 70851); (71090, 71093); (71100, 71101); (71103, 71104);
   (71132, 71133); (71219, 71226); (71229, 71229); (71231, 71232);
   (71339, 71339); (71341, 71341); (71344, 71349); (71351, 71351);
   (71453, 71455); (71458, 71461); (71463, 71467); (71727, 71735);
   (71737, 71738); (71995, 71996); (71998, 71998); (72003, 72003);
   (72148, 72151); (72154, 72155); (72160, 72160); (72193, 72202);
   (72243, 72248); (72251, 72254); (72263, 72263); (72273, 72278);
   (72281, 72283); (72330, 72342); (72344, 72345); (72752, 72758);
   (72760, 72765); (72767, 72767); (72850, 72871); (72874, 72880);
   (72882, 72883); (72885, 72886); (73009, 73014); (73018, 73018);
   (73020, 73021); (73023, 73029); (73031, 73031); (73104, 73105);
   (73109, 73109); (73111, 73111); (73459, 73460); (78896, 78904);
   (92912, 92916); (92976, 92982); (92992, 92995); (94031, 94031);
   (94095, 94111); (94176, 94177); (94179, 94180); (110576, 110579);
   (110581, 110587); (110589, 110590); (113821, 113822); (113824, 113827);
   (118528, 118573); (118576, 118598); (119143, 119145); (119155, 119170);
   (119173, 119179); (119210, 119213); (119362, 119364); (121344, 121398);
   (121403, 121452); (121461, 121461); (121476, 121476); (121499, 121503);
   (121505, 121519); (122880, 122886); (122888, 122904); (122907, 122913);
   (122915, 122916); (122918, 122922); (123184, 123197); (123566, 123566);
   (123628, 123631); (125136, 125142); (125252, 125259); (127995, 127999);
   (917505, 917505); (917536, 917631); (917760, 917999)].

Definition cased (cp : Z) : bool := existsb (within cp) casedRanges.

Definition caseIgnorable (cp : Z) : bool :=
  existsb (within cp) caseIgnorableRanges.

(** The second half of Final_Sigma: the code points that follow are
    case-ignorable ones and then a cased letter. *)
Fixpoint followedByCased (rest : list Z) : bool :=
  match rest with
  | [] => false
  | cp :: rest' =>
      if caseIgnorable cp then followedByCased rest' else cased cp
  end.

(** The lowercase mapping of one code point that is not U+03A3. *)
Definition lowerOne (cp : Z) : list Z :=
  if cp =? 304 then [105; 775] else [simpleLower cp].

(** toLowercase of a sequence of code points. [precededByCased] is the
    first half of Final_Sigma: the code points before are a cased letter
    and then case-ignorable ones. A capital sigma (U+03A3) for which both
    halves hold becomes the final sigma U+03C2, any other U+03C3. *)
Fixpoint toLowercase (precededByCased : bool) (cps : list Z) : list Z :=
  match cps with
  | [] => []
  | cp :: rest =>
      (if cp =? 931 then
         [if precededByCased && negb (followedByCased rest) then 962 else 963]
       else lowerOne cp)
      ++ toLowercase
           (if caseIgnorable cp then precededByCased else cased cp) rest
  end.

Definition isLeadingSurrogate (c : Z) : bool := (55296 <=? c) && (c <=? 56319).
Definition isTrailingSurrogate (c : Z) : bool := (56320 <=? c) && (c <=? 57343).

(** StringToCodePoints: a surrogate pair is one code point, any other code
    unit, an unpaired surrogate too, is the code point of its value. *)
Fixpoint StringToCodePoints (s : list Z) : list Z :=
  match s with
  | [] => []
  | c :: rest =>
      if isLeadingSurrogate c then
        match rest with
        | d :: rest' =>
            if isTrailingSurrogate d
            then (65536 + (c - 55296) * 1024 + (d - 56320))
                 :: StringToCodePoints rest'
            else c :: StringToCodePoints rest
        | [] => [c]
        end
      else c :: StringToCodePoints rest
  end.

Definition isSurrogate (c : Z) : bool :=
  isLeadingSurrogate c || isTrailingSurrogate c.

(** A code point. *)
Definition is_code_point (cp : Z) : Prop := 0 <= cp < 1114112.

(** No unpaired leading surrogate comes right before an unpaired trailing
    one, as in the code points of a string. *)
Fixpoint separated (cps : list Z) : bool :=
  match cps with
  | [] => true
  | cp :: rest =>
      match rest with
      | next :: _ => negb (isLeadingSurrogate cp && isTrailingSurrogate next)
      | [] => true
      end && separated rest
  end.

(** The code points lowercasing changes: the ones with a simple mapping to
    another code point, U+0130 and U+03A3. *)
Definition changesWhenLowercased (cp : Z) : bool :=
  (cp =? 931) || (cp =? 304) || negb (simpleLower cp =? cp).

(** UTF16EncodeCodePoint *)
Definition UTF16EncodeCodePoint (cp : Z) : list Z :=
  if cp <? 65536 then [cp]
  else [55296 + (cp - 65536) / 1024; 56320 + (cp - 65536) mod 1024].

(** CodePointsToString *)
Definition CodePointsToString (cps : list Z) : list Z :=
  flat_map UTF16EncodeCodePoint cps.

End Unicode.

(** ** JavaScript strings *)

Module JS.

Definition JSString := list Z.
Definition Bytes := list Z.

Definition is_code_unit (c : Z) : Prop := 0 <= c < 65536.
Definition is_byte (b : Z) : Prop := 0 <= b < 256.

(** An ASCII literal of the source as a sequence of code units. *)
Definition js (s : string) : JSString :=
  map (fun a => Z.of_N (N_of_ascii a)) (list_ascii_of_string s).

Fixpoint str_eqb (s t : JSString) : bool :=
  match s, t with
  | [], [] => true
  | c :: s', d :: t' => (c =? d) && str_eqb s' t'
  | _, _ => false
  end.

(** [s.length] *)
Definition length (s : JSString) : Z := Z.of_nat (List.length s).

(** [s.substring(0, n)] for a literal [n >= 0]. *)
Definition substring0 (n : nat) (s : JSString) : JSString := firstn n s.

(** [s.toLowerCase()]: the string as code points, their lowercase mapping,
    and the code points as a string again. *)
Definition toLowerCase (s : JSString) : JSString :=
  Unicode.CodePointsToString
    (Unicode.toLowercase false (Unicode.StringToCodePoints s)).

(** Uppercase forms in Basic Latin and Latin-1 Supplement: [a-z],
    U+00E0..U+00F6 and U+00F8..U+00FE map 32 positions down, U+00DF (sharp
    s) to the two letters SS, U+00B5 (micro) to U+039C and U+00FF to
    U+0178. The sources call [toUpperCase] on hexadecimal digits only. *)
Definition toUpperCodeUnit (c : Z) : JSString :=
  if ((97 <=? c) && (c <=? 122))
     || ((224 <=? c) && (c <=? 246))
     || ((248 <=? c) && (c <=? 254))
  then [c - 32]
  else if c =? 223 then [83; 83]
  else if c =? 181 then [924]
  else if c =? 255 then [376]
  else [c].

(** [s.toUpperCase()] *)
Definition toUpperCase (s : JSString) : JSString := flat_map toUpperCodeUnit s.

Fixpoint startsWith (s prefix : JSString) {struct prefix} : bool :=
  match prefix, s with
  | [], _ => true
  | p :: prefix', c :: s' => (c =? p) && startsWith s' prefix'
  | _ :: _, [] => false
  end.

(** [s.includes(k)]: [k] occurs in [s] at some position. *)
Fixpoint includes (s k : JSString) : bool :=
  startsWith s k ||
  match s with
  | [] => false
  | _ :: s' => includes s' k
  end.

(** WhiteSpace and LineTerminator code points of ECMAScript, the ones
    [String.prototype.trim] removes. *)
Definition isWhiteSpace (c : Z) : bool :=
  ((9 <=? c) && (c <=? 13)) || (c =? 32) || (c =? 160) || (c =? 5760)
  || ((8192 <=? c) && (c <=? 8202)) || (c =? 8232) || (c =? 8233)
  || (c =? 8239) || (c =? 8287) || (c =? 12288) || (c =? 65279).

Fixpoint trimStart (s : JSString) : JSString :=
  match s with
  | c :: s' => if isWhiteSpace c then trimStart s' else s
  | [] => []
  end.

Definition trimEnd (s : JSString) : JSString := rev (trimStart (rev s)).

(** [s.trim()] *)
Definition trim (s : JSString) : JSString := trimEnd (trimStart s).

(** Truthiness of a string: the empty string is falsy. *)
Definition truthy (s : JSString) : bool :=
  match s with [] => false | _ :: _ => true end.

(** Decimal digits of a non-negative integer, most significant first. *)
Fixpoint digits_fuel (fuel : nat) (n : Z) (acc : JSString) : JSString :=
  match fuel with
  | O => acc
  | S fuel' =>
      let acc' := (48 + n mod 10) :: acc in
      if n <? 10 then acc' else digits_fuel fuel' (n / 10) acc'
  end.

Definition decimal (n : Z) : JSString :=
  digits_fuel (S (Z.to_nat (Z.log2 n))) n [].

(** [String(n)] for an integer [n] below 10^21 in magnitude. *)
Definition numberToString (n : Z) : JSString :=
  if n <? 0 then 45 :: decimal (- n) else decimal n.

(** [n.toString()] left-padded with zeros to [width] digits. *)
Definition padStart0 (width : nat) (s : JSString) : JSString :=
  repeat 48 (width - List.length s) ++ s.

Definition hexDigit (d : Z) : Z := if d <? 10 then 48 + d else 87 + d.

(** Big-endian bytes of [x], [n] of them. *)
Fixpoint be_bytes (n : nat) (x : Z) : Bytes :=
  match n with
  | O => []
  | S n' => (x / 256 ^ Z.of_nat n') mod 256 :: be_bytes n' x
  end.

(** The unsigned integer whose big-endian bytes are [bs]. *)
Definition be_value (bs : Bytes) : Z :=
  fold_left (fun acc b => acc * 256 + b) bs 0.

End JS.

(** ** Platform codecs: [TextEncoder], [TextDecoder], [btoa], [atob] *)

Module Codec.
Import JS.

Definition isHighSurrogate (c : Z) : bool := (55296 <=? c) && (c <=? 56319).
Definition isLowSurrogate (c : Z) : bool := (56320 <=? c) && (c <=? 57343).

(** Conversion of a string to scalar values, as [TextEncoder.encode] does
    on its argument (a USVString): a surrogate pair is one code point, an
    unpaired surrogate becomes U+FFFD. *)
Fixpoint toScalarValues (s : JSString) : list Z :=
  match s with
  | [] => []
  | c :: rest =>
      if isHighSurrogate c then
        match rest with
        | d :: rest' =>
            if isLowSurrogate d
            then (65536 + (c - 55296) * 1024 + (d - 56320)) :: toScalarValues rest'
            else 65533 :: toScalarValues rest
        | [] => [65533]
        end
      else if isLowSurrogate c then 65533 :: toScalarValues rest
      else c :: toScalarValues rest
  end.

(** A Unicode scalar value: a code point that is not a surrogate. *)
Definition is_scalar (cp : Z) : Prop :=
  0 <= cp < 55296 \/ 57344 <= cp < 1114112.

Definition utf8_encode (cp : Z) : Bytes :=
  if cp <? 128 then [cp]
  else if cp <? 2048 then [192 + cp / 64; 128 + cp mod 64]
  else if cp <? 65536 then
    [224 + cp / 4096; 128 + (cp / 64) mod 64; 128 + cp mod 64]
  else
    [240 + cp / 262144; 128 + (cp / 4096) mod 64;
     128 + (cp / 64) mod 64; 128 + cp mod 64].

(** [new TextEncoder().encode(s)] *)
Definition TextEncoder_encode (s : JSString) : Bytes :=
  flat_map utf8_encode (toScalarValues s).

(** The UTF-8 decoder of the Encoding Standard, in its replacement (not
    fatal) mode. *)
Record Utf8State := {
  codePoint : Z;
  bytesSeen : Z;
  bytesNeeded : Z;
  lowerBoundary : Z;
  upperBoundary : Z
}.

Definition utf8_init : Utf8State :=
  {| codePoint := 0; bytesSeen := 0; bytesNeeded := 0;
     lowerBoundary := 128; upperBoundary := 191 |}.

(** A byte read with no sequence in progress. *)
Definition utf8_lead (b : Z) : Utf8State * list Z :=
  if b <=? 127 then (utf8_init, [b])
  else if (194 <=? b) && (b <=? 223) then
    ({| codePoint := b mod 32; bytesSeen := 0; bytesNeeded := 1;
        lowerBoundary := 128; upperBoundary := 191 |}, [])
  else if (224 <=? b) && (b <=? 239) then
    ({| codePoint := b mod 16; bytesSeen := 0; bytesNeeded := 2;
        lowerBoundary := if b =? 224 then 160 else 128;
        upperBoundary := if b =? 237 then 159 else 191 |}, [])
  else if (240 <=? b) && (b <=? 244) then
    ({| codePoint := b mod 8; bytesSeen := 0; bytesNeeded := 3;
        lowerBoundary := if b =? 240 then 144 else 128;
        upperBoundary := if b =? 244 then 143 else 191 |}, [])
  else (utf8_init, [65533]).

Definition utf8_step (st : Utf8State) (b : Z) : Utf8State * list Z :=
  if bytesNeeded st =? 0 then utf8_lead b
  else if (lowerBoundary st <=? b) && (b <=? upperBoundary st) then
    let cp := codePoint st * 64 + b mod 64 in
    if bytesSeen st + 1 =? bytesNeeded st then (utf8_init, [cp])
    else
      ({| codePoint := cp; bytesSeen := bytesSeen st + 1;
          bytesNeeded := bytesNeeded st;
          lowerBoundary := 128; upperBoundary := 191 |}, [])
  else
    (* the sequence is cut short: U+FFFD, and the byte is read again with
       no sequence in progress *)
    let '(st', out) := utf8_lead b in (st', 65533 :: out).

Fixpoint utf8_run (st : Utf8State) (bs : Bytes) : list Z :=
  match bs with
  | [] => if bytesNeeded st =? 0 then [] else [65533]
  | b :: bs' => let '(st', out) := utf8_step st b in out ++ utf8_run st' bs'
  end.

Definition utf16_encode (cp : Z) : JSString :=
  if cp <? 65536 then [cp]
  else [55296 + (cp - 65536) / 1024; 56320 + (cp - 65536) mod 1024].

(** A decoder made with no options drops one leading U+FEFF (the
    [ignoreBOM] member is false). *)
Definition stripBOM (cps : list Z) : list Z :=
  match cps with
  | c :: rest => if c =? 65279 then rest else cps
  | [] => []
  end.

(** [new TextDecoder().decode(bytes)] *)
Definition TextDecoder_decode (bs : Bytes) : JSString :=
  flat_map utf16_encode (stripBOM (utf8_run utf8_init bs)).

(** A string with no unpaired surrogate ([String.prototype.isWellFormed]). *)
Fixpoint isWellFormed (s : JSString) : bool :=
  match s with
  | [] => true
  | c :: rest =>
      if isHighSurrogate c then
        match rest with
        | d :: rest' => isLowSurrogate d && isWellFormed rest'
        | [] => false
        end
      else negb (isLowSurrogate c) && isWellFormed rest
  end.

(** *** Base64 *)

(** A 6-bit value. *)
Definition sextet (v : Z) : Prop := 0 <= v < 64.

Definition base64Char (v : Z) : Z :=
  if v <? 26 then 65 + v
  else if v <? 52 then 97 + (v - 26)
  else if v <? 62 then 48 + (v - 52)
  else if v =? 62 then 43
  else 47.

Definition base64Value (c : Z) : option Z :=
  if (65 <=? c) && (c <=? 90) then Some (c - 65)
  else if (97 <=? c) && (c <=? 122) then Some (c - 97 + 26)
  else if (48 <=? c) && (c <=? 57) then Some (c - 48 + 52)
  else if c =? 43 then Some 62
  else if c =? 47 then Some 63
  else None.

(** [btoa] of the binary string whose code units are the bytes [bs]. *)
Fixpoint btoa (bs : Bytes) : JSString :=
  match bs with
  | [] => []
  | [b0] => [base64Char (b0 / 4); base64Char ((b0 mod 4) * 16); 61; 61]
  | [b0; b1] =>
      [base64Char (b0 / 4); base64Char ((b0 mod 4) * 16 + b1 / 16);
       base64Char ((b1 mod 16) * 4); 61]
  | b0 :: b1 :: b2 :: rest =>
      base64Char (b0 / 4) :: base64Char ((b0 mod 4) * 16 + b1 / 16)
      :: base64Char ((b1 mod 16) * 4 + b2 / 64) :: base64Char (b2 mod 64)
      :: btoa rest
  end.

Definition isAsciiWhitespace (c : Z) : bool :=
  (c =? 9) || (c =? 10) || (c =? 12) || (c =? 13) || (c =? 32).

(** The padding step of forgiving-base64 decode: when the length is a
    multiple of four, one or two trailing [=] are removed. *)
Definition dropPadding (s : JSString) : JSString :=
  if Z.of_nat (List.length s) mod 4 =? 0 then
    match rev s with
    | c1 :: r1 =>
        if c1 =? 61 then
          match r1 with
          | c2 :: r2 => if c2 =? 61 then rev r2 else rev r1
          | [] => rev r1
          end
        else s
    | [] => s
    end
  else s.

Fixpoint base64Values (s : JSString) : option (list Z) :=
  match s with
  | [] => Some []
  | c :: s' =>
      match base64Value c, base64Values s' with
      | Some v, Some vs => Some (v :: vs)
      | _, _ => None
      end
  end.

(** Groups of four 6-bit values give three bytes; of a trailing group of
    two or three values the last four or two bits are discarded. *)
Fixpoint sextetsToBytes (vs : list Z) : Bytes :=
  match vs with
  | v0 :: v1 :: v2 :: v3 :: rest =>
      (v0 * 4 + v1 / 16) :: ((v1 mod 16) * 16 + v2 / 4)
      :: ((v2 mod 4) * 64 + v3) :: sextetsToBytes rest
  | [v0; v1; v2] => [v0 * 4 + v1 / 16; (v1 mod 16) * 16 + v2 / 4]
  | [v0; v1] => [v0 * 4 + v1 / 16]
  | _ => []
  end.

(** [atob(s)] as a list of the code units of the binary string it returns;
    [None] when it throws [InvalidCharacterError]. *)
Definition atob (s : JSString) : option Bytes :=
  let s1 := filter (fun c => negb (isAsciiWhitespace c)) s in
  let s2 := dropPadding s1 in
  if Z.of_nat (List.length s2) mod 4 =? 1 then None
  else
    match base64Values s2 with
    | Some vs => Some (sextetsToBytes vs)
    | None => None
    end.

End Codec.

(** ** SHA-256 (FIPS 180-4), as [crypto.subtle.digest('SHA-256', _)]
       computes it *)

Module SHA256.
Import JS.

Definition w32 (x : Z) : Z := x mod 4294967296.
Definition add32 (x y : Z) : Z := w32 (x + y).
Definition rotr (n x : Z) : Z :=
  Z.lor (Z.shiftr x n) (w32 (Z.shiftl x (32 - n))).

Definition Ch (x y z : Z) : Z :=
  Z.lxor (Z.land x y) (Z.land (w32 (Z.lnot x)) z).
Definition Maj (x y z : Z) : Z :=
  Z.lxor (Z.lxor (Z.land x y) (Z.land x z)) (Z.land y z).
Definition Sigma0 (x : Z) : Z :=
  Z.lxor (Z.lxor (rotr 2 x) (rotr 13 x)) (rotr 22 x).
Definition Sigma1 (x : Z) : Z :=
  Z.lxor (Z.lxor (rotr 6 x) (rotr 11 x)) (rotr 25 x).
Definition sigma0 (x : Z) : Z :=
  Z.lxor (Z.lxor (rotr 7 x) (rotr 18 x)) (Z.shiftr x 3).
Definition sigma1 (x : Z) : Z :=
  Z.lxor (Z.lxor (rotr 17 x) (rotr 19 x)) (Z.shiftr x 10).

(** The prime numbers below [2 + n], in order. *)
Definition isPrime (p : Z) : bool :=
  forallb (fun d => negb (p mod Z.of_nat d =? 0)) (seq 2 (Z.to_nat p - 2)).

Definition primes (n : nat) : list Z :=
  filter isPrime (map Z.of_nat (seq 2 n)).

(** The integer part of the [k]-th root of [n], found bit by bit from bit
    [bits - 1] down. *)
Fixpoint root (k : Z) (bits : nat) (n acc : Z) : Z :=
  match bits with
  | O => acc
  | S bits' =>
      let candidate := acc + 2 ^ Z.of_nat bits' in
      root k bits' n (if candidate ^ k <=? n then candidate else acc)
  end.

(** The first 32 bits of the fractional part of the [k]-th root of [p]. *)
Definition fraction32 (k p : Z) : Z :=
  w32 (root k 40 (p * 2 ^ (32 * k)) 0).

(** The round constants: from the cube roots of the first 64 primes. *)
Definition K : list Z :=
  Eval vm_compute in map (fraction32 3) (firstn 64 (primes 400)).

(** The initial hash value: from the square roots of the first 8 primes. *)
Definition H0 : list Z :=
  Eval vm_compute in map (fraction32 2) (firstn 8 (primes 20)).

Fixpoint be_words (bs : Bytes) : list Z :=
  match bs with
  | b0 :: b1 :: b2 :: b3 :: rest =>
      (((b0 * 256 + b1) * 256 + b2) * 256 + b3) :: be_words rest
  | _ => []
  end.

(** The message, a 1 bit, zero bits up to 56 modulo 64 bytes, and the
    length in bits on 8 bytes. *)
Definition pad (msg : Bytes) : Bytes :=
  let len := Z.of_nat (List.length msg) in
  msg ++ 128 :: repeat 0 (Z.to_nat ((55 - len) mod 64)) ++ be_bytes 8 (8 * len).

Fixpoint schedule (n : nat) (w : list Z) : list Z :=
  match n with
  | O => w
  | S n' =>
      let i := List.length w in
      let x := add32 (add32 (sigma1 (nth (i - 2) w 0)) (nth (i - 7) w 0))
                     (add32 (sigma0 (nth (i - 15) w 0)) (nth (i - 16) w 0)) in
      schedule n' (w ++ [x])
  end.

Definition round (v : list Z) (kw : Z * Z) : list Z :=
  match v with
  | [a; b; c; d; e; f; g; h] =>
      let t1 := add32 (add32 (add32 h (Sigma1 e)) (add32 (Ch e f g) (fst kw)))
                      (snd kw) in
      let t2 := add32 (Sigma0 a) (Maj a b c) in
      [add32 t1 t2; a; b; c; add32 d t1; e; f; g]
  | _ => v
  end.

Definition compress (h : list Z) (block : Bytes) : list Z :=
  let w := schedule 48 (be_words block) in
  map (fun p => add32 (fst p) (snd p))
      (combine h (fold_left round (combine K w) h)).

Fixpoint blocks (fuel : nat) (bs : Bytes) : list Bytes :=
  match fuel, bs with
  | S fuel', _ :: _ => firstn 64 bs :: blocks fuel' (skipn 64 bs)
  | _, _ => []
  end.

Definition digest (msg : Bytes) : Bytes :=
  let p := pad msg in
  flat_map (be_bytes 4) (fold_left compress (blocks (List.length p) p) H0).

End SHA256.

(** ** AES (FIPS 197) in Galois/Counter Mode (NIST SP 800-38D), as
       [crypto.subtle.encrypt] and [crypto.subtle.decrypt] compute
       [{name: "AES-GCM", iv}] with the default 128-bit tag *)

Module AES.
Import JS.

Definition sbox : list Z :=
  [0x63; 0x7c; 0x77; 0x7b; 0xf2; 0x6b; 0x6f; 0xc5; 0x30; 0x01; 0x67; 0x2b;
   0xfe; 0xd7; 0xab; 0x76; 0xca; 0x82; 0xc9; 0x7d; 0xfa; 0x59; 0x47; 0xf0;
   0xad; 0xd4; 0xa2; 0xaf; 0x9c; 0xa4; 0x72; 0xc0; 0xb7; 0xfd; 0x93; 0x26;
   0x36; 0x3f; 0xf7; 0xcc; 0x34; 0xa5; 0xe5; 0xf1; 0x71; 0xd8; 0x31; 0x15;
   0x04; 0xc7; 0x23; 0xc3; 0x18; 0x96; 0x05; 0x9a; 0x07; 0x12; 0x80; 0xe2;
   0xeb; 0x27; 0xb2; 0x75; 0x09; 0x83; 0x2c; 0x1a; 0x1b; 0x6e; 0x5a; 0xa0;
   0x52; 0x3b; 0xd6; 0xb3; 0x29; 0xe3; 0x2f; 0x84; 0x53; 0xd1; 0x00; 0xed;
   0x20; 0xfc; 0xb1; 0x5b; 0x6a; 0xcb; 0xbe; 0x39; 0x4a; 0x4c; 0x58; 0xcf;
   0xd0; 0xef; 0xaa; 0xfb; 0x43; 0x4d; 0x33; 0x85; 0x45; 0xf9; 0x02; 0x7f;
   0x50; 0x3c; 0x9f; 0xa8; 0x51; 0xa3; 0x40; 0x8f; 0x92; 0x9d; 0x38; 0xf5;
   0xbc; 0xb6; 0xda; 0x21; 0x10; 0xff; 0xf3; 0xd2; 0xcd; 0x0c; 0x13; 0xec;
   0x5f; 0x97; 0x44; 0x17; 0xc4; 0xa7; 0x7e; 0x3d; 0x64; 0x5d; 0x19; 0x73;
   0x60; 0x81; 0x4f; 0xdc; 0x22; 0x2a; 0x90; 0x88; 0x46; 0xee; 0xb8; 0x14;
   0xde; 0x5e; 0x0b; 0xdb; 0xe0; 0x32; 0x3a; 0x0a; 0x49; 0x06; 0x24; 0x5c;
   0xc2; 0xd3; 0xac; 0x62; 0x91; 0x95; 0xe4; 0x79; 0xe7; 0xc8; 0x37; 0x6d;
   0x8d; 0xd5; 0x4e; 0xa9; 0x6c; 0x56; 0xf4; 0xea; 0x65; 0x7a; 0xae; 0x08;
   0xba; 0x78; 0x25; 0x2e; 0x1c; 0xa6; 0xb4; 0xc6; 0xe8; 0xdd; 0x74; 0x1f;
   0x4b; 0xbd; 0x8b; 0x8a; 0x70; 0x3e; 0xb5; 0x66; 0x48; 0x03; 0xf6; 0x0e;
   0x61; 0x35; 0x57; 0xb9; 0x86; 0xc1; 0x1d; 0x9e; 0xe1; 0xf8; 0x98; 0x11;
   0x69; 0xd9; 0x8e; 0x94; 0x9b; 0x1e; 0x87; 0xe9; 0xce; 0x55; 0x28; 0xdf;
   0x8c; 0xa1; 0x89; 0x0d; 0xbf; 0xe6; 0x42; 0x68; 0x41; 0x99; 0x2d; 0x0f;
   0xb0; 0x54; 0xbb; 0x16].

Definition SubByte (b : Z) : Z := nth (Z.to_nat b) sbox 0.

(** Multiplication by x in GF(2^8) modulo x^8 + x^4 + x^3 + x + 1. *)
Definition xtime (a : Z) : Z :=
  if 2 * a <? 256 then 2 * a else Z.lxor (2 * a - 256) 27.

(** Bytewise exclusive or, as long as the shorter argument. *)
Definition xor_bytes (a b : Bytes) : Bytes :=
  map (fun p => Z.lxor (fst p) (snd p)) (combine a b).

Definition RotWord (w : Bytes) : Bytes :=
  match w with
  | a :: rest => rest ++ [a]
  | [] => []
  end.

Fixpoint Rcon (j : nat) : Z :=
  match j with
  | O => 1
  | S j' => xtime (Rcon j')
  end.

Fixpoint words (bs : Bytes) : list Bytes :=
  match bs with
  | b0 :: b1 :: b2 :: b3 :: rest => [b0; b1; b2; b3] :: words rest
  | _ => []
  end.

(** [n] more words of the key schedule after the words [w]; [Nk] is the
    number of words of the key. *)
Fixpoint expand (n Nk : nat) (w : list Bytes) : list Bytes :=
  match n with
  | O => w
  | S n' =>
      let i := List.length w in
      let temp := nth (i - 1) w [] in
      let temp' :=
        if (i mod Nk =? 0)%nat then
          xor_bytes (map SubByte (RotWord temp)) [Rcon (i / Nk - 1); 0; 0; 0]
        else if ((6 <? Nk) && (i mod Nk =? 4))%nat then map SubByte temp
        else temp in
      expand n' Nk (w ++ [xor_bytes (nth (i - Nk) w []) temp'])
  end.

Fixpoint blocks16 (fuel : nat) (bs : Bytes) : list Bytes :=
  match fuel, bs with
  | S fuel', _ :: _ => firstn 16 bs :: blocks16 fuel' (skipn 16 bs)
  | _, _ => []
  end.

(** The round keys, [Nk + 7] of them. *)
Definition KeyExpansion (key : Bytes) : list Bytes :=
  let Nk := (List.length key / 4)%nat in
  let w := expand (4 * (Nk + 7) - Nk) Nk (words key) in
  blocks16 (List.length w) (List.concat w).

(** The state is kept in the order of the input bytes, column after
    column. *)
Definition ShiftRows (s : Bytes) : Bytes :=
  map (fun i => nth i s 0)
      [0; 5; 10; 15; 4; 9; 14; 3; 8; 13; 2; 7; 12; 1; 6; 11]%nat.

Fixpoint MixColumns (s : Bytes) : Bytes :=
  match s with
  | a0 :: a1 :: a2 :: a3 :: rest =>
      let x3 a := Z.lxor (xtime a) a in
      Z.lxor (Z.lxor (xtime a0) (x3 a1)) (Z.lxor a2 a3)
      :: Z.lxor (Z.lxor a0 (xtime a1)) (Z.lxor (x3 a2) a3)
      :: Z.lxor (Z.lxor a0 a1) (Z.lxor (xtime a2) (x3 a3))
      :: Z.lxor (Z.lxor (x3 a0) a1) (Z.lxor a2 (xtime a3))
      :: MixColumns rest
  | _ => []
  end.

Definition Round (s rk : Bytes) : Bytes :=
  xor_bytes (MixColumns (ShiftRows (map SubByte s))) rk.

Definition FinalRound (s rk : Bytes) : Bytes :=
  xor_bytes (ShiftRows (map SubByte s)) rk.

Definition Cipher (rks : list Bytes) (input : Bytes) : Bytes :=
  match rks with
  | rk0 :: rest =>
      FinalRound (fold_left Round (removelast rest) (xor_bytes input rk0))
                 (last rest [])
  | [] => input
  end.

(** The block cipher on 128-bit blocks read as unsigned integers. *)
Definition CIPH (rks : list Bytes) (x : Z) : Z :=
  be_value (Cipher rks (be_bytes 16 x)).

(** *** GCM *)

Definition R : Z := 0xE1 * 2 ^ 120.

(** Multiplication in GF(2^128); bit 0 of a block is its most significant
    bit. [n] bits of [x] are still to be read. *)
Fixpoint gf_mul_loop (n : nat) (x z v : Z) : Z :=
  match n with
  | O => z
  | S n' =>
      gf_mul_loop n' x
        (if Z.testbit x (Z.of_nat n') then Z.lxor z v else z)
        (if Z.testbit v 0 then Z.lxor (Z.shiftr v 1) R else Z.shiftr v 1)
  end.

Definition gf_mul (x y : Z) : Z := gf_mul_loop 128 x 0 y.

Definition GHASH (H : Z) (bs : Bytes) : Z :=
  fold_left (fun y x => gf_mul (Z.lxor y (be_value x)) H)
            (blocks16 (List.length bs) bs) 0.

Definition pad16 (bs : Bytes) : Bytes :=
  bs ++ repeat 0 (Z.to_nat ((- Z.of_nat (List.length bs)) mod 16)).

Definition bitlen64 (bs : Bytes) : Bytes :=
  be_bytes 8 (8 * Z.of_nat (List.length bs)).

(** The pre-counter block J0. *)
Definition J0 (H : Z) (iv : Bytes) : Z :=
  if (List.length iv =? 12)%nat then be_value (iv ++ [0; 0; 0; 1])
  else GHASH H (pad16 iv ++ repeat 0 8 ++ bitlen64 iv).

Definition inc32 (cb : Z) : Z :=
  (cb / 2 ^ 32) * 2 ^ 32 + (cb + 1) mod 2 ^ 32.

Fixpoint keystream (rks : list Bytes) (n : nat) (cb : Z) : Bytes :=
  match n with
  | O => []
  | S n' => be_bytes 16 (CIPH rks cb) ++ keystream rks n' (inc32 cb)
  end.

Definition GCTR (rks : list Bytes) (icb : Z) (data : Bytes) : Bytes :=
  xor_bytes data (keystream rks ((List.length data + 15) / 16)%nat icb).

Definition tag (rks : list Bytes) (H j0 : Z) (aad ct : Bytes) : Bytes :=
  be_bytes 16
    (Z.lxor (CIPH rks j0)
            (GHASH H (pad16 aad ++ pad16 ct ++ bitlen64 aad ++ bitlen64 ct))).

Fixpoint bytes_eqb (a b : Bytes) : bool :=
  match a, b with
  | [], [] => true
  | x :: a', y :: b' => (x =? y) && bytes_eqb a' b'
  | _, _ => false
  end.

(** [subtle.encrypt]: the ciphertext followed by the 16-byte tag. *)
Definition gcm_encrypt (key iv plaintext : Bytes) : Bytes :=
  let rks := KeyExpansion key in
  let H := CIPH rks 0 in
  let j0 := J0 H iv in
  let ct := GCTR rks (inc32 j0) plaintext in
  ct ++ tag rks H j0 [] ct.

(** [subtle.decrypt]: [None] is the rejection (OperationError) of data
    shorter than a tag or with a tag that does not verify. *)
Definition gcm_decrypt (key iv data : Bytes) : option Bytes :=
  let n := List.length data in
  if (n <? 16)%nat then None
  else
    let ct := firstn (n - 16) data in
    let rks := KeyExpansion key in
    let H := CIPH rks 0 in
    let j0 := J0 H iv in
    if bytes_eqb (skipn (n - 16) data) (tag rks H j0 [] ct)
    then Some (GCTR rks (inc32 j0) ct)
    else None.

End AES.

(** ** Exceptions and rejected promises *)

Module Exn.

Inductive Exception :=
| InvalidCharacterError   (* [atob] on text that is not base64 *)
| OperationError          (* [subtle.decrypt]: the tag does not verify *)
| RangeError              (* [toISOString] of an invalid date *)
| SyntaxError             (* [JSON.parse] *)
| ServiceError            (* a rejected call to the generative model *)
| EmptyResponse.          (* [new Error("Empty response from AI")] *)

Inductive result (A : Type) :=
| Ok (a : A)
| Throw (e : Exception).

Arguments Ok {A} a.
Arguments Throw {A} e.

Definition bind {A B} (r : result A) (k : A -> result B) : result B :=
  match r with
  | Ok a => k a
  | Throw e => Throw e
  end.

Definition orThrow {A} (e : Exception) (o : option A) : result A :=
  match o with
  | Some a => Ok a
  | None => Throw e
  end.

End Exn.

Notation "x <- r ;; k" := (Exn.bind r (fun x => k))
  (at level 61, r at next level, right associativity).

(** ** [services/crypto.ts] *)

Module CryptoService.
Import JS Exn.

(** An AES [CryptoKey] is its raw key material ([extractable] is true,
    [exportKey("raw", _)] returns it). *)
Definition CryptoKey := Bytes.

(** [bufferToHex]: each byte as two lowercase hexadecimal digits. *)
Definition bufferToHex (buffer : Bytes) : JSString :=
  flat_map (fun b => [hexDigit (b / 16); hexDigit (b mod 16)]) buffer.

(** [bufferToBase64]: the bytes as a binary string, then [btoa]. *)
Definition bufferToBase64 (buffer : Bytes) : JSString := Codec.btoa buffer.

(** [exportKey] *)
Definition exportKey (key : CryptoKey) : Bytes := key.

(** [importAESKey]: a key of 128, 192 or 256 bits is imported, anything
    else is rejected. *)
Definition importAESKey (raw : Bytes) : option CryptoKey :=
  let n := List.length raw in
  if ((n =? 16) || (n =? 24) || (n =? 32))%nat then Some raw else None.

Record Encrypted := {
  iv : JSString;
  ciphertext : JSString
}.

(** [encryptMessage]; [ivBytes] is the value of
    [crypto.getRandomValues(new Uint8Array(12))]. *)
Definition encryptMessage (key : CryptoKey) (ivBytes : Bytes)
    (message : JSString) : Encrypted :=
  let encoded := Codec.TextEncoder_encode message in
  let encrypted := AES.gcm_encrypt key ivBytes encoded in
  {| iv := bufferToBase64 ivBytes;
     ciphertext := bufferToBase64 encrypted |}.

(** [decryptMessage] *)
Definition decryptMessage (key : CryptoKey) (ciphertext ivStr : JSString)
    : result JSString :=
  iv <- orThrow InvalidCharacterError (Codec.atob ivStr) ;;
  data <- orThrow InvalidCharacterError (Codec.atob ciphertext) ;;
  decrypted <- orThrow OperationError (AES.gcm_decrypt key iv data) ;;
  Ok (Codec.TextDecoder_decode decrypted).

(** [hashData] *)
Definition hashData (data : JSString) : JSString :=
  let msgUint8 := Codec.TextEncoder_encode data in
  let hashBuffer := SHA256.digest msgUint8 in
  bufferToHex hashBuffer.

End CryptoService.

(** ** JSON values and [JSON.stringify] *)

Module JSON.
Import JS.

(** Numbers are the integers (every number the sources put in a log entry
    is a length or a time in milliseconds). The fields of an object are in
    insertion order, the order [JSON.stringify] writes them in; keys are
    not array indices and do not repeat. *)
#[local] Unset Elimination Schemes.
Inductive JSValue :=
| JNull
| JBool (b : bool)
| JNum (n : Z)
| JStr (s : JSString)
| JArr (items : list JSValue)
| JObj (fields : list (JSString * JSValue)).
#[local] Set Elimination Schemes.

Definition hex4 (c : Z) : JSString :=
  [hexDigit (c / 4096); hexDigit ((c / 256) mod 16);
   hexDigit ((c / 16) mod 16); hexDigit (c mod 16)].

(** A backslash, [u] and four lowercase hexadecimal digits. *)
Definition unicodeEscape (c : Z) : JSString := 92 :: 117 :: hex4 c.

(** The body of QuoteJSONString: the two-character escapes, [\uXXXX] for
    the other control characters and for unpaired surrogates, and every
    other code point as it is. *)
Fixpoint quoteUnits (s : JSString) : JSString :=
  match s with
  | [] => []
  | c :: rest =>
      if c =? 8 then 92 :: 98 :: quoteUnits rest
      else if c =? 9 then 92 :: 116 :: quoteUnits rest
      else if c =? 10 then 92 :: 110 :: quoteUnits rest
      else if c =? 12 then 92 :: 102 :: quoteUnits rest
      else if c =? 13 then 92 :: 114 :: quoteUnits rest
      else if c =? 34 then 92 :: 34 :: quoteUnits rest
      else if c =? 92 then 92 :: 92 :: quoteUnits rest
      else if c <? 32 then unicodeEscape c ++ quoteUnits rest
      else if Codec.isHighSurrogate c then
        match rest with
        | d :: rest' =>
            if Codec.isLowSurrogate d then c :: d :: quoteUnits rest'
            else unicodeEscape c ++ quoteUnits rest
        | [] => unicodeEscape c
        end
      else if Codec.isLowSurrogate c then unicodeEscape c ++ quoteUnits rest
      else c :: quoteUnits rest
  end.

Definition quote (s : JSString) : JSString := 34 :: quoteUnits s ++ [34].

Fixpoint join (parts : list JSString) : JSString :=
  match parts with
  | [] => []
  | [p] => p
  | p :: rest => p ++ 44 :: join rest
  end.

(** [JSON.stringify(v)] *)
Fixpoint stringify (v : JSValue) : JSString :=
  match v with
  | JNull => js "null"
  | JBool true => js "true"
  | JBool false => js "false"
  | JNum n => numberToString n
  | JStr s => quote s
  | JArr items => 91 :: join (map stringify items) ++ [93]
  | JObj fields =>
      123 :: join (map (fun kv => quote (fst kv) ++ 58 :: stringify (snd kv))
                       fields) ++ [125]
  end.

(** Every string of a value: the string values and the keys. *)
Fixpoint strings (v : JSValue) : list JSString :=
  match v with
  | JStr s => [s]
  | JArr items => flat_map strings items
  | JObj fields => flat_map (fun kv => fst kv :: strings (snd kv)) fields
  | _ => []
  end.

(** [o.key] *)
Fixpoint lookup (key : JSString) (fields : list (JSString * JSValue))
    : option JSValue :=
  match fields with
  | [] => None
  | (k, v) :: rest => if str_eqb k key then Some v else lookup key rest
  end.

Definition get (key : JSString) (v : JSValue) : option JSValue :=
  match v with
  | JObj fields => lookup key fields
  | _ => None
  end.

End JSON.

(** ** [Date.prototype.toISOString] *)

Module Date.
Import JS.

(** A time value is a valid date when it is within 8.64e15 ms of the
    epoch. *)
Definition valid (t : Z) : bool := Z.abs t <=? 8640000000000000.

(** Year, month and day of the proleptic Gregorian calendar from the number
    of days since 1970-01-01. *)
Definition civil (days : Z) : Z * Z * Z :=
  let z := days + 719468 in
  let era := z / 146097 in
  let doe := z mod 146097 in
  let yoe := (doe - doe / 1460 + doe / 36524 - doe / 146096) / 365 in
  let doy := doe - (365 * yoe + yoe / 4 - yoe / 100) in
  let mp := (5 * doy + 2) / 153 in
  let d := doy - (153 * mp + 2) / 5 + 1 in
  let m := if mp <? 10 then mp + 3 else mp - 9 in
  let y := yoe + era * 400 + (if m <=? 2 then 1 else 0) in
  (y, m, d).

Definition pad (width : nat) (n : Z) : JSString :=
  padStart0 width (decimal n).

Definition year (y : Z) : JSString :=
  if (0 <=? y) && (y <=? 9999) then pad 4 y
  else (if y <? 0 then 45 else 43) :: pad 6 (Z.abs y).

(** [new Date(t).toISOString()]; [None] is the RangeError of an invalid
    date. *)
Definition toISOString (t : Z) : option JSString :=
  if valid t then
    let '(y, m, d) := civil (t / 86400000) in
    let ms := t mod 86400000 in
    Some (year y ++ 45 :: pad 2 m ++ 45 :: pad 2 d ++ 84
          :: pad 2 (ms / 3600000) ++ 58 :: pad 2 ((ms / 60000) mod 60) ++ 58
          :: pad 2 ((ms / 1000) mod 60) ++ 46 :: pad 3 (ms mod 1000) ++ [90])
  else None.

End Date.

(** ** [types.ts] *)

Module Types.
Import JS JSON.

Inductive UserRole := ADMIN | USER | AUDITOR.

Record User := {
  user_id : JSString;
  username : JSString;
  role : UserRole;
  avatar : JSString
}.

Record Message := {
  msg_id : JSString;
  senderId : JSString;
  content : JSString;           (* the cleartext, for the sender/receiver *)
  encryptedContent : JSString;  (* IV, a colon, ciphertext, both base64 *)
  msg_timestamp : Z;
  integrityHash : JSString;
  isSystem : bool
}.

Inductive LogEventType :=
| LOGIN
| KEY_EXCHANGE
| MESSAGE_SENT
| MESSAGE_DECRYPTED
| SUSPICIOUS_KEYWORD
| LOGOUT
| ANOMALY_DETECTED.

(** The string each member of the enumeration is. *)
Definition eventTypeName (t : LogEventType) : JSString :=
  match t with
  | LOGIN => js "LOGIN"
  | KEY_EXCHANGE => js "KEY_EXCHANGE"
  | MESSAGE_SENT => js "MESSAGE_SENT"
  | MESSAGE_DECRYPTED => js "MESSAGE_DECRYPTED"
  | SUSPICIOUS_KEYWORD => js "SUSPICIOUS_KEYWORD"
  | LOGOUT => js "LOGOUT"
  | ANOMALY_DETECTED => js "ANOMALY_DETECTED"
  end.

Definition eventType_eqb (a b : LogEventType) : bool :=
  match a, b with
  | LOGIN, LOGIN | KEY_EXCHANGE, KEY_EXCHANGE | MESSAGE_SENT, MESSAGE_SENT
  | MESSAGE_DECRYPTED, MESSAGE_DECRYPTED
  | SUSPICIOUS_KEYWORD, SUSPICIOUS_KEYWORD | LOGOUT, LOGOUT
  | ANOMALY_DETECTED, ANOMALY_DETECTED => true
  | _, _ => false
  end.

Inductive Severity := INFO | WARNING | CRITICAL.

Definition severityName (s : Severity) : JSString :=
  match s with
  | INFO => js "INFO"
  | WARNING => js "WARNING"
  | CRITICAL => js "CRITICAL"
  end.

Definition severity_eqb (a b : Severity) : bool :=
  match a, b with
  | INFO, INFO | WARNING, WARNING | CRITICAL, CRITICAL => true
  | _, _ => false
  end.

Record ForensicLog := {
  id : JSString;
  timestamp : Z;
  userId : JSString;
  eventType : LogEventType;
  metadata : JSValue;
  severity : Severity;
  hash : JSString       (* tamper-evident hash *)
}.

End Types.

(** ** [App.tsx]: the forensic log and the keyword list *)

Module App.
Import JS JSON Types.

Inductive View := chat | dashboard | settings.

Record State := {
  user : option User;
  activeView : View;
  logs : list ForensicLog;
  suspiciousKeywords : list JSString;
  isSidebarExpanded : bool
}.

Definition initial : State :=
  {| user := None;
     activeView := chat;
     logs := [];
     suspiciousKeywords :=
       [js "leak"; js "hack"; js "password"; js "bribe"; js "confidential";
        js "off the record"];
     isSidebarExpanded := false |}.

(** [userIdOverride || user?.id || 'unknown'] *)
Definition targetUserId (userIdOverride : option JSString) (u : option User)
    : JSString :=
  let fromUser :=
    match u with
    | Some v => if truthy (user_id v) then user_id v else js "unknown"
    | None => js "unknown"
    end in
  match userIdOverride with
  | Some o => if truthy o then o else fromUser
  | None => fromUser
  end.

(** The object [{ type, metadata, timestamp, userId }] whose JSON text is
    hashed. *)
Definition payloadOf (type : LogEventType) (meta : JSValue) (time : Z)
    (uid : JSString) : JSValue :=
  JObj [(js "type", JStr (eventTypeName type));
        (js "metadata", meta);
        (js "timestamp", JNum time);
        (js "userId", JStr uid)].

(** The entry [handleLogEvent] builds. [now1] is the value of the
    [Date.now()] inside the hashed payload, [now2] that of the [Date.now()]
    that becomes the entry's [timestamp] (the hash is awaited between the
    two reads), [uuid] that of [crypto.randomUUID()]. A severity that is
    not passed is ['INFO']. *)
Definition newLog (u : option User) (now1 now2 : Z) (uuid : JSString)
    (type : LogEventType) (meta : JSValue) (sev : option Severity)
    (userIdOverride : option JSString) : ForensicLog :=
  let targetUserId := targetUserId userIdOverride u in
  let payload := stringify (payloadOf type meta now1 targetUserId) in
  let logHash := CryptoService.hashData payload in
  {| id := uuid;
     timestamp := now2;
     userId := targetUserId;
     eventType := type;
     metadata := meta;
     severity := match sev with Some s => s | None => INFO end;
     hash := logHash |}.

Definition setLogs (f : list ForensicLog -> list ForensicLog) (st : State)
    : State :=
  {| user := user st; activeView := activeView st; logs := f (logs st);
     suspiciousKeywords := suspiciousKeywords st;
     isSidebarExpanded := isSidebarExpanded st |}.

Definition setSuspiciousKeywords (f : list JSString -> list JSString)
    (st : State) : State :=
  {| user := user st; activeView := activeView st; logs := logs st;
     suspiciousKeywords := f (suspiciousKeywords st);
     isSidebarExpanded := isSidebarExpanded st |}.

(** [handleLogEvent] *)
Definition handleLogEvent (now1 now2 : Z) (uuid : JSString)
    (type : LogEventType) (meta : JSValue) (sev : option Severity)
    (userIdOverride : option JSString) (st : State) : State :=
  let entry := newLog (user st) now1 now2 uuid type meta sev userIdOverride in
  setLogs (fun prev => prev ++ [entry]) st.

(** [handleLogin] *)
Definition handleLogin (now1 now2 : Z) (uuid : JSString)
    (loggedInUser : User) (st : State) : State :=
  let st' :=
    {| user := Some loggedInUser; activeView := activeView st;
       logs := logs st; suspiciousKeywords := suspiciousKeywords st;
       isSidebarExpanded := isSidebarExpanded st |} in
  handleLogEvent now1 now2 uuid LOGIN
    (JObj [(js "method", JStr (js "PASSWORD"));
           (js "status", JStr (js "SUCCESS"))])
    (Some INFO) (Some (user_id loggedInUser)) st'.

(** [handleLogout] *)
Definition handleLogout (now1 now2 : Z) (uuid : JSString) (st : State)
    : State :=
  let st' :=
    match user st with
    | Some _ =>
        handleLogEvent now1 now2 uuid LOGOUT
          (JObj [(js "status", JStr (js "SUCCESS"))]) (Some INFO) None st
    | None => st
    end in
  {| user := None; activeView := chat; logs := logs st';
     suspiciousKeywords := suspiciousKeywords st';
     isSidebarExpanded := false |}.

(** [addKeyword] *)
Definition addKeyword (now1 now2 : Z) (uuid : JSString) (keyword : JSString)
    (st : State) : State :=
  handleLogEvent now1 now2 uuid ANOMALY_DETECTED
    (JObj [(js "action", JStr (js "DLP_RULE_ADDED"));
           (js "keyword", JStr keyword)])
    (Some INFO) None
    (setSuspiciousKeywords (fun prev => prev ++ [keyword]) st).

(** [removeKeyword] *)
Definition removeKeyword (now1 now2 : Z) (uuid : JSString)
    (keyword : JSString) (st : State) : State :=
  handleLogEvent now1 now2 uuid ANOMALY_DETECTED
    (JObj [(js "action", JStr (js "DLP_RULE_REMOVED"));
           (js "keyword", JStr keyword)])
    (Some WARNING) None
    (setSuspiciousKeywords
       (fun prev => filter (fun k => negb (str_eqb k keyword)) prev) st).

(** The hash of an entry computed again from the fields it stores, the way
    [handleLogEvent] computed it. *)
Definition recomputeHash (e : ForensicLog) : JSString :=
  CryptoService.hashData
    (stringify (payloadOf (eventType e) (metadata e) (timestamp e) (userId e))).

End App.

(** The first version of [App.tsx] (no login, no settings): the user is the
    constant [CURRENT_USER] and [handleLogEvent] takes no override. *)
Module AppV1.
Import JS JSON Types.

Definition CURRENT_USER : User :=
  {| user_id := js "user-001"; username := js "agent.smith"; role := USER;
     avatar := js "https://picsum.photos/40/40" |}.

Definition handleLogEvent (now1 now2 : Z) (uuid : JSString)
    (type : LogEventType) (meta : JSValue) (sev : option Severity)
    (logs : list ForensicLog) : list ForensicLog :=
  let payload :=
    stringify (App.payloadOf type meta now1 (user_id CURRENT_USER)) in
  let logHash := CryptoService.hashData payload in
  let newLog :=
    {| id := uuid;
       timestamp := now2;
       userId := user_id CURRENT_USER;
       eventType := type;
       metadata := meta;
       severity := match sev with Some s => s | None => INFO end;
       hash := logHash |} in
  logs ++ [newLog].

End AppV1.

(** ** [components/Settings.tsx] *)

Module Settings.
Import JS.

(** [keywords.includes(k)] on the array of keywords. *)
Definition arrayIncludes (keywords : list JSString) (k : JSString) : bool :=
  existsb (fun x => str_eqb x k) keywords.

(** [handleAdd]: the keyword handed to [onAdd], if any, and the new value
    of the input field. *)
Definition handleAdd (keywords : list JSString) (newKeyword : JSString)
    : option JSString * JSString :=
  if truthy (trim newKeyword)
     && negb (arrayIncludes keywords (toLowerCase (trim newKeyword)))
  then (Some (toLowerCase (trim newKeyword)), [])
  else (None, newKeyword).

End Settings.

(** ** [components/Chat.tsx]: the handshake and the message pipeline *)

Module Chat.
Import JS JSON Types.

Record RsaKeyPair := {
  publicKey : Bytes;
  privateKey : Bytes
}.

(** Where [initSession] stands: it has not run, it awaits a promise, or it
    has returned. The local variables alive across an [await] are kept with
    the point they are awaited at. *)
Inductive Pending :=
| NotStarted
| AwaitKeyPair
| AwaitSessionKey (rsaPair : RsaKeyPair)
| AwaitUnwrap (rsaPair : RsaKeyPair) (encryptedSessionKey : Bytes)
| Settled.

Record State := {
  messages : list Message;
  inputText : JSString;
  aesKey : option CryptoService.CryptoKey;
  handshakeStatus : JSString;
  sessionFingerprint : JSString;
  showKeyModal : bool;
  pending : Pending
}.

Definition initial : State :=
  {| messages := []; inputText := []; aesKey := None;
     handshakeStatus := js "Initializing..."; sessionFingerprint := [];
     showKeyModal := false; pending := NotStarted |}.

Definition setMessages (f : list Message -> list Message) (st : State) :=
  {| messages := f (messages st); inputText := inputText st;
     aesKey := aesKey st; handshakeStatus := handshakeStatus st;
     sessionFingerprint := sessionFingerprint st;
     showKeyModal := showKeyModal st; pending := pending st |}.

Definition setInputText (s : JSString) (st : State) :=
  {| messages := messages st; inputText := s;
     aesKey := aesKey st; handshakeStatus := handshakeStatus st;
     sessionFingerprint := sessionFingerprint st;
     showKeyModal := showKeyModal st; pending := pending st |}.

Definition setAesKey (k : option CryptoService.CryptoKey) (st : State) :=
  {| messages := messages st; inputText := inputText st;
     aesKey := k; handshakeStatus := handshakeStatus st;
     sessionFingerprint := sessionFingerprint st;
     showKeyModal := showKeyModal st; pending := pending st |}.

Definition setHandshakeStatus (s : JSString) (st : State) :=
  {| messages := messages st; inputText := inputText st;
     aesKey := aesKey st; handshakeStatus := s;
     sessionFingerprint := sessionFingerprint st;
     showKeyModal := showKeyModal st; pending := pending st |}.

Definition setSessionFingerprint (s : JSString) (st : State) :=
  {| messages := messages st; inputText := inputText st;
     aesKey := aesKey st; handshakeStatus := handshakeStatus st;
     sessionFingerprint := s;
     showKeyModal := showKeyModal st; pending := pending st |}.

Definition setShowKeyModal (b : bool) (st : State) :=
  {| messages := messages st; inputText := inputText st;
     aesKey := aesKey st; handshakeStatus := handshakeStatus st;
     sessionFingerprint := sessionFingerprint st;
     showKeyModal := b; pending := pending st |}.

Definition setPending (p : Pending) (st : State) :=
  {| messages := messages st; inputText := inputText st;
     aesKey := aesKey st; handshakeStatus := handshakeStatus st;
     sessionFingerprint := sessionFingerprint st;
     showKeyModal := showKeyModal st; pending := p |}.

(** A call [onLogEvent(type, metadata, severity)]. *)
Record LogCall := {
  callType : LogEventType;
  callMetadata : JSValue;
  callSeverity : option Severity
}.

(** A callback handed to [setTimeout]: the simulated reply, with the key
    its closure holds. *)
Inductive Timer :=
| Echo (delay : Z) (key : CryptoService.CryptoKey).

(** What a handler leaves behind: the component's state, the calls of
    [onLogEvent] in order, and the timers set. *)
Record Step := {
  next : State;
  logged : list LogCall;
  scheduled : list Timer
}.

Definition skip (st : State) : Step :=
  {| next := st; logged := []; scheduled := [] |}.

(** *** [initSession] *)

(** The result of the promise [initSession] awaits. RSA-OAEP and key
    generation are the platform's: a settlement carries what the awaited
    calls returned, [None] when one of them rejected.
    - [KeyPairSettled]: [generateKeyPair()];
    - [SessionKeySettled]: [generateAESKey()], [exportKey] and
      [encryptRSA], giving the wrapped session key;
    - [UnwrapSettled]: [decryptRSA], giving the raw key handed to
      [importAESKey]; [now] is the [Date.now()] of the welcome message. *)
Inductive Settlement :=
| KeyPairSettled (r : option RsaKeyPair)
| SessionKeySettled (r : option Bytes)
| UnwrapSettled (r : option Bytes) (now : Z).

(** The [catch] block. *)
Definition handshakeFailed (st : State) : Step :=
  {| next := setPending Settled
               (setHandshakeStatus (js "Handshake Failed") st);
     logged :=
       [{| callType := ANOMALY_DETECTED;
           callMetadata :=
             JObj [(js "error", JStr (js "RSA Key Exchange Failed"))];
           callSeverity := Some CRITICAL |}];
     scheduled := [] |}.

(** The effect run when the component mounts, up to its first [await]. *)
Definition initSession (st : State) : State :=
  match pending st with
  | NotStarted =>
      setPending AwaitKeyPair
        (setHandshakeStatus (js "Generating RSA Keypair...") st)
  | _ => st
  end.

Definition welcome (now : Z) : Message :=
  {| msg_id := js "sys-1";
     senderId := js "system";
     content :=
       js "Secure Hybrid Channel Established. RSA Handshake Verified.";
     encryptedContent := [];
     msg_timestamp := now;
     integrityHash := [];
     isSystem := true |}.

(** The tail of [initSession] once the session key is imported. *)
Definition handshakeDone (encryptedSessionKey : Bytes)
    (finalAesKey : CryptoService.CryptoKey) (now : Z) (st : State) : Step :=
  let fingerprint :=
    toUpperCase
      (substring0 16
         (CryptoService.hashData
            (CryptoService.bufferToBase64 encryptedSessionKey))) in
  {| next :=
       setPending Settled
         (setMessages (fun _ => [welcome now])
            (setHandshakeStatus (js "Secure")
               (setAesKey (Some finalAesKey)
                  (setSessionFingerprint fingerprint st))));
     logged :=
       [{| callType := KEY_EXCHANGE;
           callMetadata :=
             JObj [(js "mechanism", JStr (js "HYBRID RSA-2048/AES-256"));
                   (js "rsaKeyFingerprint", JStr fingerprint);
                   (js "status", JStr (js "SUCCESS"))];
           callSeverity := Some INFO |}];
     scheduled := [] |}.

(** [initSession] from one [await] to the next. *)
Definition resume (s : Settlement) (st : State) : Step :=
  match pending st, s with
  | AwaitKeyPair, KeyPairSettled (Some rsaPair) =>
      skip (setPending (AwaitSessionKey rsaPair)
              (setHandshakeStatus (js "Negotiating Session Key...") st))
  | AwaitSessionKey rsaPair, SessionKeySettled (Some encryptedSessionKey) =>
      skip (setPending (AwaitUnwrap rsaPair encryptedSessionKey)
              (setHandshakeStatus (js "Decrypting Session Key...") st))
  | AwaitUnwrap _ encryptedSessionKey,
    UnwrapSettled (Some decryptedSessionKeyRaw) now =>
      match CryptoService.importAESKey decryptedSessionKeyRaw with
      | Some finalAesKey => handshakeDone encryptedSessionKey finalAesKey now st
      | None => handshakeFailed st
      end
  | AwaitKeyPair, KeyPairSettled None
  | AwaitSessionKey _, SessionKeySettled None
  | AwaitUnwrap _ _, UnwrapSettled None _ => handshakeFailed st
  | _, _ => skip st
  end.

(** *** [handleSendMessage] *)

(** The keywords of the list that the lowercased text contains. *)
Definition detectKeywords (suspiciousKeywords : list JSString)
    (content : JSString) : list JSString :=
  filter (fun kw => includes (toLowerCase content) kw) suspiciousKeywords.

(** [handleSendMessage]. [suspiciousKeywords] and [currentUser] are the
    component's props; [ivBytes], [uuid] and [now] are the values of
    [crypto.getRandomValues], [crypto.randomUUID()] and [Date.now()]. *)
Definition handleSendMessage (suspiciousKeywords : list JSString)
    (currentUser : User) (ivBytes : Bytes) (uuid : JSString) (now : Z)
    (st : State) : Step :=
  if negb (truthy (trim (inputText st))) then skip st
  else
    match aesKey st with
    | None => skip st
    | Some key =>
        let content := inputText st in
        let detectedKeywords := detectKeywords suspiciousKeywords content in
        let dlp :=
          if (0 <? List.length detectedKeywords)%nat then
            [{| callType := SUSPICIOUS_KEYWORD;
                callMetadata :=
                  JObj [(js "keywords", JArr (map JStr detectedKeywords));
                        (js "length", JNum (length content))];
                callSeverity := Some WARNING |}]
          else [] in
        let enc := CryptoService.encryptMessage key ivBytes content in
        let integrityHash :=
          CryptoService.hashData (CryptoService.ciphertext enc) in
        let newMessage :=
          {| msg_id := uuid;
             senderId := user_id currentUser;
             content := content;
             encryptedContent :=
               CryptoService.iv enc ++ 58 :: CryptoService.ciphertext enc;
             msg_timestamp := now;
             integrityHash := integrityHash;
             isSystem := false |} in
        {| next :=
             setMessages (fun prev => prev ++ [newMessage])
               (setInputText [] st);
           logged :=
             dlp ++
             [{| callType := MESSAGE_SENT;
                 callMetadata :=
                   JObj [(js "msgId", JStr (msg_id newMessage));
                         (js "size",
                          JNum (length (CryptoService.ciphertext enc)));
                         (js "hash", JStr integrityHash)];
                 callSeverity := Some INFO |}];
           scheduled := [Echo 1500 key] |}
    end.

(** The keywords a call reports: the strings of the [keywords] array of
    a SUSPICIOUS_KEYWORD event. *)
Definition keywordsOf (c : LogCall) : list JSString :=
  if eventType_eqb (callType c) SUSPICIOUS_KEYWORD then
    match get (js "keywords") (callMetadata c) with
    | Some (JArr items) =>
        flat_map (fun v => match v with JStr s => [s] | _ => [] end) items
    | _ => []
    end
  else [].

Definition reportedKeywords (s : Step) : list JSString :=
  flat_map keywordsOf (logged s).

Definition responses : list JSString :=
  [js "I've received the documents. Verifying signatures now.";
   js "Understood. Ensure the logs are flushed after the operation.";
   js "We need to be careful with this channel.";
   js "Confirmed.";
   js "Can you send the financial report for Q3?"].

(** The callback of an [Echo] timer; [choice] is the value of
    [Math.floor(Math.random() * responses.length)]. *)
Definition echo (key : CryptoService.CryptoKey) (choice : nat)
    (ivBytes : Bytes) (uuid : JSString) (now : Z) (st : State) : Step :=
  let randomResponse := nth (choice mod 5) responses [] in
  let enc := CryptoService.encryptMessage key ivBytes randomResponse in
  let rHash := CryptoService.hashData (CryptoService.ciphertext enc) in
  let responseMsg :=
    {| msg_id := uuid;
       senderId := js "remote-user";
       content := randomResponse;
       encryptedContent :=
         CryptoService.iv enc ++ 58 :: CryptoService.ciphertext enc;
       msg_timestamp := now;
       integrityHash := rHash;
       isSystem := false |} in
  {| next := setMessages (fun prev => prev ++ [responseMsg]) st;
     logged :=
       [{| callType := MESSAGE_DECRYPTED;
           callMetadata :=
             JObj [(js "msgId", JStr (msg_id responseMsg));
                   (js "status", JStr (js "SUCCESS"))];
           callSeverity := Some INFO |}];
     scheduled := [] |}.

(** [handleReportIncident]; [confirmed] is the answer to the dialog. *)
Definition handleReportIncident (confirmed : bool) (st : State) : Step :=
  if confirmed then
    {| next := st;
       logged :=
         [{| callType := ANOMALY_DETECTED;
             callMetadata :=
               JObj [(js "type", JStr (js "USER_REPORTED_INCIDENT"));
                     (js "reason", JStr (js "User suspected compromise"));
                     (js "sessionFingerprint", JStr (sessionFingerprint st))];
             callSeverity := Some CRITICAL |}];
       scheduled := [] |}
  else skip st.

(** What can happen to the component between two renders. *)
Inductive Event :=
| Mount
| Settle (s : Settlement)
| Type_ (text : JSString)
| Submit (suspiciousKeywords : list JSString) (currentUser : User)
         (ivBytes : Bytes) (uuid : JSString) (now : Z)
| Fire (t : Timer) (choice : nat) (ivBytes : Bytes) (uuid : JSString)
       (now : Z)
| Report (confirmed : bool)
| Modal (shown : bool).

Definition handle (e : Event) (st : State) : Step :=
  match e with
  | Mount => skip (initSession st)
  | Settle s => resume s st
  | Type_ text => skip (setInputText text st)
  | Submit kws u ivBytes uuid now =>
      handleSendMessage kws u ivBytes uuid now st
  | Fire (Echo _ key) choice ivBytes uuid now =>
      echo key choice ivBytes uuid now st
  | Report confirmed => handleReportIncident confirmed st
  | Modal shown => skip (setShowKeyModal shown st)
  end.

(** The states the component goes through from its first render. *)
Inductive reachable : State -> Prop :=
| reachable_initial : reachable initial
| reachable_next st e : reachable st -> reachable (next (handle e st)).

End Chat.

(** ** [services/gemini.ts]: risk analysis *)

Module Gemini.
Import JS JSON Types Exn.

(** The system instruction, character for character. *)
Definition SYSTEM_INSTRUCTION : JSString := js "
You are a senior Cybersecurity Forensic Analyst for a high-security communication platform. 
Your job is to analyze system logs for anomalies and calculate a Risk Score based on a STRICT rubric.

CALCULATE THE RISK SCORE (0-100) USING THIS EXACT RUBRIC:
1. Start with a Base Score of 0.
2. Add +15 points for every 'SUSPICIOUS_KEYWORD' event found.
3. Add +25 points for every event with 'CRITICAL' severity.
4. Add +10 points for every event with 'WARNING' severity.
5. Add +20 points for every 'ANOMALY_DETECTED' event.
6. Add +50 points if any integrity hash mismatch is found in metadata.
7. Cap the maximum score at 100.

Output the result including a breakdown of the risk factors that contributed to the score.
".

(** The [config.responseSchema] literal ([Type.OBJECT] and the like are
    the strings of the SDK's enumeration). *)
Definition described (type description : string) : JSValue :=
  JObj [(js "type", JStr (js type)); (js "description", JStr (js description))].

Definition responseSchema : JSValue :=
  JObj
    [(js "type", JStr (js "OBJECT"));
     (js "properties",
      JObj
        [(js "score",
          described "NUMBER"
            "Calculated risk score from 0 to 100 based on the rubric.");
         (js "summary",
          described "STRING" "A brief executive summary of the findings.");
         (js "anomalies",
          JObj [(js "type", JStr (js "ARRAY"));
                (js "items", JObj [(js "type", JStr (js "STRING"))]);
                (js "description",
                 JStr (js "List of specific suspicious events found."))]);
         (js "riskFactors",
          JObj
            [(js "type", JStr (js "ARRAY"));
             (js "items",
              JObj
                [(js "type", JStr (js "OBJECT"));
                 (js "properties",
                  JObj
                    [(js "factor",
                      described "STRING"
                        "Name of the risk factor (e.g., 'Suspicious Keywords')");
                     (js "points",
                      described "NUMBER"
                        "Total points contributed by this factor");
                     (js "count",
                      described "NUMBER"
                        "Number of events matching this factor")])]);
             (js "description",
              JStr (js "Breakdown of what contributed to the score."))])]);
     (js "required",
      JArr [JStr (js "score"); JStr (js "summary"); JStr (js "anomalies");
            JStr (js "riskFactors")])].

(** The argument of [ai.models.generateContent]. *)
Record Request := {
  model : JSString;
  contents : JSString;
  systemInstruction : JSString;
  responseMimeType : JSString;
  schema : JSValue
}.

(** What comes back from the generative model: the promise rejects, or it
    resolves to a response whose [text] is [undefined] ([None]) or a
    string. [JSON.parse] is the platform's; [json] is its result on that
    text, [None] when it throws. *)
Inductive Reply :=
| Rejected
| Fulfilled (text : option JSString) (json : option JSValue).

(** The external collaborator: the reply it gives to a request on one
    run. *)
Definition Model := Request -> Reply.

(** One element of [logSummary]: only metadata is sent, and eight
    characters of the hash. *)
Definition summarize (l : ForensicLog) : result JSValue :=
  time <- orThrow RangeError (Date.toISOString (timestamp l)) ;;
  Ok (JObj [(js "time", JStr time);
            (js "type", JStr (eventTypeName (eventType l)));
            (js "severity", JStr (severityName (severity l)));
            (js "metadata", metadata l);
            (js "hash", JStr (substring0 8 (hash l) ++ js "..."))]).

(** [logs.map(...)], stopping at the first element that throws. *)
Fixpoint logSummary (logs : list ForensicLog) : result (list JSValue) :=
  match logs with
  | [] => Ok []
  | l :: rest =>
      x <- summarize l ;;
      xs <- logSummary rest ;;
      Ok (x :: xs)
  end.

Definition requestFor (summary : list JSValue) : Request :=
  {| model := js "gemini-2.5-flash";
     contents := stringify (JArr summary);
     systemInstruction := SYSTEM_INSTRUCTION;
     responseMimeType := js "application/json";
     schema := responseSchema |}.

(** What a run leaves behind: the value the promise resolves to, the
    requests sent to the model and the exceptions written to the
    console. *)
Record Run := {
  value : JSValue;
  sent : list Request;
  console : list Exception
}.

(** The value returned from the [catch] block. *)
Definition fallback : JSValue :=
  JObj [(js "score", JNum 0);
        (js "summary",
         JStr (js "Automated analysis failed. Manual review required."));
        (js "anomalies", JArr [JStr (js "Analysis service unavailable")]);
        (js "riskFactors", JArr [])].

(** The body of the [try] block once the request is built. *)
Definition readReply (r : Reply) : result JSValue :=
  match r with
  | Rejected => Throw ServiceError
  | Fulfilled (Some text) json =>
      if truthy text then orThrow SyntaxError json else Throw EmptyResponse
  | Fulfilled None _ => Throw EmptyResponse
  end.

(** The collaborator is unavailable or its output is malformed: the call
    is rejected, the response has no text or an empty one, or the text is
    not JSON. *)
Definition unusable (r : Reply) : bool :=
  match r with
  | Rejected => true
  | Fulfilled (Some text) (Some _) => negb (truthy text)
  | Fulfilled _ _ => true
  end.

Definition caught (requests : list Request) (e : Exception) : Run :=
  {| value := fallback; sent := requests; console := [e] |}.

(** [analyzeLogs] *)
Definition analyzeLogs (ai : Model) (logs : list ForensicLog) : Run :=
  match logSummary logs with
  | Throw e => caught [] e
  | Ok summary =>
      let request := requestFor summary in
      match readReply (ai request) with
      | Ok v => {| value := v; sent := [request]; console := [] |}
      | Throw e => caught [request] e
      end
  end.

(** The fields of an [AnalysisResult]. *)
Definition score (v : JSValue) : option JSValue := get (js "score") v.
Definition summary (v : JSValue) : option JSValue := get (js "summary") v.
Definition anomalies (v : JSValue) : option JSValue := get (js "anomalies") v.
Definition riskFactors (v : JSValue) : option JSValue :=
  get (js "riskFactors") v.

End Gemini.

(** ** [components/Dashboard.tsx] *)

Module Dashboard.
Import JS JSON Types.

Inductive Tab := rawLogs | analytics.
Inductive IntegrityStatus := verified | unknown.

(** The component's prop [logs] and its state. *)
Record State := {
  logs : list ForensicLog;
  analysis : option JSValue;
  analyzing : bool;
  activeTab : Tab;
  integrityStatus : IntegrityStatus
}.

Definition initial (logs : list ForensicLog) : State :=
  {| logs := logs; analysis := None; analyzing := false;
     activeTab := analytics; integrityStatus := unknown |}.

(** [runAnalysis] *)
Definition runAnalysis (ai : Gemini.Model) (st : State) : State :=
  let result := Gemini.value (Gemini.analyzeLogs ai (logs st)) in
  {| logs := logs st; analysis := Some result; analyzing := false;
     activeTab := activeTab st; integrityStatus := integrityStatus st |}.

(** [verifyIntegrity]: "In a real app, this would recalculate hashes of
    the entire chain. Here we simulate the verification of the
    tamper-evident log chain". *)
Definition verifyIntegrity (st : State) : State :=
  {| logs := logs st; analysis := analysis st; analyzing := analyzing st;
     activeTab := activeTab st; integrityStatus := verified |}.

End Dashboard.

(** ** The specification's reading of two operations

    These two definitions follow the words of the specification, not the
    sources; they are what the sources are compared with. *)

Module Spec.
Import JS JSON Types.

(** "recomputes each entry's hash from its stored fields and compares to
    the stored hash for every entry; returns true iff all match". *)
Definition verifyChain (chain : list ForensicLog) : bool :=
  forallb (fun e => str_eqb (App.recomputeHash e) (hash e)) chain.

Definition countType (t : LogEventType) (logs : list ForensicLog) : Z :=
  Z.of_nat (List.length (filter (fun l => eventType_eqb (eventType l) t) logs)).

Definition countSeverity (s : Severity) (logs : list ForensicLog) : Z :=
  Z.of_nat (List.length (filter (fun l => severity_eqb (severity l) s) logs)).

(** The rubric (the same one the system instruction gives the model):
    base 0, +15 per SUSPICIOUS_KEYWORD entry, +25 per CRITICAL entry, +10
    per WARNING entry, +20 per ANOMALY_DETECTED entry, +50 once when a
    hash mismatch is found in metadata, capped at 100. [mismatch] says
    whether one is found. *)
Definition rubricScore (mismatch : bool) (logs : list ForensicLog) : Z :=
  Z.min 100
    (0 + 15 * countType SUSPICIOUS_KEYWORD logs
       + 25 * countSeverity CRITICAL logs
       + 10 * countSeverity WARNING logs
       + 20 * countType ANOMALY_DETECTED logs
       + (if mismatch then 50 else 0)).

End Spec.

(** ** Sample data *)

Module Sample.
Import JS JSON Types.

Definition agent : User :=
  {| user_id := js "user-001"; username := js "agent.smith"; role := USER;
     avatar := js "https://picsum.photos/id/1005/40/40" |}.

Definition uuid1 : JSString := js "3f2b8c1e-5d4a-4e6f-9a7b-0c1d2e3f4a5b".
Definition uuid2 : JSString := js "9a8b7c6d-1e2f-4a3b-8c4d-5e6f7a8b9c0d".

(** A session in which the clock does not advance while a hash is
    awaited: a login, then one removed keyword. *)
Definition untouched : list ForensicLog :=
  App.logs
    (App.removeKeyword 1700000002000 1700000002000 uuid2 (js "bribe")
       (App.handleLogin 1700000001000 1700000001000 uuid1 agent App.initial)).

(** An entry with one field replaced and the stored hash kept. *)
Definition withEventType (t : LogEventType) (e : ForensicLog) : ForensicLog :=
  {| id := id e; timestamp := timestamp e; userId := userId e;
     eventType := t; metadata := metadata e; severity := severity e;
     hash := hash e |}.

Definition withSeverityAndId (s : Severity) (i : JSString) (e : ForensicLog)
    : ForensicLog :=
  {| id := i; timestamp := timestamp e; userId := userId e;
     eventType := eventType e; metadata := metadata e; severity := s;
     hash := hash e |}.

(** The same chain after its second entry was relabelled. *)
Definition tampered : list ForensicLog :=
  match untouched with
  | [e1; e2] => [e1; withEventType LOGIN e2]
  | other => other
  end.

(** A login during which the clock advances by one millisecond while the
    hash is awaited. *)
Definition slowLogin : App.State :=
  App.handleLogin 1700000000999 1700000001000 uuid1 agent App.initial.

(** The chat while the handshake awaits its key pair, with a message
    typed in. *)
Definition typing : Chat.State :=
  Chat.next
    (Chat.handle (Chat.Type_ (js "hello"))
       (Chat.next (Chat.handle Chat.Mount Chat.initial))).

(** The chat after a handshake that went through, with a message typed
    in. *)
Definition secure : Chat.State :=
  Chat.next
    (Chat.handle (Chat.Type_ (js "this is CONFIDENTIAL info"))
       (Chat.next
          (Chat.handle
             (Chat.Settle
                (Chat.UnwrapSettled (Some (repeat 7 32)) 1700000000500))
             (Chat.next
                (Chat.handle
                   (Chat.Settle (Chat.SessionKeySettled (Some (repeat 9 256))))
                   (Chat.next
                      (Chat.handle
                         (Chat.Settle
                            (Chat.KeyPairSettled
                               (Some {| Chat.publicKey := [1];
                                        Chat.privateKey := [2] |})))
                         (Chat.next (Chat.handle Chat.Mount Chat.initial))))))))).

(** The log of the specification's rubric example: two SUSPICIOUS_KEYWORD
    entries, one CRITICAL entry, three WARNING entries, no ANOMALY_DETECTED
    entry and no metadata about a hash mismatch. *)
Definition rubricExample : list ForensicLog :=
  let logged :=
    [(LOGIN, JObj [(js "method", JStr (js "PASSWORD"))], INFO);
     (SUSPICIOUS_KEYWORD,
      JObj [(js "keywords", JArr [JStr (js "leak")]); (js "length", JNum 12)],
      WARNING);
     (SUSPICIOUS_KEYWORD,
      JObj [(js "keywords", JArr [JStr (js "bribe"); JStr (js "hack")]);
            (js "length", JNum 40)],
      WARNING);
     (MESSAGE_DECRYPTED, JObj [(js "status", JStr (js "RETRY"))], WARNING);
     (KEY_EXCHANGE, JObj [(js "status", JStr (js "EXPIRED"))], CRITICAL);
     (MESSAGE_SENT, JObj [(js "size", JNum 64)], INFO)] in
  App.logs
    (fold_left
       (fun st '(type, meta, sev) =>
          let now := 1700000000000 + 1000 * Z.of_nat (List.length (App.logs st)) in
          App.handleLogEvent now now uuid1 type meta (Some sev) None st)
       logged
       (App.handleLogin 1699999999000 1699999999000 uuid2 agent App.initial)).

(** The generative model on a run in which the service cannot be
    reached. *)
Definition down : Gemini.Model := fun _ => Gemini.Rejected.

(** The generative model on a run in which it answers every request with
    the same assessment. *)
Definition assessment : JSValue :=
  JObj [(js "score", JNum 40);
        (js "summary", JStr (js "Two keyword alerts; no breach indicated."));
        (js "anomalies", JArr [JStr (js "Keyword alerts in quick succession")]);
        (js "riskFactors",
         JArr [JObj [(js "factor", JStr (js "Suspicious Keywords"));
                     (js "points", JNum 30); (js "count", JNum 2)];
               JObj [(js "factor", JStr (js "Warning Severity"));
                     (js "points", JNum 10); (js "count", JNum 1)]])].

Definition lenient : Gemini.Model :=
  fun _ => Gemini.Fulfilled (Some (stringify assessment)) (Some assessment).

(** The generative model on a run in which it answers with text that is
    not JSON. *)
Definition garbled : Gemini.Model :=
  fun _ => Gemini.Fulfilled (Some (js "Risk is moderate.")) None.

End Sample.

(** ** [components/Login.tsx] *)

Module Login.
Import JS Types.

Inductive Role := agent | user2.

Record State := {
  selectedRole : Role;
  password : JSString;
  loading : bool;
  error : JSString
}.

Definition initial : State :=
  {| selectedRole := agent; password := []; loading := false; error := [] |}.

(** The two identities of the login screen. *)
Definition identity (r : Role) : User :=
  match r with
  | agent =>
      {| user_id := js "user-001"; username := js "agent.smith";
         role := USER; avatar := js "https://picsum.photos/id/1005/40/40" |}
  | user2 =>
      {| user_id := js "user-002"; username := js "user2.agent";
         role := USER; avatar := js "https://picsum.photos/id/1025/40/40" |}
  end.

(** [handleLogin], up to [setTimeout]. *)
Definition handleLogin (st : State) : State :=
  {| selectedRole := selectedRole st; password := password st;
     loading := true; error := [] |}.

(** The callback [handleLogin] hands to [setTimeout]: the state it leaves
    and the user it hands to [onLogin], if it does. *)
Definition authenticate (st : State) : State * option User :=
  if str_eqb (password st) (js "password") then
    (st, Some (identity (selectedRole st)))
  else
    ({| selectedRole := selectedRole st; password := password st;
        loading := false; error := js "Invalid credentials" |}, None).

End Login.

(** ** The application as its user drives it: [App.tsx] with the login
       screen, the settings screen and the chat's log calls *)

Module Session.
Import JS JSON Types.

(** [setActiveView] *)
Definition setActiveView (v : App.View) (st : App.State) : App.State :=
  {| App.user := App.user st; App.activeView := v; App.logs := App.logs st;
     App.suspiciousKeywords := App.suspiciousKeywords st;
     App.isSidebarExpanded := App.isSidebarExpanded st |}.

(** What the user, or the chat, does. Each carries the values the handler
    draws: the two readings of the clock and the identifier.
    - [SubmitLogin]: the login form is submitted and its timer fires;
    - [AddKeyword]: the form of the settings screen is submitted;
    - [RemoveKeyword]: the button of the keyword at [index] is clicked;
    - [Log]: the chat calls the [onLogEvent] it holds, the
      [handleLogEvent] of some render of the application: [closureUser]
      is the [user] of that render (a handshake or a reply that ends after
      a logout still holds the user of the session it began in). *)
Inductive Event :=
| SubmitLogin (form : Login.State) (now1 now2 : Z) (uuid : JSString)
| Logout (now1 now2 : Z) (uuid : JSString)
| Navigate (v : App.View)
| AddKeyword (newKeyword : JSString) (now1 now2 : Z) (uuid : JSString)
| RemoveKeyword (index : nat) (now1 now2 : Z) (uuid : JSString)
| Log (closureUser : option User) (c : Chat.LogCall) (now1 now2 : Z)
      (uuid : JSString).

(** The login screen is rendered while no user is set, the rest of the
    application while one is, and the settings screen while it is the
    active view. An event is taken together with the append of its log
    entry: [handleLogEvent] appends with a functional update once the hash
    is there, so the entries of calls that overlap are appended in the
    order their hashes settle, the order of the events here. *)
Definition handle (e : Event) (st : App.State) : App.State :=
  match e, App.user st with
  | SubmitLogin form now1 now2 uuid, None =>
      match snd (Login.authenticate (Login.handleLogin form)) with
      | Some loggedInUser => App.handleLogin now1 now2 uuid loggedInUser st
      | None => st
      end
  | Logout now1 now2 uuid, Some _ => App.handleLogout now1 now2 uuid st
  | Navigate v, Some _ => setActiveView v st
  | AddKeyword newKeyword now1 now2 uuid, Some _ =>
      match App.activeView st,
            fst (Settings.handleAdd (App.suspiciousKeywords st) newKeyword)
      with
      | App.settings, Some keyword => App.addKeyword now1 now2 uuid keyword st
      | _, _ => st
      end
  | RemoveKeyword index now1 now2 uuid, Some _ =>
      match App.activeView st, nth_error (App.suspiciousKeywords st) index
      with
      | App.settings, Some word => App.removeKeyword now1 now2 uuid word st
      | _, _ => st
      end
  | Log closureUser c now1 now2 uuid, _ =>
      App.setLogs
        (fun prev =>
           prev ++ [App.newLog closureUser now1 now2 uuid (Chat.callType c)
                      (Chat.callMetadata c) (Chat.callSeverity c) None])
        st
  | _, _ => st
  end.

(** The states the application goes through from its first render,
    whatever the events carry. *)
Inductive reached : App.State -> Prop :=
| reached_initial : reached App.initial
| reached_next st e : reached st -> reached (handle e st).

(** The text typed into the keyword form is a string, a sequence of code
    units. *)
Definition typed (e : Event) : Prop :=
  match e with
  | AddKeyword newKeyword _ _ _ => Forall is_code_unit newKeyword
  | _ => True
  end.

(** The same states, the text of the keyword form being a string: what
    holds of the case of the keywords needs it, the lowercase mapping
    being one of code points. *)
Inductive reachable : App.State -> Prop :=
| reachable_initial : reachable App.initial
| reachable_next st e : reachable st -> typed e -> reachable (handle e st).

(** The clock does not advance between the two readings of the event. *)
Definition steady (e : Event) : Prop :=
  match e with
  | SubmitLogin _ now1 now2 _ | Logout now1 now2 _
  | AddKeyword _ now1 now2 _ | RemoveKeyword _ now1 now2 _
  | Log _ _ now1 now2 _ => now1 = now2
  | Navigate _ => True
  end.

(** The states reached while the clock never advances during a hash. *)
Inductive reachableSteady : App.State -> Prop :=
| steady_initial : reachableSteady App.initial
| steady_next st e :
    reachableSteady st -> steady e -> reachableSteady (handle e st).

End Session.

(** ** [components/Dashboard.tsx]: what is rendered from the log *)

Module DashboardView.
Import JS JSON Types.

(** "Total Events" *)
Definition totalEvents (logs : list ForensicLog) : nat := List.length logs.

(** "Encryption Ops":
    [logs.filter(l => l.eventType.includes('MESSAGE')).length] *)
Definition encryptionOps (logs : list ForensicLog) : nat :=
  List.length
    (filter (fun l => includes (eventTypeName (eventType l)) (js "MESSAGE"))
            logs).

(** "Anomalies": the entries of severity WARNING or CRITICAL. *)
Definition anomalies (logs : list ForensicLog) : nat :=
  List.length
    (filter (fun l => severity_eqb (severity l) WARNING
                      || severity_eqb (severity l) CRITICAL)
            logs).

(** A bar of the activity chart. *)
Record Bar := {
  time : JSString;
  count : Z
}.

(** One step of the [reduce]: the first bar with this time label gets one
    more, and when there is none a bar with count 1 is pushed. *)
Fixpoint bump (t : JSString) (acc : list Bar) : list Bar :=
  match acc with
  | [] => [{| time := t; count := 1 |}]
  | item :: rest =>
      if str_eqb (time item) t
      then {| time := time item; count := count item + 1 |} :: rest
      else item :: bump t rest
  end.

(** [a.slice(-n)]: the last [n] elements. *)
Definition sliceLast {A} (n : nat) (a : list A) : list A :=
  skipn (List.length a - n) a.

Section Chart.
(** The label of a time: [toLocaleTimeString] with two-digit hours and
    minutes, in the locale and the time zone of the browser. *)
Variable label : Z -> JSString.

Definition grouped (logs : list ForensicLog) : list Bar :=
  fold_left (fun acc log => bump (label (timestamp log)) acc) logs [].

(** [chartData] *)
Definition chartData (logs : list ForensicLog) : list Bar :=
  sliceLast 10 (grouped logs).

End Chart.

End DashboardView.

(** ** [components/Chat.tsx]: what is rendered from a message, and the
       conversation over time *)

Module ChatView.
Import JS Types.

(** [s.split(sep)] for a separator of one code unit. *)
Fixpoint split (sep : Z) (s : JSString) : list JSString :=
  match s with
  | [] => [[]]
  | c :: rest =>
      if c =? sep then [] :: split sep rest
      else
        match split sep rest with
        | segment :: segments => (c :: segment) :: segments
        | [] => [[c]]
        end
  end.

Definition isLowerHex (c : Z) : bool :=
  ((48 <=? c) && (c <=? 57)) || ((97 <=? c) && (c <=? 102)).

Definition isUpperHex (c : Z) : bool :=
  ((48 <=? c) && (c <=? 57)) || ((65 <=? c) && (c <=? 70)).

End ChatView.

Module ChatRun.
Import JS Types.

(** The values an event carries are of their types: a text is a string and
    a drawn nonce is a byte buffer. *)
Definition typed (e : Chat.Event) : Prop :=
  match e with
  | Chat.Type_ text => Forall is_code_unit text
  | Chat.Submit _ _ ivBytes _ _ => Forall is_byte ivBytes
  | Chat.Fire _ _ ivBytes _ _ => Forall is_byte ivBytes
  | _ => True
  end.

Definition isFire (e : Chat.Event) : bool :=
  match e with
  | Chat.Fire _ _ _ _ _ => true
  | _ => false
  end.

(** The states the chat goes through from its first render, each with the
    timers that are set and have not fired. A timer fires only if it was
    set, and then it is gone. *)
Inductive reachable : Chat.State -> list Chat.Timer -> Prop :=
| reachable_initial : reachable Chat.initial []
| reachable_next st timers e :
    reachable st timers -> isFire e = false -> typed e ->
    reachable (Chat.next (Chat.handle e st))
              (timers ++ Chat.scheduled (Chat.handle e st))
| reachable_fire st before after t choice ivBytes uuid now :
    reachable st (before ++ t :: after) -> Forall is_byte ivBytes ->
    reachable (Chat.next (Chat.handle (Chat.Fire t choice ivBytes uuid now) st))
              (before ++ after).

(** The handshake from the first render to its end: the three awaited
    results in order. A result that comes after [initSession] has returned
    is not awaited by anything. *)
Definition handshake (keyPair : option Chat.RsaKeyPair)
    (wrapped unwrapped : option Bytes) (now : Z) : list Chat.Step :=
  let s0 := Chat.handle Chat.Mount Chat.initial in
  let s1 := Chat.handle (Chat.Settle (Chat.KeyPairSettled keyPair))
              (Chat.next s0) in
  let s2 := Chat.handle (Chat.Settle (Chat.SessionKeySettled wrapped))
              (Chat.next s1) in
  let s3 := Chat.handle (Chat.Settle (Chat.UnwrapSettled unwrapped now))
              (Chat.next s2) in
  [s0; s1; s2; s3].

End ChatRun.


(** ** Sample runs of the chat *)

Module Transcript.
Import JS Types.

(** The handshake of [Sample.secure] up to its last await. *)
Definition unwrapping : Chat.State :=
  Chat.next
    (Chat.handle
       (Chat.Settle (Chat.SessionKeySettled (Some (repeat 9 256))))
       (Chat.next
          (Chat.handle
             (Chat.Settle
                (Chat.KeyPairSettled
                   (Some {| Chat.publicKey := [1]; Chat.privateKey := [2] |})))
             (Chat.next (Chat.handle Chat.Mount Chat.initial))))).

(** The typed message of [Sample.secure] is sent. *)
Definition sent : Chat.Step :=
  Chat.handle
    (Chat.Submit (App.suspiciousKeywords App.initial) Sample.agent
       (repeat 1 12) Sample.uuid1 1700000001000)
    Sample.secure.

(** The reply to it arrives. *)
Definition replied : Chat.Step :=
  Chat.handle
    (Chat.Fire (Chat.Echo 1500 (repeat 7 32)) 3 (repeat 2 12) Sample.uuid2
       1700000002500)
    (Chat.next sent).

End Transcript.

(** ** Sample runs of the application *)

Module Visit.
Import JS Types.

(** The login form filled in by the first agent. *)
Definition form : Login.State :=
  {| Login.selectedRole := Login.agent; Login.password := js "password";
     Login.loading := false; Login.error := [] |}.

(** The same form with the password in capitals. *)
Definition mistyped : Login.State :=
  {| Login.selectedRole := Login.agent; Login.password := js "PASSWORD";
     Login.loading := false; Login.error := [] |}.

Definition loggedIn : App.State :=
  Session.handle
    (Session.SubmitLogin form 1700000001000 1700000001000 Sample.uuid1)
    App.initial.

Definition configuring : App.State :=
  Session.handle (Session.Navigate App.settings) loggedIn.

(** The fourth keyword, [bribe], is removed. *)
Definition removed : App.State :=
  Session.handle
    (Session.RemoveKeyword 3 1700000002000 1700000002000 Sample.uuid2)
    configuring.

(** A time label: hours and minutes of the day in UTC, two digits each. *)
Definition minuteLabel (t : Z) : JSString :=
  Date.pad 2 ((t / 3600000) mod 24) ++ 58 :: Date.pad 2 ((t / 60000) mod 60).

End Visit.
(** * Properties *)

Import JS.

(** ** The platform functions on published test vectors *)

Example sha256_vectors :
  CryptoService.hashData (js "") =
    js "e3b0c44298fc1c149afbf4c8996fb92427ae41e4649b934ca495991b7852b855"
  /\ CryptoService.hashData (js "abc") =
    js "ba7816bf8f01cfea414140de5dae2223b00361a396177a9cb410ff61f20015ad"
  /\ CryptoService.hashData (repeat 97 55%nat) =
    js "9f4390f8d30c2dd92ec9f095b65e2b9ae9b0a925a5258e241c9f1e910f734318"
  /\ CryptoService.hashData (repeat 97 56%nat) =
    js "b35439a4ac6f0948b6d6f9e3c6af0f5f590ce20f1bde7090ef7970686ec6738a"
  /\ CryptoService.hashData (repeat 97 120%nat) =
    js "2f3d335432c70b580af0e8e1b3674a7c020d683aa5f73aaaedfdc55af904c21c".
Proof. vm_compute. repeat split. Qed.

(** FIPS 197, appendix C: the example vectors of AES-128 and AES-256. *)
Example aes_vectors :
  AES.Cipher (AES.KeyExpansion (map Z.of_nat (seq 0 16)))
    [0; 17; 34; 51; 68; 85; 102; 119; 136; 153; 170; 187; 204; 221; 238; 255] =
    [105; 196; 224; 216; 106; 123; 4; 48; 216; 205; 183; 128; 112; 180; 197;
     90]
  /\ AES.Cipher (AES.KeyExpansion (map Z.of_nat (seq 0 32)))
    [0; 17; 34; 51; 68; 85; 102; 119; 136; 153; 170; 187; 204; 221; 238; 255] =
    [142; 162; 183; 202; 81; 103; 69; 191; 234; 252; 73; 144; 75; 73; 96; 137].
Proof. vm_compute. split; reflexivity. Qed.

(** Test cases 13, 14 and 15 of the GCM specification (256-bit keys). *)
Example gcm_vectors :
  AES.gcm_encrypt (repeat 0 32%nat) (repeat 0 12%nat) [] =
    [83; 15; 138; 251; 199; 69; 54; 185; 169; 99; 180; 241; 196; 203; 115;
     139]
  /\ AES.gcm_encrypt (repeat 0 32%nat) (repeat 0 12%nat) (repeat 0 16%nat) =
    [206; 167; 64; 61; 77; 96; 107; 110; 7; 78; 197; 211; 186; 243; 157; 24;
     208; 209; 200; 167; 153; 153; 107; 240; 38; 91; 152; 181; 212; 138;
     185; 25]
  /\ AES.gcm_encrypt
       [254; 255; 233; 146; 134; 101; 115; 28; 109; 106; 143; 148; 103; 48; 131;
     8; 254; 255; 233; 146; 134; 101; 115; 28; 109; 106; 143; 148; 103;
     48; 131; 8]
       [202; 254; 186; 190; 250; 206; 219; 173; 222; 202; 248; 136]
       [217; 49; 50; 37; 248; 132; 6; 229; 165; 89; 9; 197; 175; 245; 38; 154;
     134; 167; 169; 83; 21; 52; 247; 218; 46; 76; 48; 61; 138; 49; 138;
     114; 28; 60; 12; 149; 149; 104; 9; 83; 47; 207; 14; 36; 73; 166; 181;
     37; 177; 106; 237; 245; 170; 13; 230; 87; 186; 99; 123; 57; 26; 175;
     210; 85] =
    [82; 45; 193; 240; 153; 86; 125; 7; 244; 127; 55; 163; 42; 132; 66; 125;
     100; 58; 140; 220; 191; 229; 192; 201; 117; 152; 162; 189; 37; 85;
     209; 170; 140; 176; 142; 72; 89; 13; 187; 61; 167; 176; 139; 16; 86;
     130; 136; 56; 197; 246; 30; 99; 147; 186; 122; 10; 188; 201; 246; 98;
     137; 128; 21; 173; 176; 148; 218; 197; 217; 52; 113; 189; 236; 26;
     80; 34; 112; 227; 204; 108].
Proof. vm_compute. repeat split. Qed.

(** A tag that does not verify is a rejection. *)
Example gcm_tampered :
  AES.gcm_decrypt (repeat 0 32%nat) (repeat 0 12%nat)
    [206; 167; 64; 61; 77; 96; 107; 110; 7; 78; 197; 211; 186; 243; 157; 24;
     208; 209; 200; 167; 153; 153; 107; 240; 38; 91; 152; 181; 212; 138;
     185; 25] = Some (repeat 0 16%nat)
  /\ AES.gcm_decrypt (repeat 0 32%nat) (repeat 0 12%nat)
    [206; 167; 64; 61; 77; 96; 107; 110; 7; 78; 197; 211; 186; 243; 157; 24;
     208; 209; 200; 167; 153; 153; 107; 240; 38; 91; 152; 181; 212; 138;
     185; 24] = None.
Proof. vm_compute. split; reflexivity. Qed.

Example base64_examples :
  Codec.btoa (js "Man") = js "TWFu"
  /\ Codec.btoa (js "Ma") = js "TWE="
  /\ Codec.btoa (js "M") = js "TQ=="
  /\ Codec.atob (js "TWE=") = Some (js "Ma")
  /\ Codec.atob (js "TQ") = Some (js "M")
  /\ Codec.atob (js "TQ=") = None
  /\ Codec.atob (js " T W F u ") = Some (js "Man")
  /\ Codec.atob (js "TWFuT") = None.
Proof. vm_compute. repeat split. Qed.

Example utf8_examples :
  Codec.TextEncoder_encode [0xD83D; 0xDE00; 0xD800; 0xE9] =
    [0xF0; 0x9F; 0x98; 0x80; 0xEF; 0xBF; 0xBD; 0xC3; 0xA9]
  /\ Codec.TextDecoder_decode
       [0xF0; 0x9F; 0x98; 0x80; 0xC3; 0xA9; 0xE0; 0x80; 0x41; 0xC3] =
     [0xD83D; 0xDE00; 0xE9; 0xFFFD; 0xFFFD; 0x41; 0xFFFD].
Proof. vm_compute. split; reflexivity. Qed.

Example toISOString_examples :
  Date.toISOString 0 = Some (js "1970-01-01T00:00:00.000Z")
  /\ Date.toISOString 951782400000 = Some (js "2000-02-29T00:00:00.000Z")
  /\ Date.toISOString 1700000000123 = Some (js "2023-11-14T22:13:20.123Z")
  /\ Date.toISOString (-1) = Some (js "1969-12-31T23:59:59.999Z")
  /\ Date.toISOString 8640000000000000 =
     Some (js "+275760-09-13T00:00:00.000Z")
  /\ Date.toISOString (-8640000000000000) =
     Some (js "-271821-04-20T00:00:00.000Z")
  /\ Date.toISOString 8640000000000001 = None.
Proof. vm_compute. repeat split. Qed.

(** ** Strings *)

Lemma str_eqb_refl (s : JSString) : str_eqb s s = true.
Proof.
  induction s as [|c s IH]; simpl; [reflexivity|].
  now rewrite Z.eqb_refl, IH.
Qed.

Lemma str_eqb_eq (s t : JSString) : str_eqb s t = true <-> s = t.
Proof.
  split; [|intros ->; apply str_eqb_refl].
  revert t; induction s as [|c s IH]; intros [|d t]; simpl;
    try discriminate; [reflexivity|].
  intros H. apply andb_prop in H as [Hc Hs].
  apply Z.eqb_eq in Hc. now rewrite Hc, (IH t Hs).
Qed.

Lemma str_eqb_neq (s t : JSString) : str_eqb s t = false <-> s <> t.
Proof.
  split.
  - intros H E. apply str_eqb_eq in E. congruence.
  - intros H. destruct (str_eqb s t) eqn:E; [|reflexivity].
    apply str_eqb_eq in E. contradiction.
Qed.

(** ** The forensic log *)

Section ForensicLogFacts.
Import JSON Types.

Lemma handleLogEvent_appends now1 now2 uuid type meta sev o st :
  App.logs (App.handleLogEvent now1 now2 uuid type meta sev o st) =
  App.logs st ++ [App.newLog (App.user st) now1 now2 uuid type meta sev o].
Proof. reflexivity. Qed.

(** When the two clock reads agree, the stored hash is the hash of the
    stored fields. *)
Lemma newLog_hash_of_stored_fields u now uuid type meta sev o :
  App.recomputeHash (App.newLog u now now uuid type meta sev o) =
  hash (App.newLog u now now uuid type meta sev o).
Proof. reflexivity. Qed.

(** C4, at the failing input. [handleLogEvent] hashes a payload holding the
    first reading of the clock and stores the second: after a login during
    which the clock advances, the chain holds one entry whose stored hash is
    the hash of the payload of the earlier instant, and the hash of the
    fields it stores is another value. *)
Theorem handleLogEvent_hashes_an_earlier_instant :
  exists e,
    App.logs Sample.slowLogin = [e]
    /\ timestamp e = 1700000001000
    /\ hash e =
       CryptoService.hashData
         (stringify
            (App.payloadOf (eventType e) (metadata e) 1700000000999
               (userId e)))
    /\ App.recomputeHash e <> hash e.
Proof.
  eexists. split; [reflexivity|]. split; [reflexivity|].
  split; [reflexivity|].
  apply str_eqb_neq. vm_compute. reflexivity.
Qed.

(** C10. The hash [handleLogEvent] stores is computed from the event
    type, the metadata, the user id and the first clock reading only: two
    appends that agree on these store the same hash, whatever their
    severities and ids (and whatever the second clock readings); and
    replacing the severity and the id of a stored entry changes neither the
    hash recomputed from it nor the verdict of a verification by
    recomputation. *)
Theorem log_hash_ignores_severity_and_id :
  (forall st now1 now2 now2' uuid uuid' type meta sev sev' o,
     exists e e',
       App.logs
         (App.handleLogEvent now1 now2' uuid' type meta (Some sev') o
            (App.handleLogEvent now1 now2 uuid type meta (Some sev) o st)) =
         App.logs st ++ [e; e']
       /\ severity e = sev /\ severity e' = sev'
       /\ id e = uuid /\ id e' = uuid'
       /\ hash e = hash e')
  /\ (forall e s i,
        App.recomputeHash (Sample.withSeverityAndId s i e) =
        App.recomputeHash e)
  /\ (forall before after e s i,
        Spec.verifyChain (before ++ Sample.withSeverityAndId s i e :: after) =
        Spec.verifyChain (before ++ e :: after)).
Proof.
  split; [|split].
  - intros. do 2 eexists. split.
    + rewrite !handleLogEvent_appends, <- app_assoc. reflexivity.
    + repeat split.
  - reflexivity.
  - intros. unfold Spec.verifyChain. rewrite !forallb_app. reflexivity.
Qed.

End ForensicLogFacts.

(** ** Chain verification *)

Section ChainVerification.
Import Types.

(** C1, as stated, fails: on a chain whose second entry was relabelled
    without touching its hash, recomputation finds the mismatch, and
    [verifyIntegrity] reports the chain verified all the same. *)
Lemma verifyIntegrity_accepts_tampered_chain :
  Spec.verifyChain Sample.untouched = true
  /\ Spec.verifyChain Sample.tampered = false
  /\ Dashboard.integrityStatus
       (Dashboard.verifyIntegrity (Dashboard.initial Sample.tampered)) =
     Dashboard.verified.
Proof. vm_compute. repeat split. Qed.

(** C1, amended. [verifyIntegrity] recomputes nothing and compares
    nothing: whatever the chain and whatever the state of the dashboard,
    it leaves the status [verified], and the chain, the analysis, the
    analyzing flag and the active tab as they were. *)
Theorem verifyIntegrity_always_verified :
  forall st : Dashboard.State,
    Dashboard.integrityStatus (Dashboard.verifyIntegrity st) =
      Dashboard.verified
    /\ Dashboard.logs (Dashboard.verifyIntegrity st) = Dashboard.logs st
    /\ Dashboard.analysis (Dashboard.verifyIntegrity st) =
       Dashboard.analysis st
    /\ Dashboard.analyzing (Dashboard.verifyIntegrity st) =
       Dashboard.analyzing st
    /\ Dashboard.activeTab (Dashboard.verifyIntegrity st) =
       Dashboard.activeTab st.
Proof. intros st. repeat split. Qed.

End ChainVerification.

(** ** The lowercase mapping *)

Section CaseMapping.
Import Unicode.

Example toLowerCase_examples :
  toLowerCase (js "Hello, WORLD") = js "hello, world"
  /\ toLowerCase [76; 69; 65; 8490] = js "leak"
  /\ toLowerCase [304] = [105; 775]
  /\ toLowerCase [1044; 1040] = [1076; 1072]
  /\ toLowerCase [913; 931] = [945; 962]
  /\ toLowerCase [913; 931; 913] = [945; 963; 945]
  /\ toLowerCase [913; 46; 931; 39] = [945; 46; 962; 39]
  /\ toLowerCase [931] = [963]
  /\ toLowerCase [55297; 56320] = [55297; 56360]
  /\ toLowerCase [55297; 65; 56320] = [55297; 97; 56320]
  /\ toLowerCase [8477] = [8477].
Proof. vm_compute. repeat split. Qed.

Lemma simpleLower_changed (cp : Z) :
  simpleLower cp <> cp -> In (cp, simpleLower cp) lowerPairs.
Proof.
  unfold simpleLower.
  destruct (find (fun p => fst p =? cp) lowerPairs) as [[a b]|] eqn:F;
    [|intros N; now elim N].
  intros _. apply find_some in F as [I E]. cbn [fst snd] in *.
  apply Z.eqb_eq in E. now subst.
Qed.

(** What holds of every pair of the mapping: the image is a code point
    that lowercasing leaves, neither end is a surrogate, and the two ends
    are in the same plane. *)
Lemma lowerPairs_checked :
  forallb
    (fun p =>
       negb (changesWhenLowercased (snd p))
       && negb (isSurrogate (fst p)) && negb (isSurrogate (snd p))
       && (0 <=? snd p) && (snd p <? 1114112)
       && (negb (fst p <? 65536) || (snd p <? 65536))
       && ((fst p <? 65536) || negb (snd p <? 65536)))
    lowerPairs = true.
Proof. vm_compute. reflexivity. Qed.

Lemma simpleLower_facts (cp : Z) :
  simpleLower cp = cp
  \/ changesWhenLowercased (simpleLower cp) = false
     /\ isSurrogate cp = false /\ isSurrogate (simpleLower cp) = false
     /\ 0 <= simpleLower cp < 1114112
     /\ (cp < 65536 <-> simpleLower cp < 65536).
Proof.
  destruct (Z.eq_dec (simpleLower cp) cp) as [E | N]; [now left | right].
  apply simpleLower_changed in N.
  assert (C := lowerPairs_checked). rewrite forallb_forall in C.
  specialize (C _ N). cbn [fst snd] in C.
  repeat (apply andb_true_iff in C as [C ?]).
  repeat match goal with
         | H : negb _ = true |- _ => apply negb_true_iff in H
         end.
  split; [assumption|]. split; [assumption|]. split; [assumption|].
  split; [lia|].
  destruct (Z.ltb_spec cp 65536), (Z.ltb_spec (simpleLower cp) 65536);
    cbn in *; try discriminate; lia.
Qed.

Lemma lead_iff (c : Z) :
  isLeadingSurrogate c = true <-> 55296 <= c <= 56319.
Proof. unfold isLeadingSurrogate. rewrite andb_true_iff, !Z.leb_le. tauto. Qed.

Lemma trail_iff (c : Z) :
  isTrailingSurrogate c = true <-> 56320 <= c <= 57343.
Proof. unfold isTrailingSurrogate. rewrite andb_true_iff, !Z.leb_le. tauto. Qed.

Lemma lead_not (c : Z) :
  isLeadingSurrogate c = false <-> c < 55296 \/ 56319 < c.
Proof.
  unfold isLeadingSurrogate. rewrite andb_false_iff, !Z.leb_gt. tauto.
Qed.

Lemma trail_not (c : Z) :
  isTrailingSurrogate c = false <-> c < 56320 \/ 57343 < c.
Proof.
  unfold isTrailingSurrogate. rewrite andb_false_iff, !Z.leb_gt. tauto.
Qed.

Lemma surrogate_not (c : Z) :
  isSurrogate c = false <-> c < 55296 \/ 57343 < c.
Proof.
  unfold isSurrogate. rewrite orb_false_iff, lead_not, trail_not. lia.
Qed.

(** Lowercasing leaves a surrogate as it is. *)
Lemma simpleLower_surrogate (cp : Z) :
  isSurrogate cp = true -> simpleLower cp = cp.
Proof.
  intros S0. destruct (simpleLower_facts cp) as [E | [_ [N _]]];
    [exact E | congruence].
Qed.

Lemma lowerOne_stable (cp : Z) :
  cp <> 931 ->
  Forall (fun v => changesWhenLowercased v = false) (lowerOne cp).
Proof.
  intros N. unfold lowerOne. destruct (Z.eqb_spec cp 304) as [->|N'].
  - repeat constructor.
  - constructor; [|constructor].
    destruct (simpleLower_facts cp) as [E | [C _]]; [|exact C].
    unfold changesWhenLowercased. rewrite !E.
    rewrite (proj2 (Z.eqb_neq cp 931) N), (proj2 (Z.eqb_neq cp 304) N').
    now rewrite Z.eqb_refl.
Qed.

(** Lowercasing returns code points that lowercasing leaves. *)
Lemma toLowercase_stable (p : bool) (cps : list Z) :
  Forall (fun v => changesWhenLowercased v = false) (toLowercase p cps).
Proof.
  revert p; induction cps as [|cp rest IH]; intros p; [constructor|].
  cbn [toLowercase]. apply Forall_app. split; [|apply IH].
  destruct (Z.eqb_spec cp 931) as [->|N].
  - destruct (p && negb (followedByCased rest)); repeat constructor.
  - now apply lowerOne_stable.
Qed.

Lemma toLowercase_fixed (p : bool) (cps : list Z) :
  Forall (fun v => changesWhenLowercased v = false) cps ->
  toLowercase p cps = cps.
Proof.
  intros F. revert p. induction F as [|cp rest C _ IH]; intros p;
    [reflexivity|].
  cbn [toLowercase]. unfold changesWhenLowercased in C.
  apply orb_false_iff in C as [C C3]. apply orb_false_iff in C as [C1 C2].
  apply negb_false_iff, Z.eqb_eq in C3.
  unfold lowerOne. rewrite C1, C2, C3, IH. reflexivity.
Qed.

Lemma list_ind2 {A} (P : list A -> Prop) :
  P [] -> (forall a, P [a]) ->
  (forall a b l, P l -> P (b :: l) -> P (a :: b :: l)) ->
  forall l, P l.
Proof.
  intros H0 H1 H2.
  assert (H : forall l, P l /\ forall a, P (a :: l)).
  { induction l as [|b l [IH1 IH2]].
    - split; [exact H0 | exact H1].
    - split; [apply IH2|]. intros a. apply H2; [exact IH1 | apply IH2]. }
  intros l. apply H.
Qed.

(** The first code point of a string is its first code unit or a code
    point of a supplementary plane. *)
Lemma StringToCodePoints_head (d : Z) (r : list Z) :
  exists x t,
    StringToCodePoints (d :: r) = x :: t /\ (x = d \/ 65536 <= x).
Proof.
  cbn [StringToCodePoints].
  destruct (isLeadingSurrogate d) eqn:L; [|eexists _, _; split; eauto].
  destruct r as [|e r]; [eexists _, _; split; eauto|].
  destruct (isTrailingSurrogate e) eqn:T; [|eexists _, _; split; eauto].
  apply lead_iff in L. apply trail_iff in T.
  eexists _, _. split; [reflexivity|]. right. lia.
Qed.

(** The code points of a string. *)
Lemma StringToCodePoints_separated (s : JSString) :
  Forall is_code_unit s ->
  separated (StringToCodePoints s) = true
  /\ Forall is_code_point (StringToCodePoints s).
Proof.
  induction s as [|c|c d s IH1 IH2] using list_ind2; intros U.
  - now split.
  - inversion U as [|? ? Uc _]; subst. unfold is_code_unit in Uc.
    cbn. destruct (isLeadingSurrogate c);
      (split; [reflexivity|];
       constructor; [unfold is_code_point; lia | constructor]).
  - inversion U as [|? ? Uc U']; subst.
    inversion U' as [|? ? Ud U'']; subst.
    unfold is_code_unit in Uc, Ud.
    destruct (IH1 U'') as [S1 P1]. destruct (IH2 U') as [S2 P2].
    assert (Lone : separated (c :: StringToCodePoints (d :: s)) = true
                   \/ isTrailingSurrogate d = true
                      /\ isLeadingSurrogate c = true).
    { destruct (isTrailingSurrogate d) eqn:T.
      - destruct (isLeadingSurrogate c) eqn:L;
          [right; split; reflexivity|]. left.
        cbn [separated]. rewrite S2.
        destruct (StringToCodePoints (d :: s)); now rewrite ?L.
      - left. destruct (StringToCodePoints_head d s) as [x [t [E H]]].
        cbn [separated]. rewrite S2, E.
        replace (isTrailingSurrogate x) with false;
          [now rewrite andb_false_r|].
        symmetry. apply trail_not. apply trail_not in T. lia. }
    change (StringToCodePoints (c :: d :: s)) with
      (if isLeadingSurrogate c then
         if isTrailingSurrogate d
         then (65536 + (c - 55296) * 1024 + (d - 56320))
              :: StringToCodePoints s
         else c :: StringToCodePoints (d :: s)
       else c :: StringToCodePoints (d :: s)).
    destruct (isLeadingSurrogate c) eqn:L.
    + destruct (isTrailingSurrogate d) eqn:T.
      * apply lead_iff in L. apply trail_iff in T. split.
        -- cbn [separated]. rewrite S1.
           replace (isLeadingSurrogate
                      (65536 + (c - 55296) * 1024 + (d - 56320))) with false
             by (symmetry; apply lead_not; lia).
           now destruct (StringToCodePoints s).
        -- constructor; [unfold is_code_point; lia | exact P1].
      * destruct Lone as [Sx | [? _]]; [|congruence].
        split; [exact Sx|]. constructor; [unfold is_code_point; lia|exact P2].
    + destruct Lone as [Sx | [_ ?]]; [|congruence].
      split; [exact Sx|]. constructor; [unfold is_code_point; lia|exact P2].
Qed.

(** The first code point lowercasing returns for a sequence, when it is a
    trailing surrogate, is the first code point of the sequence. *)
Lemma toLowercase_head (p : bool) (cp : Z) (rest : list Z) :
  exists y t,
    toLowercase p (cp :: rest) = y :: t
    /\ (isTrailingSurrogate y = true -> y = cp).
Proof.
  cbn [toLowercase]. destruct (Z.eqb_spec cp 931) as [->|N].
  - destruct (p && negb (followedByCased rest));
      (eexists _, _; split; [reflexivity | discriminate]).
  - unfold lowerOne. destruct (Z.eqb_spec cp 304) as [->|N'].
    + eexists _, _. split; [reflexivity | discriminate].
    + eexists _, _. split; [reflexivity|]. intros T.
      destruct (simpleLower_facts cp) as [E | [_ [_ [S0 _]]]]; [exact E|].
      apply surrogate_not in S0. apply trail_iff in T. lia.
Qed.

Lemma lowerOne_code_points (cp : Z) :
  is_code_point cp -> Forall is_code_point (lowerOne cp).
Proof.
  intros C. unfold lowerOne. destruct (cp =? 304).
  - constructor; [unfold is_code_point; lia|].
    constructor; [unfold is_code_point; lia | constructor].
  - constructor; [|constructor].
    destruct (simpleLower_facts cp) as [-> | [_ [_ [_ [R _]]]]];
      [exact C | exact R].
Qed.

(** Lowercasing the code points of a string gives the code points of a
    string. *)
Lemma toLowercase_separated (cps : list Z) (p : bool) :
  separated cps = true -> Forall is_code_point cps ->
  separated (toLowercase p cps) = true
  /\ Forall is_code_point (toLowercase p cps).
Proof.
  revert p. induction cps as [|cp rest IH]; intros p Sp Cp; [now split|].
  inversion Cp as [|? ? Ccp Crest]; subst.
  cbn [separated] in Sp. apply andb_true_iff in Sp as [Adj Srest].
  destruct (IH (if caseIgnorable cp then p else cased cp) Srest Crest)
    as [S1 C1].
  set (p' := if caseIgnorable cp then p else cased cp) in *.
  assert (Next : forall x, (isLeadingSurrogate x = true -> x = cp) ->
            separated (x :: toLowercase p' rest) = true).
  { intros x Hx. cbn [separated]. rewrite S1, andb_true_r.
    destruct rest as [|next rest']; [reflexivity|].
    destruct (toLowercase_head p' next rest') as [y [t [E Hy]]].
    rewrite E. destruct (isLeadingSurrogate x) eqn:L; [|reflexivity].
    destruct (isTrailingSurrogate y) eqn:T; [|reflexivity].
    rewrite (Hx eq_refl) in L. rewrite (Hy eq_refl) in T.
    now rewrite L, T in Adj. }
  cbn [toLowercase]. fold p'. destruct (Z.eqb_spec cp 931) as [->|N].
  - cbn [app]. split.
    + apply Next. destruct (p && negb (followedByCased rest)); discriminate.
    + constructor; [|exact C1].
      destruct (p && negb (followedByCased rest)); unfold is_code_point; lia.
  - split; [|apply Forall_app; split;
             [now apply lowerOne_code_points | exact C1]].
    unfold lowerOne. destruct (Z.eqb_spec cp 304) as [->|N'].
    + cbn [app]. change (separated (105 :: 775 :: toLowercase p' rest))
        with (true && separated (775 :: toLowercase p' rest)).
      cbn [andb]. apply Next. discriminate.
    + cbn [app]. apply Next. intros L.
      destruct (simpleLower_facts cp) as [E | [_ [_ [S0 _]]]]; [exact E|].
      apply surrogate_not in S0. apply lead_iff in L. lia.
Qed.

Lemma UTF16EncodeCodePoint_head (cp : Z) :
  is_code_point cp ->
  exists h t,
    UTF16EncodeCodePoint cp = h :: t
    /\ (isTrailingSurrogate h = true -> h = cp).
Proof.
  unfold is_code_point, UTF16EncodeCodePoint. intros C.
  destruct (Z.ltb_spec cp 65536).
  - eexists _, _. split; [reflexivity | reflexivity].
  - eexists _, _. split; [reflexivity|]. intros T. apply trail_iff in T.
    assert (D := Z.div_lt_upper_bound (cp - 65536) 1024 1024).
    assert (D0 := Z.div_pos (cp - 65536) 1024). lia.
Qed.

(** The code points of the string of a sequence of code points are the
    sequence. *)
Lemma StringToCodePoints_CodePointsToString (cps : list Z) :
  separated cps = true -> Forall is_code_point cps ->
  StringToCodePoints (CodePointsToString cps) = cps.
Proof.
  induction cps as [|cp rest IH]; intros Sp Cp; [reflexivity|].
  inversion Cp as [|? ? Ccp Crest]; subst.
  cbn [separated] in Sp. apply andb_true_iff in Sp as [Adj Srest].
  specialize (IH Srest Crest).
  unfold CodePointsToString in *. cbn [flat_map].
  unfold UTF16EncodeCodePoint at 1. unfold is_code_point in Ccp.
  destruct (Z.ltb_spec cp 65536) as [Lt | Ge].
  - cbn [app StringToCodePoints].
    destruct (isLeadingSurrogate cp) eqn:L; [|now rewrite IH].
    destruct rest as [|next rest']; [reflexivity|].
    inversion Crest as [|? ? Cnext _]; subst.
    cbn [flat_map] in *.
    destruct (UTF16EncodeCodePoint_head next Cnext) as [h [t [E Hh]]].
    rewrite E in *. cbn [app] in *.
    destruct (isTrailingSurrogate h) eqn:T; [|now rewrite IH].
    rewrite (Hh eq_refl) in T. now rewrite T in Adj.
  - assert (Q := Z.div_mod (cp - 65536) 1024).
    assert (R := Z.mod_pos_bound (cp - 65536) 1024).
    assert (D := Z.div_lt_upper_bound (cp - 65536) 1024 1024).
    assert (D0 := Z.div_pos (cp - 65536) 1024).
    cbn [app StringToCodePoints].
    replace (isLeadingSurrogate (55296 + (cp - 65536) / 1024)) with true
      by (symmetry; apply lead_iff; lia).
    replace (isTrailingSurrogate (56320 + (cp - 65536) mod 1024)) with true
      by (symmetry; apply trail_iff; lia).
    rewrite IH. f_equal. lia.
Qed.

(** Lowercasing twice is lowercasing once. *)
Lemma toLowerCase_idempotent (s : JSString) :
  Forall is_code_unit s -> toLowerCase (toLowerCase s) = toLowerCase s.
Proof.
  intros U. unfold toLowerCase.
  destruct (StringToCodePoints_separated s U) as [S1 C1].
  destruct (toLowercase_separated _ false S1 C1) as [S2 C2].
  rewrite StringToCodePoints_CodePointsToString by assumption.
  rewrite toLowercase_fixed by apply toLowercase_stable. reflexivity.
Qed.

Lemma StringToCodePoints_nonempty (s : JSString) :
  StringToCodePoints s = [] -> s = [].
Proof.
  destruct s as [|c s]; [reflexivity|]. cbn [StringToCodePoints].
  destruct (isLeadingSurrogate c); [|discriminate].
  destruct s as [|d s]; [discriminate|].
  destruct (isTrailingSurrogate d); discriminate.
Qed.

(** Only the empty text lowercases to the empty text. *)
Lemma toLowerCase_nonempty (s : JSString) : toLowerCase s = [] -> s = [].
Proof.
  unfold toLowerCase, CodePointsToString. intros E.
  apply StringToCodePoints_nonempty.
  destruct (StringToCodePoints s) as [|cp rest]; [reflexivity|].
  exfalso. cbn [toLowercase flat_map] in E.
  destruct (cp =? 931).
  - cbn [app flat_map] in E. unfold UTF16EncodeCodePoint in E.
    destruct (_ <? 65536) in E; discriminate.
  - unfold lowerOne in E. destruct (cp =? 304); cbn [app flat_map] in E;
      unfold UTF16EncodeCodePoint in E.
    + discriminate.
    + destruct (_ <? 65536) in E; discriminate.
Qed.

(** A code unit that is no trailing surrogate begins a code point. *)
Lemma StringToCodePoints_app (a : JSString) (c : Z) (r : JSString) :
  isTrailingSurrogate c = false ->
  exists A,
    StringToCodePoints (a ++ c :: r) = A ++ StringToCodePoints (c :: r).
Proof.
  intros T. induction a as [|x|x y l [A1 IH1] [A2 IH2]] using list_ind2.
  - now exists [].
  - exists [x]. cbn [app]. cbn [StringToCodePoints]. rewrite T.
    now destruct (isLeadingSurrogate x).
  - cbn [app] in *.
    change (StringToCodePoints (x :: y :: l ++ c :: r)) with
      (if isLeadingSurrogate x then
         if isTrailingSurrogate y
         then (65536 + (x - 55296) * 1024 + (y - 56320))
              :: StringToCodePoints (l ++ c :: r)
         else x :: StringToCodePoints (y :: l ++ c :: r)
       else x :: StringToCodePoints (y :: l ++ c :: r)).
    destruct (isLeadingSurrogate x); [destruct (isTrailingSurrogate y)|].
    + rewrite IH1. now eexists (_ :: A1).
    + rewrite IH2. now eexists (_ :: A2).
    + rewrite IH2. now eexists (_ :: A2).
Qed.

Lemma StringToCodePoints_plain (w b : JSString) :
  Forall (fun c => isSurrogate c = false /\ c <> 931) w ->
  StringToCodePoints (w ++ b) = w ++ StringToCodePoints b.
Proof.
  induction 1 as [|c w [S0 _] _ IH]; [reflexivity|].
  cbn [app StringToCodePoints].
  apply orb_false_iff in S0 as [-> _]. now rewrite IH.
Qed.

Lemma toLowercase_app (A rest : list Z) (p : bool) :
  exists X p', toLowercase p (A ++ rest) = X ++ toLowercase p' rest.
Proof.
  revert p. induction A as [|cp A IH]; intros p.
  - now exists [], p.
  - cbn [app toLowercase].
    destruct (IH (if caseIgnorable cp then p else cased cp)) as [X [p' E]].
    rewrite E, app_assoc. now eexists _, p'.
Qed.

Lemma toLowercase_plain (W B : list Z) (p : bool) :
  Forall (fun c => isSurrogate c = false /\ c <> 931) W ->
  exists p',
    toLowercase p (W ++ B) = flat_map lowerOne W ++ toLowercase p' B.
Proof.
  intros F. revert p. induction F as [|cp W [_ N] _ IH]; intros p.
  - now exists p.
  - cbn [app toLowercase flat_map].
    rewrite (proj2 (Z.eqb_neq cp 931) N).
    destruct (IH (if caseIgnorable cp then p else cased cp)) as [p' E].
    rewrite E, app_assoc. now exists p'.
Qed.

(** A text without sigma and without surrogates lowercases code unit by
    code unit. *)
Lemma toLowerCase_plain (w : JSString) :
  Forall (fun c => isSurrogate c = false /\ c <> 931) w ->
  toLowerCase w = CodePointsToString (flat_map lowerOne w).
Proof.
  intros F. unfold toLowerCase.
  rewrite <- (app_nil_r w) at 1. rewrite StringToCodePoints_plain by exact F.
  destruct (toLowercase_plain w [] false F) as [p' E].
  cbn [StringToCodePoints]. rewrite E. cbn [toLowercase].
  now rewrite app_nil_r.
Qed.

(** Such a text lowercases the same way inside any text. *)
Lemma toLowerCase_middle (before word after : JSString) :
  Forall (fun c => isSurrogate c = false /\ c <> 931) word ->
  exists X Y,
    toLowerCase (before ++ word ++ after) = X ++ toLowerCase word ++ Y.
Proof.
  intros F. rewrite (toLowerCase_plain word F).
  destruct word as [|c word].
  - exists (toLowerCase (before ++ after)), []. cbn. now rewrite app_nil_r.
  - assert (T : isTrailingSurrogate c = false).
    { inversion F as [|? ? [S0 _] _]; subst.
      now apply orb_false_iff in S0 as [_ ->]. }
    unfold toLowerCase. cbn [app].
    destruct (StringToCodePoints_app before c (word ++ after) T) as [A ->].
    change (c :: word ++ after) with ((c :: word) ++ after).
    rewrite StringToCodePoints_plain by exact F.
    destruct (toLowercase_app A ((c :: word) ++ StringToCodePoints after)
                false) as [X [p' ->]].
    destruct (toLowercase_plain (c :: word) (StringToCodePoints after) p' F)
      as [p'' ->].
    unfold CodePointsToString. rewrite !flat_map_app.
    now eexists _, _.
Qed.

(** A code point of a string is one of its code units or is made of two
    adjacent ones. *)
Lemma StringToCodePoints_In (cp : Z) (s : JSString) :
  In cp (StringToCodePoints s) ->
  In cp s
  \/ exists a hi lo b,
       s = a ++ hi :: lo :: b
       /\ isLeadingSurrogate hi = true /\ isTrailingSurrogate lo = true
       /\ cp = 65536 + (hi - 55296) * 1024 + (lo - 56320).
Proof.
  induction s as [|x|x y l IH1 IH2] using list_ind2.
  - intros [].
  - cbn [StringToCodePoints]. destruct (isLeadingSurrogate x); now left.
  - change (StringToCodePoints (x :: y :: l)) with
      (if isLeadingSurrogate x then
         if isTrailingSurrogate y
         then (65536 + (x - 55296) * 1024 + (y - 56320))
              :: StringToCodePoints l
         else x :: StringToCodePoints (y :: l)
       else x :: StringToCodePoints (y :: l)).
    assert (Tail : In cp (StringToCodePoints (y :: l)) ->
              In cp (x :: y :: l)
              \/ exists a hi lo b,
                   x :: y :: l = a ++ hi :: lo :: b
                   /\ isLeadingSurrogate hi = true
                   /\ isTrailingSurrogate lo = true
                   /\ cp = 65536 + (hi - 55296) * 1024 + (lo - 56320)).
    { intros I. destruct (IH2 I) as [H | [a [hi [lo [b [E H]]]]]].
      - left. now right.
      - right. exists (x :: a), hi, lo, b. now rewrite E. }
    destruct (isLeadingSurrogate x) eqn:L;
      [destruct (isTrailingSurrogate y) eqn:T|].
    + intros [<- | I].
      * right. now exists [], x, y, l.
      * destruct (IH1 I) as [H | [a [hi [lo [b [E H]]]]]].
        -- left. right. now right.
        -- right. exists (x :: y :: a), hi, lo, b. now rewrite E.
    + intros [<- | I]; [left; now left | now apply Tail].
    + intros [<- | I]; [left; now left | now apply Tail].
Qed.

(** A code unit of the string of a sequence of code points that is no
    surrogate is one of the code points. *)
Lemma CodePointsToString_In (cps : list Z) (c : Z) :
  Forall is_code_point cps -> isSurrogate c = false ->
  In c (CodePointsToString cps) -> In c cps.
Proof.
  intros F S0. apply surrogate_not in S0. unfold CodePointsToString.
  induction F as [|cp rest C _ IH]; [intros []|].
  cbn [flat_map]. rewrite in_app_iff. intros [I | I]; [|right; now apply IH].
  left. unfold UTF16EncodeCodePoint, is_code_point in *.
  destruct (Z.ltb_spec cp 65536).
  - destruct I as [<- | []]. reflexivity.
  - assert (R := Z.mod_pos_bound (cp - 65536) 1024).
    assert (D := Z.div_lt_upper_bound (cp - 65536) 1024 1024).
    assert (D0 := Z.div_pos (cp - 65536) 1024).
    destruct I as [<- | [<- | []]]; lia.
Qed.

(** A surrogate pair in the string of a sequence of code points is one of
    the code points. *)
Lemma CodePointsToString_pair (cps : list Z) :
  separated cps = true -> Forall is_code_point cps ->
  forall u hi lo v,
    CodePointsToString cps = u ++ hi :: lo :: v ->
    isLeadingSurrogate hi = true -> isTrailingSurrogate lo = true ->
    In (65536 + (hi - 55296) * 1024 + (lo - 56320)) cps.
Proof.
  unfold CodePointsToString.
  induction cps as [|cp rest IH]; intros Sp Cp u hi lo v E L T.
  - now destruct u.
  - inversion Cp as [|? ? Ccp Crest]; subst.
    cbn [separated] in Sp. apply andb_true_iff in Sp as [Adj Srest].
    cbn [flat_map] in E. unfold UTF16EncodeCodePoint at 1 in E.
    unfold is_code_point in Ccp.
    apply lead_iff in L. apply trail_iff in T.
    destruct (Z.ltb_spec cp 65536) as [Lt | Ge]; cbn [app] in E.
    + destruct u as [|x u]; cbn [app] in E.
      * injection E as -> E. exfalso.
        destruct rest as [|next rest']; [discriminate|].
        inversion Crest as [|? ? Cnext _]; subst.
        cbn [flat_map] in E.
        destruct (UTF16EncodeCodePoint_head next Cnext) as [h [t [Eh Hh]]].
        rewrite Eh in E. injection E as -> _.
        assert (Tl : isTrailingSurrogate lo = true) by (apply trail_iff; lia).
        rewrite <- (Hh Tl) in Adj. rewrite Tl in Adj.
        replace (isLeadingSurrogate hi) with true in Adj
          by (symmetry; apply lead_iff; lia).
        discriminate.
      * injection E as _ E. right.
        apply (IH Srest Crest u hi lo v E); [apply lead_iff | apply trail_iff];
          lia.
    + assert (Q := Z.div_mod (cp - 65536) 1024).
      assert (R := Z.mod_pos_bound (cp - 65536) 1024).
      assert (D := Z.div_lt_upper_bound (cp - 65536) 1024 1024).
      assert (D0 := Z.div_pos (cp - 65536) 1024).
      destruct u as [|x [|y u]]; cbn [app] in E.
      * assert (Eh := f_equal (fun l => hd 0 l) E).
        assert (El := f_equal (fun l => hd 0 (tl l)) E).
        cbn [hd tl] in Eh, El. left. lia.
      * assert (El := f_equal (fun l => hd 0 (tl l)) E).
        cbn [hd tl] in El. lia.
      * assert (Et := f_equal (fun l => tl (tl l)) E).
        cbn [tl] in Et. clear E. rename Et into E. right.
        apply (IH Srest Crest u hi lo v E); [apply lead_iff | apply trail_iff];
          lia.
Qed.

Lemma changesWhenLowercased_not_surrogate (cp : Z) :
  changesWhenLowercased cp = true -> isSurrogate cp = false.
Proof.
  unfold changesWhenLowercased. rewrite !orb_true_iff, !Z.eqb_eq.
  intros [[-> | ->] | N]; try reflexivity.
  apply negb_true_iff, Z.eqb_neq in N.
  destruct (simpleLower_facts cp) as [E | [_ [S0 _]]]; [now elim N | exact S0].
Qed.

(** A text with a code point that lowercasing changes is no part of a
    lowercased string. *)
Lemma toLowerCase_never_holds (content kw pre post : JSString) (cp : Z) :
  Forall is_code_unit content ->
  In cp (StringToCodePoints kw) -> changesWhenLowercased cp = true ->
  toLowerCase content <> pre ++ kw ++ post.
Proof.
  intros U I Ch E. unfold toLowerCase in E.
  destruct (StringToCodePoints_separated content U) as [S1 C1].
  destruct (toLowercase_separated _ false S1 C1) as [S2 C2].
  assert (St := toLowercase_stable false (StringToCodePoints content)).
  set (out := toLowercase false (StringToCodePoints content)) in *.
  assert (Io : In cp out).
  { destruct (StringToCodePoints_In cp kw I)
      as [H | [a [hi [lo [b [-> [L [T ->]]]]]]]].
    - apply CodePointsToString_In; [exact C2| |].
      + now apply changesWhenLowercased_not_surrogate.
      + rewrite E. apply in_or_app. right. apply in_or_app. now left.
    - apply (CodePointsToString_pair out S2 C2 (pre ++ a) hi lo (b ++ post));
        [|exact L | exact T].
      rewrite E, <- !app_assoc. reflexivity. }
  rewrite Forall_forall in St. rewrite (St cp Io) in Ch. discriminate.
Qed.

End CaseMapping.

(** ** The keyword scan *)

Section KeywordScan.
Import JSON Types.

Lemma startsWith_iff (s k : JSString) :
  startsWith s k = true <-> exists post, s = k ++ post.
Proof.
  revert s; induction k as [|p k IH]; intros s; simpl.
  - split; [intros _; now exists s | reflexivity].
  - destruct s as [|c s].
    + split; [discriminate | intros [post H]; discriminate].
    + rewrite andb_true_iff, Z.eqb_eq, IH. split.
      * intros [-> [post ->]]. now exists post.
      * intros [post H]. injection H as -> ->. split; [reflexivity|].
        now exists post.
Qed.

(** [includes] is the substring test. *)
Lemma includes_iff (s k : JSString) :
  includes s k = true <-> exists pre post, s = pre ++ k ++ post.
Proof.
  induction s as [|c s IH].
  - cbn [includes]. rewrite orb_false_r, startsWith_iff. split.
    + intros [post H]. now exists [], post.
    + intros [pre [post H]]. destruct pre; [|discriminate].
      now exists post.
  - cbn [includes]. rewrite orb_true_iff, IH, startsWith_iff. split.
    + intros [[post H] | [pre [post H]]].
      * now exists [], post.
      * exists (c :: pre), post. now rewrite H.
    + intros [[|d pre] [post H]].
      * left. now exists post.
      * right. injection H as -> ->. now exists pre, post.
Qed.

Lemma includes_length (s k : JSString) :
  includes s k = true -> (List.length k <= List.length s)%nat.
Proof.
  rewrite includes_iff. intros [pre [post ->]].
  rewrite !length_app. lia.
Qed.

Lemma trimStart_keeps (s : JSString) (c : Z) :
  In c s -> isWhiteSpace c = false -> In c (trimStart s).
Proof.
  intros Hin Hc. induction s as [|d s IH]; [contradiction|].
  simpl. destruct (isWhiteSpace d) eqn:E; [|exact Hin].
  destruct Hin as [-> | Hin]; [congruence | auto].
Qed.

(** A text with a character that is not white space does not trim to the
    empty string. *)
Lemma trim_truthy (s : JSString) (c : Z) :
  In c s -> isWhiteSpace c = false -> truthy (trim s) = true.
Proof.
  intros Hin Hc.
  assert (H : In c (trim s)).
  { unfold trim, trimEnd. apply -> in_rev.
    apply trimStart_keeps; [|exact Hc].
    apply -> in_rev. now apply trimStart_keeps. }
  destruct (trim s); [contradiction | reflexivity].
Qed.

Lemma keywords_of_strings (l : list JSString) :
  flat_map (fun v => match v with JStr s => [s] | _ => [] end) (map JStr l)
  = l.
Proof. induction l as [|x l IH]; simpl; [reflexivity | now rewrite IH]. Qed.

(** What a send that goes through reports: the keywords found, when there
    are any. *)
Lemma handleSendMessage_reports kws u ivBytes uuid now st key :
  Chat.aesKey st = Some key ->
  truthy (trim (Chat.inputText st)) = true ->
  Chat.reportedKeywords (Chat.handleSendMessage kws u ivBytes uuid now st) =
  Chat.detectKeywords kws (Chat.inputText st).
Proof.
  intros Hk Ht. unfold Chat.handleSendMessage, Chat.reportedKeywords.
  rewrite Ht, Hk. cbn [negb Chat.logged].
  destruct (Chat.detectKeywords kws (Chat.inputText st)) as [|k ks] eqn:E.
  - reflexivity.
  - cbn [List.length Nat.ltb Nat.leb app flat_map].
    unfold Chat.keywordsOf at 1. cbn [Chat.callType eventType_eqb].
    cbn [Chat.callMetadata get lookup]. 
    change (str_eqb (js "keywords") (js "keywords")) with true. cbv iota.
    rewrite keywords_of_strings. 
    unfold Chat.keywordsOf. cbn [Chat.callType eventType_eqb].
    now rewrite app_nil_r.
Qed.

Lemma plain_checked (w : JSString) :
  forallb (fun c => negb (Unicode.isSurrogate c) && negb (c =? 931)) w = true ->
  Forall (fun c => Unicode.isSurrogate c = false /\ c <> 931) w.
Proof.
  intros H. apply Forall_forall. intros c I.
  rewrite forallb_forall in H. specialize (H c I).
  apply andb_true_iff in H as [H1 H2].
  apply negb_true_iff in H1. apply negb_true_iff, Z.eqb_neq in H2.
  now split.
Qed.

(** C9, as stated, fails: U+211D, the double-struck capital R, is an
    uppercase letter (general category Lu) that lowercasing leaves as it
    is, and the configured keyword made of it is reported for a message
    that holds it. *)
Lemma detectKeywords_reports_capital_without_lowercase :
  Unicode.cased 8477 = true
  /\ toLowerCase [8477] = [8477]
  /\ Chat.detectKeywords [[8477]; js "leak"] (js "x in " ++ [8477]) = [[8477]].
Proof. vm_compute. repeat split. Qed.

(** C9, amended. The keywords a message is reported for are the
    configured keywords that occur, as they are written, in the lowercased
    text of the message:
    - a keyword is found exactly when it is configured and is a substring
      of the lowercased text;
    - a send that goes through reports exactly the keywords found;
    - a keyword that is the lowercase form of a part of the text, even of a
      part inside a longer word, is found (the part without a capital
      sigma, whose lowercase form depends on what follows it, and without
      surrogates);
    - a keyword with a code point that lowercasing changes (a letter with
      another lowercase form, among them A to Z, U+0414, U+212A, U+0130,
      U+03A3 and the capitals of the supplementary planes) is never found,
      whatever the message. *)
Theorem detectKeywords_exact :
  (forall kws content kw,
     In kw (Chat.detectKeywords kws content) <->
     In kw kws /\ exists pre post, toLowerCase content = pre ++ kw ++ post)
  /\ (forall kws u ivBytes uuid now st key,
        Chat.aesKey st = Some key ->
        truthy (trim (Chat.inputText st)) = true ->
        Chat.reportedKeywords
          (Chat.handleSendMessage kws u ivBytes uuid now st) =
        Chat.detectKeywords kws (Chat.inputText st))
  /\ (forall kws kw before word after,
        In kw kws ->
        Forall (fun c => Unicode.isSurrogate c = false /\ c <> 931) word ->
        toLowerCase word = kw ->
        In kw (Chat.detectKeywords kws (before ++ word ++ after)))
  /\ (forall kws content kw cp,
        Forall is_code_unit content ->
        In cp (Unicode.StringToCodePoints kw) ->
        Unicode.changesWhenLowercased cp = true ->
        ~ In kw (Chat.detectKeywords kws content)).
Proof.
  assert (A : forall kws content kw,
     In kw (Chat.detectKeywords kws content) <->
     In kw kws /\ exists pre post, toLowerCase content = pre ++ kw ++ post).
  { intros. unfold Chat.detectKeywords.
    now rewrite filter_In, includes_iff. }
  split; [exact A|]. split; [|split].
  - intros. now apply handleSendMessage_reports with key.
  - intros kws kw before word after Hin Hplain Hlow. apply A.
    split; [exact Hin|].
    destruct (toLowerCase_middle before word after Hplain) as [X [Y M]].
    exists X, Y. now rewrite M, Hlow.
  - intros kws content kw cp U Hc Hup Hin.
    apply A in Hin as [_ [pre [post E]]].
    now apply (toLowerCase_never_holds content kw pre post cp U Hc Hup).
Qed.

(** The keyword [leak] is reported for a message that has it inside a
    longer word in capitals, the last of them the Kelvin sign U+212A;
    [Secret] is not, although the message says [secret]. *)
Lemma detectKeywords_exact_witness :
  In (js "leak")
     (Chat.detectKeywords [js "leak"; js "Secret"]
        (js "the " ++ [76; 69; 65; 8490] ++ js "AGE is secret"))
  /\ ~ In (js "Secret")
       (Chat.detectKeywords [js "leak"; js "Secret"]
          (js "the LEAKAGE is secret")).
Proof.
  split.
  - apply (proj1 (proj2 (proj2 detectKeywords_exact))).
    + simpl; auto.
    + apply plain_checked. vm_compute. reflexivity.
    + vm_compute. reflexivity.
  - apply (proj2 (proj2 (proj2 detectKeywords_exact))) with (cp := 83).
    + apply Forall_forall. intros c I. apply in_map_iff in I as [a [<- _]].
      unfold is_code_unit. destruct a as [[] [] [] [] [] [] [] []]; cbn; lia.
    + vm_compute. auto.
    + vm_compute. reflexivity.
Defined.

End KeywordScan.

(** ** The handshake and the send guard *)

Section SendGuard.
Import JSON Types.

(** A session key is held only once [initSession] has returned, and then
    the status reads Secure. *)
Lemma reachable_key_only_when_secure (st : Chat.State) :
  Chat.reachable st ->
  (Chat.pending st <> Chat.Settled -> Chat.aesKey st = None)
  /\ (Chat.aesKey st = None \/ Chat.handshakeStatus st = js "Secure").
Proof.
  induction 1 as [|st e Hr [IH1 IH2]].
  - split; [reflexivity | now left].
  - assert (Same : forall st',
              Chat.pending st' = Chat.pending st ->
              Chat.aesKey st' = Chat.aesKey st ->
              Chat.handshakeStatus st' = Chat.handshakeStatus st ->
              (Chat.pending st' <> Chat.Settled -> Chat.aesKey st' = None)
              /\ (Chat.aesKey st' = None
                  \/ Chat.handshakeStatus st' = js "Secure")).
    { intros st' -> -> ->. now split. }
    assert (Early : forall st',
              Chat.pending st <> Chat.Settled ->
              Chat.aesKey st' = Chat.aesKey st ->
              (Chat.pending st' <> Chat.Settled -> Chat.aesKey st' = None)
              /\ (Chat.aesKey st' = None
                  \/ Chat.handshakeStatus st' = js "Secure")).
    { intros st' P ->. split; [intros _|left]; now apply IH1. }
    destruct e as [|s|text|kws u ivBytes uuid now|t choice ivBytes uuid now
                   |confirmed|shown]; cbn [Chat.handle].
    + (* Mount *)
      unfold Chat.initSession. cbn [Chat.skip Chat.next].
      destruct (Chat.pending st) eqn:P; try (now apply Same).
      apply Early; [rewrite ?P; discriminate | reflexivity].
    + (* Settle *)
      unfold Chat.resume.
      destruct (Chat.pending st) eqn:P; destruct s as [[r|]|[r|]|[r|] now];
        cbn [Chat.skip Chat.next Chat.handshakeFailed];
        try (now apply Same);
        try (apply Early; [rewrite ?P; discriminate | reflexivity]).
      destruct (CryptoService.importAESKey r) as [k|].
      * cbn. split; [intros C; now elim C | now right].
      * apply Early; [rewrite ?P; discriminate | reflexivity].
    + (* Type_ *) now apply Same.
    + (* Submit *)
      unfold Chat.handleSendMessage.
      destruct (negb (truthy (trim (Chat.inputText st))));
        [now apply Same|].
      destruct (Chat.aesKey st) as [k|] eqn:K; cbn [Chat.skip Chat.next];
        apply Same; try reflexivity; cbn; now rewrite K.
    + (* Fire *) destruct t as [delay k]. now apply Same.
    + (* Report *)
      unfold Chat.handleReportIncident. destruct confirmed; now apply Same.
    + (* Modal *) now apply Same.
Qed.

(** C6. In every state the chat can reach in which the handshake status is
    not Secure, no session key is held and a send does nothing: the state
    is the one before (no message is added to the conversation, the typed
    text stays in the input field), no event is logged and no timer is
    set, whatever the keywords, the user and the values drawn. *)
Theorem send_rejected_until_secure (st : Chat.State) :
  Chat.reachable st ->
  Chat.handshakeStatus st <> js "Secure" ->
  Chat.aesKey st = None
  /\ forall kws u ivBytes uuid now,
       Chat.handleSendMessage kws u ivBytes uuid now st =
       {| Chat.next := st; Chat.logged := []; Chat.scheduled := [] |}.
Proof.
  intros Hr Hs.
  destruct (reachable_key_only_when_secure st Hr) as [_ [K | S]];
    [|contradiction].
  split; [exact K|]. intros. unfold Chat.handleSendMessage. rewrite K.
  now destruct (negb (truthy (trim (Chat.inputText st)))).
Qed.

Lemma typing_reachable : Chat.reachable Sample.typing.
Proof. unfold Sample.typing. repeat apply Chat.reachable_next. constructor. Qed.

Lemma secure_reachable : Chat.reachable Sample.secure.
Proof. unfold Sample.secure. repeat apply Chat.reachable_next. constructor. Qed.

(** While the key pair is awaited, a submitted [hello] goes nowhere. *)
Lemma send_rejected_until_secure_witness :
  Chat.handshakeStatus Sample.typing = js "Generating RSA Keypair..."
  /\ Chat.handleSendMessage (App.suspiciousKeywords App.initial)
       Sample.agent (repeat 0 12) Sample.uuid1 1700000000000 Sample.typing =
     {| Chat.next := Sample.typing; Chat.logged := [];
        Chat.scheduled := [] |}.
Proof.
  split; [reflexivity|].
  apply (send_rejected_until_secure Sample.typing typing_reachable).
  discriminate.
Defined.

(** C7. With a session key held and the keyword list [["confidential"]],
    sending a text that contains "this is CONFIDENTIAL info" logs exactly
    one SUSPICIOUS_KEYWORD event; its severity is WARNING and its metadata
    is the keyword list [["confidential"]] and the length of the text. The
    text occurs in no string of that metadata. *)
Theorem send_confidential_logs_one_keyword_event
    (st : Chat.State) (key : CryptoService.CryptoKey) (u : User)
    (ivBytes : Bytes) (uuid : JSString) (now : Z) (before after : JSString) :
  Chat.aesKey st = Some key ->
  Chat.inputText st = before ++ js "this is CONFIDENTIAL info" ++ after ->
  let sent :=
    Chat.handleSendMessage [js "confidential"] u ivBytes uuid now st in
  let meta :=
    JObj [(js "keywords", JArr [JStr (js "confidential")]);
          (js "length", JNum (length (Chat.inputText st)))] in
  filter (fun c => eventType_eqb (Chat.callType c) SUSPICIOUS_KEYWORD)
         (Chat.logged sent) =
    [{| Chat.callType := SUSPICIOUS_KEYWORD;
        Chat.callMetadata := meta;
        Chat.callSeverity := Some WARNING |}]
  /\ forall s, In s (strings meta) -> includes s (Chat.inputText st) = false.
Proof.
  intros K E sent meta. split.
  - subst sent meta. unfold Chat.handleSendMessage.
    rewrite (trim_truthy (Chat.inputText st) 116), K.
    + assert (D : Chat.detectKeywords [js "confidential"] (Chat.inputText st)
                  = [js "confidential"]).
      { unfold Chat.detectKeywords. cbn [filter].
        replace (includes (toLowerCase (Chat.inputText st))
                   (js "confidential")) with true; [reflexivity|].
        symmetry. apply includes_iff.
        destruct (toLowerCase_middle before
                    (js "this is CONFIDENTIAL info") after) as [X [Y M]];
          [apply plain_checked; vm_compute; reflexivity|].
        replace (toLowerCase (js "this is CONFIDENTIAL info"))
          with (js "this is " ++ js "confidential" ++ js " info") in M
          by (vm_compute; reflexivity).
        exists (X ++ js "this is "), (js " info" ++ Y).
        rewrite E, M, <- !app_assoc. reflexivity. }
      cbn [negb Chat.logged]. rewrite D. reflexivity.
    + rewrite E. apply in_or_app. right. apply in_or_app. left.
      simpl. auto.
    + reflexivity.
  - intros s Hs.
    destruct (includes s (Chat.inputText st)) eqn:I; [|reflexivity].
    apply includes_length in I. rewrite E, !length_app in I.
    change (List.length (js "this is CONFIDENTIAL info")) with 25%nat in I.
    cbn in Hs.
    destruct Hs as [<- | [<- | [<- | []]]]; cbn in I; lia.
Qed.

(** After a handshake that went through, sending "this is CONFIDENTIAL
    info" itself. *)
Lemma send_confidential_witness :
  Chat.handshakeStatus Sample.secure = js "Secure"
  /\ filter (fun c => eventType_eqb (Chat.callType c) SUSPICIOUS_KEYWORD)
       (Chat.logged
          (Chat.handleSendMessage [js "confidential"] Sample.agent
             (repeat 0 12) Sample.uuid1 1700000000900 Sample.secure)) =
     [{| Chat.callType := SUSPICIOUS_KEYWORD;
         Chat.callMetadata :=
           JObj [(js "keywords", JArr [JStr (js "confidential")]);
                 (js "length", JNum 25)];
         Chat.callSeverity := Some WARNING |}].
Proof.
  split; [reflexivity|].
  apply (send_confidential_logs_one_keyword_event Sample.secure
           (repeat 7 32) Sample.agent (repeat 0 12) Sample.uuid1
           1700000000900 [] []); reflexivity.
Defined.

End SendGuard.

(** ** Risk analysis *)

Section RiskAnalysis.
Import JSON Types Exn.

Lemma summarize_ok (l : ForensicLog) :
  Date.valid (timestamp l) = true -> exists x, Gemini.summarize l = Ok x.
Proof.
  intros V. unfold Gemini.summarize, Date.toISOString. rewrite V.
  destruct (Date.civil (timestamp l / 86400000)) as [[y m] d].
  cbn [orThrow bind]. eexists. reflexivity.
Qed.

(** The digest is built whenever every entry has a valid date. *)
Lemma logSummary_ok (logs : list ForensicLog) :
  forallb (fun l => Date.valid (timestamp l)) logs = true ->
  exists summary, Gemini.logSummary logs = Ok summary.
Proof.
  induction logs as [|l logs IH]; [now exists []|].
  cbn [forallb]. intros V. apply andb_prop in V as [V Vs].
  destruct (summarize_ok l V) as [x E]. destruct (IH Vs) as [xs Es].
  exists (x :: xs). cbn [Gemini.logSummary]. now rewrite E, Es.
Qed.

Lemma readReply_unusable (r : Gemini.Reply) :
  Gemini.unusable r = true -> exists e, Gemini.readReply r = Throw e.
Proof.
  destruct r as [|[text|] [v|]]; cbn; intros U;
    try destruct (truthy text); try discriminate; eexists; reflexivity.
Qed.

Lemma readReply_usable (text : JSString) (v : JSValue) :
  truthy text = true ->
  Gemini.readReply (Gemini.Fulfilled (Some text) (Some v)) = Ok v.
Proof. intros T. cbn. now rewrite T. Qed.

(** C2, as stated, fails: on the log of the rubric example (rubric score
    85) the analysis gives score 0 and no risk factor when the model cannot
    be reached, and the model's own assessment (score 40, two factors) when
    it answers with one. *)
Lemma analyzeLogs_not_the_rubric :
  (Spec.countType SUSPICIOUS_KEYWORD Sample.rubricExample = 2
   /\ Spec.countSeverity CRITICAL Sample.rubricExample = 1
   /\ Spec.countSeverity WARNING Sample.rubricExample = 3
   /\ Spec.countType ANOMALY_DETECTED Sample.rubricExample = 0
   /\ Spec.rubricScore false Sample.rubricExample = 85)
  /\ (let r := Gemini.value
                 (Gemini.analyzeLogs Sample.down Sample.rubricExample) in
      Gemini.score r = Some (JNum 0)
      /\ Gemini.riskFactors r = Some (JArr []))
  /\ (let r := Gemini.value
                 (Gemini.analyzeLogs Sample.lenient Sample.rubricExample) in
      Gemini.score r = Some (JNum 40)
      /\ exists f1 f2, Gemini.riskFactors r = Some (JArr [f1; f2])).
Proof.
  split; [vm_compute; repeat split|]. split.
  - vm_compute. split; reflexivity.
  - vm_compute. split; [reflexivity|]. do 2 eexists. reflexivity.
Qed.

(** The digest is one object for each entry, in order: its time, type,
    severity, metadata and the first eight characters of its hash. *)
Lemma logSummary_digest (logs : list ForensicLog) :
  forallb (fun l => Date.valid (timestamp l)) logs = true ->
  Gemini.logSummary logs =
    Ok (map
          (fun l =>
             JObj [(js "time",
                    JStr match Date.toISOString (timestamp l) with
                         | Some time => time
                         | None => []
                         end);
                   (js "type", JStr (eventTypeName (eventType l)));
                   (js "severity", JStr (severityName (severity l)));
                   (js "metadata", metadata l);
                   (js "hash", JStr (substring0 8 (hash l) ++ js "..."))])
          logs).
Proof.
  induction logs as [|l logs IH]; [reflexivity|].
  cbn [forallb]. intros V. apply andb_prop in V as [V Vs].
  cbn [Gemini.logSummary map]. rewrite (IH Vs).
  unfold Gemini.summarize, Date.toISOString. rewrite V.
  destruct (Date.civil (timestamp l / 86400000)) as [[y m] d].
  reflexivity.
Qed.

Lemma logSummary_invalid (logs : list ForensicLog) :
  forallb (fun l => Date.valid (timestamp l)) logs = false ->
  Gemini.logSummary logs = Throw RangeError.
Proof.
  induction logs as [|l logs IH]; [discriminate|].
  cbn [forallb Gemini.logSummary]. intros V.
  destruct (Date.valid (timestamp l)) eqn:D.
  - destruct (summarize_ok l D) as [x ->]. cbn [bind]. now rewrite (IH V).
  - unfold Gemini.summarize, Date.toISOString. now rewrite D.
Qed.

(** C2, amended. The analysis computes no score: for any log whose entries
    have valid dates (the log of the rubric example is one) it sends one
    request, to the model gemini-2.5-flash, whose contents are the JSON
    text of the digest of the log (time, type, severity, metadata and the
    first eight characters of the hash of each entry, in order), with the
    rubric as the system instruction and the answer's schema, and when the
    model answers with text that is JSON it returns the value of that text
    as it is and writes nothing to the console. The score is 85 with the
    three risk factors exactly when the model's answer says so. *)
Theorem analyzeLogs_returns_model_answer
    (ai : Gemini.Model) (logs : list ForensicLog) :
  forallb (fun l => Date.valid (timestamp l)) logs = true ->
  let entry := fun l =>
    JObj [(js "time",
           JStr match Date.toISOString (timestamp l) with
                | Some time => time
                | None => []
                end);
          (js "type", JStr (eventTypeName (eventType l)));
          (js "severity", JStr (severityName (severity l)));
          (js "metadata", metadata l);
          (js "hash", JStr (substring0 8 (hash l) ++ js "..."))] in
  let request :=
    {| Gemini.model := js "gemini-2.5-flash";
       Gemini.contents := stringify (JArr (map entry logs));
       Gemini.systemInstruction := Gemini.SYSTEM_INSTRUCTION;
       Gemini.responseMimeType := js "application/json";
       Gemini.schema := Gemini.responseSchema |} in
  Gemini.sent (Gemini.analyzeLogs ai logs) = [request]
  /\ forall text v,
       ai request = Gemini.Fulfilled (Some text) (Some v) ->
       truthy text = true ->
       Gemini.value (Gemini.analyzeLogs ai logs) = v
       /\ Gemini.console (Gemini.analyzeLogs ai logs) = [].
Proof.
  intros V entry request. unfold Gemini.analyzeLogs.
  rewrite (logSummary_digest logs V). fold entry.
  change (Gemini.requestFor (map entry logs)) with request.
  split.
  - now destruct (Gemini.readReply (ai request)).
  - intros text v R T. rewrite R, (readReply_usable text v T). now split.
Qed.

Lemma rubricExample_valid :
  forallb (fun l => Date.valid (timestamp l)) Sample.rubricExample = true.
Proof. vm_compute. reflexivity. Qed.

(** On the log of the rubric example, with the model that answers with its
    assessment: the assessment is what comes back. *)
Lemma analyzeLogs_returns_model_answer_witness :
  Gemini.value (Gemini.analyzeLogs Sample.lenient Sample.rubricExample) =
    Sample.assessment
  /\ Gemini.console (Gemini.analyzeLogs Sample.lenient Sample.rubricExample) =
     [].
Proof.
  destruct (analyzeLogs_returns_model_answer Sample.lenient
              Sample.rubricExample rubricExample_valid) as [_ H].
  apply (H (stringify Sample.assessment)); reflexivity.
Defined.

(** C3, as stated, fails: when the model cannot be reached, or answers with
    text that is not JSON, the result on the log of the rubric example
    (rubric score 85, one CRITICAL entry) has score 0, no risk factor and
    the single anomaly "Analysis service unavailable": none of them is
    computed from the entries, and the result on the empty log is the
    same. *)
Lemma fallback_not_computed_from_entries :
  Spec.rubricScore false Sample.rubricExample = 85
  /\ Spec.countSeverity CRITICAL Sample.rubricExample = 1
  /\ (let r := Gemini.value
                 (Gemini.analyzeLogs Sample.down Sample.rubricExample) in
      Gemini.score r = Some (JNum 0)
      /\ Gemini.riskFactors r = Some (JArr [])
      /\ Gemini.anomalies r =
         Some (JArr [JStr (js "Analysis service unavailable")]))
  /\ Gemini.value (Gemini.analyzeLogs Sample.garbled Sample.rubricExample) =
     Gemini.value (Gemini.analyzeLogs Sample.down [])
  /\ Gemini.value (Gemini.analyzeLogs Sample.down Sample.rubricExample) =
     Gemini.value (Gemini.analyzeLogs Sample.down []).
Proof. vm_compute. repeat split. Qed.

(** C3, amended. When the collaborator is unavailable or its output is
    malformed (the call is rejected, the response has no text or an empty
    one, or the text is not JSON), and also when an entry has an invalid
    date, the analysis does not fail: it returns the fixed result with
    score 0, the summary "Automated analysis failed. Manual review
    required.", the single anomaly "Analysis service unavailable" and no
    risk factor, whatever the entries, and writes the failure to the
    console. *)
Theorem analyzeLogs_falls_back
    (ai : Gemini.Model) (logs : list ForensicLog) :
  (forall summary,
     Gemini.logSummary logs = Ok summary ->
     Gemini.unusable (ai (Gemini.requestFor summary)) = true) ->
  Gemini.value (Gemini.analyzeLogs ai logs) =
    JObj [(js "score", JNum 0);
          (js "summary",
           JStr (js "Automated analysis failed. Manual review required."));
          (js "anomalies", JArr [JStr (js "Analysis service unavailable")]);
          (js "riskFactors", JArr [])]
  /\ exists e, Gemini.console (Gemini.analyzeLogs ai logs) = [e].
Proof.
  intros U. unfold Gemini.analyzeLogs.
  destruct (Gemini.logSummary logs) as [summary|e] eqn:E.
  - destruct (readReply_unusable _ (U summary eq_refl)) as [e R].
    rewrite R. split; [reflexivity | now exists e].
  - split; [reflexivity | now exists e].
Qed.

(** The model answers with text that is not JSON. *)
Lemma analyzeLogs_falls_back_witness :
  Gemini.value (Gemini.analyzeLogs Sample.garbled Sample.rubricExample) =
  Gemini.fallback.
Proof.
  apply (analyzeLogs_falls_back Sample.garbled Sample.rubricExample).
  intros summary _. reflexivity.
Defined.

(** C5, as stated, fails: two runs on the same entries, one in which the
    model cannot be reached and one in which it answers, give different
    scores; and a run is not free of effects, it sends a request. *)
Lemma analyzeLogs_two_runs_differ :
  Gemini.score
    (Gemini.value (Gemini.analyzeLogs Sample.down Sample.rubricExample)) =
    Some (JNum 0)
  /\ Gemini.score
       (Gemini.value (Gemini.analyzeLogs Sample.lenient Sample.rubricExample))
     = Some (JNum 40)
  /\ List.length
       (Gemini.sent (Gemini.analyzeLogs Sample.down Sample.rubricExample)) =
     1%nat.
Proof. vm_compute. repeat split. Qed.

Lemma Forall2_map_right {A} (R : A -> A -> Prop) (f : A -> A) (l : list A) :
  (forall x, R x (f x)) -> Forall2 R l (map f l).
Proof. intros H. induction l; constructor; auto. Qed.

(** C5, amended. The analysis is not a pure function of the entries: for
    entries with valid dates every run sends one request, whose contents
    are the JSON text of the digest of the log (time, type, severity,
    metadata and the first eight characters of the hash of each entry, in
    order), and returns what the model replies to it: the value of the
    reply when it is text that is JSON, the fixed fallback otherwise. It
    is deterministic relative to the model: a run in which the model
    replies alike to that request leaves the same result (value, requests
    sent, console); and the entries count only through the digest: logs
    whose entries agree, one by one, on time, type, severity, metadata and
    the first eight characters of the hash are analysed alike. *)
Theorem analyzeLogs_deterministic_in_reply
    (ai : Gemini.Model) (logs : list ForensicLog) :
  forallb (fun l => Date.valid (timestamp l)) logs = true ->
  let entry := fun l =>
    JObj [(js "time",
           JStr match Date.toISOString (timestamp l) with
                | Some time => time
                | None => []
                end);
          (js "type", JStr (eventTypeName (eventType l)));
          (js "severity", JStr (severityName (severity l)));
          (js "metadata", metadata l);
          (js "hash", JStr (substring0 8 (hash l) ++ js "..."))] in
  let request :=
    {| Gemini.model := js "gemini-2.5-flash";
       Gemini.contents := stringify (JArr (map entry logs));
       Gemini.systemInstruction := Gemini.SYSTEM_INSTRUCTION;
       Gemini.responseMimeType := js "application/json";
       Gemini.schema := Gemini.responseSchema |} in
  Gemini.sent (Gemini.analyzeLogs ai logs) = [request]
  /\ Gemini.value (Gemini.analyzeLogs ai logs) =
     match ai request with
     | Gemini.Fulfilled (Some text) (Some v) =>
         if truthy text then v else Gemini.fallback
     | _ => Gemini.fallback
     end
  /\ (forall ai' : Gemini.Model,
        ai' request = ai request ->
        Gemini.analyzeLogs ai' logs = Gemini.analyzeLogs ai logs)
  /\ (forall logs',
        Forall2
          (fun l l' =>
             timestamp l = timestamp l' /\ eventType l = eventType l'
             /\ severity l = severity l' /\ metadata l = metadata l'
             /\ substring0 8 (hash l) = substring0 8 (hash l'))
          logs logs' ->
        Gemini.analyzeLogs ai logs' = Gemini.analyzeLogs ai logs).
Proof.
  intros V entry request.
  assert (E : Gemini.logSummary logs = Ok (map entry logs))
    by apply (logSummary_digest logs V).
  assert (Run : forall m : Gemini.Model,
            Gemini.analyzeLogs m logs =
            match Gemini.readReply (m request) with
            | Ok v => {| Gemini.value := v; Gemini.sent := [request];
                         Gemini.console := [] |}
            | Throw e => Gemini.caught [request] e
            end).
  { intros m. unfold Gemini.analyzeLogs. now rewrite E. }
  split; [|split; [|split]].
  - rewrite Run. now destruct (Gemini.readReply (ai request)).
  - rewrite Run. destruct (ai request) as [|[text|] [v|]]; try reflexivity;
      cbn [Gemini.readReply]; destruct (truthy text); reflexivity.
  - intros ai' R. now rewrite !Run, R.
  - intros logs' F. unfold Gemini.analyzeLogs.
    assert (S0 : Gemini.logSummary logs' = Gemini.logSummary logs).
    { clear - F. induction F as [|l l' logs logs' [T [Ty [Sv [M H]]]] _ IH];
        [reflexivity|].
      cbn [Gemini.logSummary]. rewrite IH. unfold Gemini.summarize.
      now rewrite T, Ty, Sv, M, H. }
    now rewrite S0.
Qed.

(** The same chain with the id of every entry replaced: ids do not reach
    the model. *)
Lemma analyzeLogs_deterministic_witness :
  Gemini.analyzeLogs Sample.lenient
    (map (fun e => Sample.withSeverityAndId (severity e) Sample.uuid2 e)
         Sample.rubricExample) =
  Gemini.analyzeLogs Sample.lenient Sample.rubricExample.
Proof.
  apply (analyzeLogs_deterministic_in_reply Sample.lenient
           Sample.rubricExample rubricExample_valid).
  apply Forall2_map_right. intros e. repeat split.
Defined.

End RiskAnalysis.

(** ** Bytes *)

#[local] Ltac Zify.zify_post_hook ::= Z.to_euclidean_division_equations.

Lemma be_bytes_length (n : nat) (x : Z) : List.length (be_bytes n x) = n.
Proof. induction n as [|n IH]; simpl; [reflexivity | now rewrite IH]. Qed.

Lemma be_bytes_bytes (n : nat) (x : Z) : Forall is_byte (be_bytes n x).
Proof.
  induction n as [|n IH]; simpl; constructor; [|exact IH].
  unfold is_byte. apply Z.mod_pos_bound. lia.
Qed.

Lemma lxor_byte (a b : Z) : is_byte a -> is_byte b -> is_byte (Z.lxor a b).
Proof.
  unfold is_byte. intros [A0 A1] [B0 B1].
  assert (N : 0 <= Z.lxor a b) by now apply Z.lxor_nonneg.
  split; [exact N|].
  destruct (Z.eq_dec (Z.lxor a b) 0) as [->|NZ]; [lia|].
  apply (Z.log2_lt_pow2 _ 8); [lia|].
  eapply Z.le_lt_trans; [apply Z.log2_lxor; assumption|].
  apply Z.max_lub_lt.
  - destruct (Z.eq_dec a 0) as [->|]; [simpl; lia|].
    apply Z.log2_lt_pow2; lia.
  - destruct (Z.eq_dec b 0) as [->|]; [simpl; lia|].
    apply Z.log2_lt_pow2; lia.
Qed.

Lemma firstn_exact {A} (a b : list A) : firstn (List.length a) (a ++ b) = a.
Proof. induction a as [|x a IH]; simpl; [now destruct b | now rewrite IH]. Qed.

Lemma skipn_exact {A} (a b : list A) : skipn (List.length a) (a ++ b) = b.
Proof. induction a as [|x a IH]; simpl; [reflexivity | exact IH]. Qed.

Lemma filter_all {A} (f : A -> bool) (l : list A) :
  Forall (fun x => f x = true) l -> filter f l = l.
Proof.
  induction 1 as [|x l Hx _ IH]; simpl; [reflexivity|]. now rewrite Hx, IH.
Qed.

(** A list is read three elements at a time. *)
Lemma list_ind3 {A} (P : list A -> Prop) :
  P [] -> (forall a, P [a]) -> (forall a b, P [a; b]) ->
  (forall a b c l, P l -> P (a :: b :: c :: l)) ->
  forall l, P l.
Proof.
  intros H0 H1 H2 H3.
  assert (H : forall l, P l /\ (forall a, P (a :: l))
                        /\ (forall a b, P (a :: b :: l))).
  { induction l as [|x l [IH0 [IH1 IH2]]].
    - auto.
    - split; [apply IH1|]. split; [intros; apply IH2|].
      intros a b. now apply H3. }
  intros l. apply H.
Qed.

(** ** Base64 *)

Section Base64.
Import Codec.

Lemma sextet_cases (v : Z) :
  sextet v -> In v (map Z.of_nat (seq 0 64)).
Proof.
  intros [H0 H1]. apply in_map_iff. exists (Z.to_nat v).
  split; [lia|]. apply in_seq. lia.
Qed.

Lemma base64Char_facts (v : Z) :
  sextet v ->
  base64Value (base64Char v) = Some v
  /\ isAsciiWhitespace (base64Char v) = false
  /\ (base64Char v =? 61) = false.
Proof.
  intros Sx. apply sextet_cases in Sx.
  assert (A : forallb
                (fun v =>
                   match base64Value (base64Char v) with
                   | Some v' => v' =? v
                   | None => false
                   end
                   && negb (isAsciiWhitespace (base64Char v))
                   && negb (base64Char v =? 61))
                (map Z.of_nat (seq 0 64)) = true) by (vm_compute; reflexivity).
  rewrite forallb_forall in A. specialize (A v Sx).
  apply andb_prop in A as [A A3]. apply andb_prop in A as [A1 A2].
  destruct (base64Value (base64Char v)) as [v'|]; [|discriminate].
  apply Z.eqb_eq in A1. subst v'.
  apply negb_true_iff in A2, A3. now repeat split.
Qed.

Lemma base64Values_chars (vs : list Z) :
  Forall sextet vs -> base64Values (map base64Char vs) = Some vs.
Proof.
  induction 1 as [|v vs Hv _ IH]; [reflexivity|].
  cbn [map base64Values]. rewrite IH.
  now rewrite (proj1 (base64Char_facts v Hv)).
Qed.

(** What [btoa] writes: the characters of 6-bit values that decode to the
    bytes, then padding up to a multiple of four characters. *)
Lemma btoa_shape (bs : Bytes) :
  Forall is_byte bs ->
  exists vs pad,
    btoa bs = map base64Char vs ++ pad
    /\ Forall sextet vs
    /\ sextetsToBytes vs = bs
    /\ ((pad = [] /\ Z.of_nat (List.length vs) mod 4 = 0)
        \/ (pad = [61] /\ Z.of_nat (List.length vs) mod 4 = 3)
        \/ (pad = [61; 61] /\ Z.of_nat (List.length vs) mod 4 = 2)).
Proof.
  unfold is_byte, sextet.
  induction bs as [|b0|b0 b1|b0 b1 b2 bs IH] using list_ind3; intros B.
  - exists [], []. repeat split; auto.
  - inversion_clear B as [|? ? B0 _].
    exists [b0 / 4; (b0 mod 4) * 16], [61; 61].
    split; [reflexivity|]. split.
    { repeat constructor; Z.to_euclidean_division_equations; lia. }
    split; [|auto].
    cbn [sextetsToBytes]. f_equal. Z.to_euclidean_division_equations; lia.
  - inversion_clear B as [|? ? B0 B']. inversion_clear B' as [|? ? B1 _].
    exists [b0 / 4; (b0 mod 4) * 16 + b1 / 16; (b1 mod 16) * 4], [61].
    split; [reflexivity|]. split.
    { repeat constructor; Z.to_euclidean_division_equations; lia. }
    split; [|auto].
    cbn [sextetsToBytes].
    f_equal; [|f_equal]; Z.to_euclidean_division_equations; lia.
  - inversion_clear B as [|? ? B0 B']. inversion_clear B' as [|? ? B1 B''].
    inversion_clear B'' as [|? ? B2 B].
    destruct (IH B) as [vs [pad [E [Sx [D L]]]]].
    exists (b0 / 4 :: (b0 mod 4) * 16 + b1 / 16
            :: (b1 mod 16) * 4 + b2 / 64 :: b2 mod 64 :: vs), pad.
    split; [cbn [btoa map app]; now rewrite E|]. split.
    { repeat constructor; try assumption;
        Z.to_euclidean_division_equations; lia. }
    split.
    + cbn [sextetsToBytes]. rewrite D.
      f_equal; [|f_equal; [|f_equal]]; Z.to_euclidean_division_equations; lia.
    + cbn [List.length].
      destruct L as [[-> L] | [[-> L] | [-> L]]];
        [left | right; left | right; right]; (split; [reflexivity | lia]).
Qed.

Lemma base64Char_not_pad (vs : list Z) (c : Z) :
  Forall sextet vs -> In c (map base64Char vs) -> (c =? 61) = false.
Proof.
  intros Sx I. apply in_map_iff in I as [v [<- I]].
  rewrite Forall_forall in Sx. now apply base64Char_facts, Sx.
Qed.

Lemma dropPadding_btoa (vs : list Z) (pad : JSString) :
  Forall sextet vs ->
  (pad = [] /\ Z.of_nat (List.length vs) mod 4 = 0)
  \/ (pad = [61] /\ Z.of_nat (List.length vs) mod 4 = 3)
  \/ (pad = [61; 61] /\ Z.of_nat (List.length vs) mod 4 = 2) ->
  dropPadding (map base64Char vs ++ pad) = map base64Char vs.
Proof.
  intros Sx L. unfold dropPadding.
  replace (Z.of_nat (List.length (map base64Char vs ++ pad)) mod 4 =? 0)
    with true.
  2:{ symmetry. apply Z.eqb_eq. rewrite length_app, length_map.
      destruct L as [[-> L] | [[-> L] | [-> L]]]; cbn [List.length]; lia. }
  rewrite rev_app_distr.
  assert (Body : forall c r,
            rev (map base64Char vs) = c :: r -> (c =? 61) = false).
  { intros c r E. apply (base64Char_not_pad vs c Sx).
    apply in_rev. rewrite E. now left. }
  destruct L as [[-> L] | [[-> L] | [-> L]]]; cbn [rev app].
  - rewrite app_nil_r.
    destruct (rev (map base64Char vs)) as [|c r] eqn:E; [reflexivity|].
    now rewrite (Body c r eq_refl).
  - change (61 =? 61) with true. cbv iota.
    destruct (rev (map base64Char vs)) as [|c r] eqn:E.
    + rewrite <- (rev_involutive (map base64Char vs)), E. reflexivity.
    + rewrite (Body c r eq_refl), <- E. apply rev_involutive.
  - change (61 =? 61) with true. cbv iota. apply rev_involutive.
Qed.

(** [atob] reads back what [btoa] wrote. *)
Lemma atob_btoa (bs : Bytes) :
  Forall is_byte bs -> atob (btoa bs) = Some bs.
Proof.
  intros B. destruct (btoa_shape bs B) as [vs [pad [E [Sx [D L]]]]].
  unfold atob. rewrite E.
  rewrite filter_all.
  2:{ apply Forall_app. split.
      - apply Forall_forall. intros c I. apply in_map_iff in I as [v [<- I]].
        rewrite Forall_forall in Sx.
        now rewrite (proj1 (proj2 (base64Char_facts v (Sx v I)))).
      - destruct L as [[-> _] | [[-> _] | [-> _]]]; repeat constructor. }
  rewrite (dropPadding_btoa vs pad Sx L), length_map.
  replace (Z.of_nat (List.length vs) mod 4 =? 1) with false.
  2:{ symmetry. apply Z.eqb_neq.
      destruct L as [[_ L] | [[_ L] | [_ L]]]; lia. }
  now rewrite (base64Values_chars vs Sx), D.
Qed.

End Base64.
(** ** UTF-8 and UTF-16 *)

Section Unicode.
Import Codec.

(** Decides the comparisons of the goal that linear arithmetic decides. *)
Ltac decide_tests :=
  repeat match goal with
         | |- context [?a <=? ?b] =>
             first [ rewrite (proj2 (Z.leb_le a b)) by lia
                   | rewrite (proj2 (Z.leb_gt a b)) by lia ]
         | |- context [?a <? ?b] =>
             first [ rewrite (proj2 (Z.ltb_lt a b)) by lia
                   | rewrite (proj2 (Z.ltb_ge a b)) by lia ]
         | |- context [?a =? ?b] =>
             first [ rewrite (proj2 (Z.eqb_eq a b)) by lia
                   | rewrite (proj2 (Z.eqb_neq a b)) by lia ]
         end;
  cbn [andb orb negb].

Lemma utf8_lead_1 (b : Z) : b <= 127 -> utf8_lead b = (utf8_init, [b]).
Proof. intros. unfold utf8_lead. now decide_tests. Qed.

Lemma utf8_lead_2 (b : Z) :
  194 <= b <= 223 ->
  utf8_lead b =
  ({| codePoint := b mod 32; bytesSeen := 0; bytesNeeded := 1;
      lowerBoundary := 128; upperBoundary := 191 |}, []).
Proof. intros. unfold utf8_lead. now decide_tests. Qed.

Lemma utf8_lead_3 (b : Z) :
  224 <= b <= 239 ->
  utf8_lead b =
  ({| codePoint := b mod 16; bytesSeen := 0; bytesNeeded := 2;
      lowerBoundary := if b =? 224 then 160 else 128;
      upperBoundary := if b =? 237 then 159 else 191 |}, []).
Proof.
  intros. unfold utf8_lead.
  rewrite (proj2 (Z.leb_gt b 127)) by lia.
  rewrite (proj2 (Z.leb_le 194 b)), (proj2 (Z.leb_gt b 223)) by lia.
  rewrite (proj2 (Z.leb_le 224 b)), (proj2 (Z.leb_le b 239)) by lia.
  reflexivity.
Qed.

Lemma utf8_lead_4 (b : Z) :
  240 <= b <= 244 ->
  utf8_lead b =
  ({| codePoint := b mod 8; bytesSeen := 0; bytesNeeded := 3;
      lowerBoundary := if b =? 240 then 144 else 128;
      upperBoundary := if b =? 244 then 143 else 191 |}, []).
Proof.
  intros. unfold utf8_lead.
  rewrite (proj2 (Z.leb_gt b 127)) by lia.
  rewrite (proj2 (Z.leb_le 194 b)), (proj2 (Z.leb_gt b 223)) by lia.
  rewrite (proj2 (Z.leb_le 224 b)), (proj2 (Z.leb_gt b 239)) by lia.
  rewrite (proj2 (Z.leb_le 240 b)), (proj2 (Z.leb_le b 244)) by lia.
  reflexivity.
Qed.

(** A continuation byte within the boundaries, not the last one. *)
Lemma utf8_step_more (cp seen needed lo hi b : Z) :
  needed <> 0 -> lo <= b <= hi -> seen + 1 <> needed ->
  utf8_step {| codePoint := cp; bytesSeen := seen; bytesNeeded := needed;
               lowerBoundary := lo; upperBoundary := hi |} b =
  ({| codePoint := cp * 64 + b mod 64; bytesSeen := seen + 1;
      bytesNeeded := needed; lowerBoundary := 128; upperBoundary := 191 |},
   []).
Proof.
  intros. unfold utf8_step.
  cbn [bytesNeeded lowerBoundary upperBoundary codePoint bytesSeen].
  now decide_tests.
Qed.

(** The last continuation byte of a sequence. *)
Lemma utf8_step_last (cp seen needed lo hi b : Z) :
  needed <> 0 -> lo <= b <= hi -> seen + 1 = needed ->
  utf8_step {| codePoint := cp; bytesSeen := seen; bytesNeeded := needed;
               lowerBoundary := lo; upperBoundary := hi |} b =
  (utf8_init, [cp * 64 + b mod 64]).
Proof.
  intros. unfold utf8_step.
  cbn [bytesNeeded lowerBoundary upperBoundary codePoint bytesSeen].
  now decide_tests.
Qed.

Lemma utf8_run_init_cons (b : Z) (bs : Bytes) :
  utf8_run utf8_init (b :: bs) =
  let '(st, out) := utf8_lead b in out ++ utf8_run st bs.
Proof. reflexivity. Qed.

(** The decoder reads the encoding of a scalar value back, whatever
    follows. *)
Lemma utf8_run_encode (cp : Z) (rest : Bytes) :
  is_scalar cp ->
  utf8_run utf8_init (utf8_encode cp ++ rest) = cp :: utf8_run utf8_init rest.
Proof.
  intros Sc. unfold is_scalar in Sc. unfold utf8_encode.
  destruct (Z.ltb_spec cp 128) as [C1|C1];
    [|destruct (Z.ltb_spec cp 2048) as [C2|C2];
      [|destruct (Z.ltb_spec cp 65536) as [C3|C3]]];
    cbn [app]; rewrite utf8_run_init_cons.
  - rewrite utf8_lead_1 by lia. reflexivity.
  - rewrite utf8_lead_2 by lia. cbn [app utf8_run].
    rewrite utf8_step_last by lia. cbn [app]. f_equal. lia.
  - rewrite utf8_lead_3 by lia. cbn [app utf8_run].
    rewrite utf8_step_more.
    + cbn [app utf8_run]. rewrite utf8_step_last by lia.
      cbn [app]. f_equal. lia.
    + lia.
    + destruct (Z.eqb_spec (224 + cp / 4096) 224);
        destruct (Z.eqb_spec (224 + cp / 4096) 237); lia.
    + lia.
  - rewrite utf8_lead_4 by lia. cbn [app utf8_run].
    rewrite utf8_step_more.
    + cbn [app utf8_run]. rewrite utf8_step_more by lia.
      cbn [app utf8_run]. rewrite utf8_step_last by lia.
      cbn [app]. f_equal. lia.
    + lia.
    + destruct (Z.eqb_spec (240 + cp / 262144) 240);
        destruct (Z.eqb_spec (240 + cp / 262144) 244); lia.
    + lia.
Qed.

Lemma utf8_run_encode_all (cps : list Z) :
  Forall is_scalar cps ->
  utf8_run utf8_init (flat_map utf8_encode cps) = cps.
Proof.
  induction 1 as [|cp cps Sc _ IH]; [reflexivity|].
  cbn [flat_map]. now rewrite utf8_run_encode, IH.
Qed.

Lemma utf8_encode_bytes (cp : Z) :
  is_scalar cp -> Forall is_byte (utf8_encode cp).
Proof.
  unfold is_scalar, is_byte, utf8_encode. intros Sc.
  destruct (Z.ltb_spec cp 128); [|destruct (Z.ltb_spec cp 2048);
    [|destruct (Z.ltb_spec cp 65536)]]; repeat constructor; lia.
Qed.

Lemma isHighSurrogate_iff (c : Z) :
  isHighSurrogate c = true <-> 55296 <= c <= 56319.
Proof. unfold isHighSurrogate. now rewrite andb_true_iff, !Z.leb_le. Qed.

Lemma isLowSurrogate_iff (c : Z) :
  isLowSurrogate c = true <-> 56320 <= c <= 57343.
Proof. unfold isLowSurrogate. now rewrite andb_true_iff, !Z.leb_le. Qed.

Lemma isHighSurrogate_not (c : Z) :
  isHighSurrogate c = false <-> ~ 55296 <= c <= 56319.
Proof. rewrite <- isHighSurrogate_iff. now destruct (isHighSurrogate c). Qed.

Lemma isLowSurrogate_not (c : Z) :
  isLowSurrogate c = false <-> ~ 56320 <= c <= 57343.
Proof. rewrite <- isLowSurrogate_iff. now destruct (isLowSurrogate c). Qed.

(** The facts about the surrogate tests of the context, as inequalities. *)
Ltac surrogates :=
  repeat match goal with
         | H : isHighSurrogate _ = true |- _ => apply isHighSurrogate_iff in H
         | H : isHighSurrogate _ = false |- _ => apply isHighSurrogate_not in H
         | H : isLowSurrogate _ = true |- _ => apply isLowSurrogate_iff in H
         | H : isLowSurrogate _ = false |- _ => apply isLowSurrogate_not in H
         end.

(** A property of strings proved one code point at a time: for the empty
    string, for a string from its tail, and for a string from what follows
    its first two code units. *)
Lemma string_ind2 (P : JSString -> Prop) :
  P [] ->
  (forall c rest,
     P rest -> (forall d rest', rest = d :: rest' -> P rest') -> P (c :: rest)) ->
  forall s, P s.
Proof.
  intros H0 H1.
  assert (H : forall s, P s /\ (forall c, P (c :: s))).
  { induction s as [|d s [IH0 IH1]].
    - split; [exact H0|]. intros c. apply H1; [exact H0 | discriminate].
    - split; [apply IH1|]. intros c. apply H1; [apply IH1|].
      intros d' rest' E. injection E as _ <-. exact IH0. }
  intros s. apply H.
Qed.

Lemma toScalarValues_scalar (s : JSString) :
  Forall is_code_unit s -> Forall is_scalar (toScalarValues s).
Proof.
  unfold is_code_unit, is_scalar.
  induction s as [|c rest IH IH2] using string_ind2; intros U;
    [constructor|].
  inversion_clear U as [|? ? Uc Ur]. cbn [toScalarValues].
  destruct (isHighSurrogate c) eqn:Hc.
  - destruct rest as [|d rest']; [repeat constructor; lia|].
    inversion Ur as [|? ? Ud Ur']; subst.
    destruct (isLowSurrogate d) eqn:Ld; surrogates.
    + constructor; [lia | now apply (IH2 d rest')].
    + constructor; [lia | now apply IH].
  - destruct (isLowSurrogate c) eqn:Lc; surrogates;
      (constructor; [lia | now apply IH]).
Qed.

(** The code units of a well-formed string are those of its code
    points. *)
Lemma utf16_of_scalars (s : JSString) :
  Forall is_code_unit s -> isWellFormed s = true ->
  flat_map utf16_encode (toScalarValues s) = s.
Proof.
  unfold is_code_unit.
  induction s as [|c rest IH IH2] using string_ind2; intros U W;
    [reflexivity|].
  inversion_clear U as [|? ? Uc Ur].
  cbn [toScalarValues isWellFormed] in *.
  destruct (isHighSurrogate c) eqn:Hc.
  - destruct rest as [|d rest']; [discriminate|].
    inversion Ur as [|? ? Ud Ur']; subst.
    apply andb_prop in W as [Ld W]. rewrite Ld. surrogates.
    cbn [flat_map]. rewrite (IH2 d rest' eq_refl Ur' W).
    unfold utf16_encode.
    rewrite (proj2 (Z.ltb_ge _ 65536)) by lia.
    cbn [app]. f_equal; [|f_equal]; lia.
  - apply andb_prop in W as [Lc W]. apply negb_true_iff in Lc. rewrite Lc.
    cbn [flat_map]. rewrite (IH Ur W). unfold utf16_encode.
    now rewrite (proj2 (Z.ltb_lt c 65536)) by lia.
Qed.

Lemma stripBOM_toScalarValues (s : JSString) :
  startsWith s [65279] = false ->
  stripBOM (toScalarValues s) = toScalarValues s.
Proof.
  destruct s as [|c rest]; [reflexivity|].
  cbn [startsWith]. rewrite andb_true_r. intros N. apply Z.eqb_neq in N.
  cbn [toScalarValues].
  destruct (isHighSurrogate c) eqn:Hc.
  - destruct rest as [|d rest']; [reflexivity|].
    destruct (isLowSurrogate d) eqn:Ld; surrogates; cbn [stripBOM];
      [rewrite (proj2 (Z.eqb_neq _ 65279)) by lia|]; reflexivity.
  - destruct (isLowSurrogate c) eqn:Lc; cbn [stripBOM]; [reflexivity|].
    now rewrite (proj2 (Z.eqb_neq c 65279)).
Qed.

(** Decoding reads back the encoding of a well-formed string that does not
    begin with U+FEFF. *)
Lemma decode_encode (s : JSString) :
  Forall is_code_unit s -> isWellFormed s = true ->
  startsWith s [65279] = false ->
  TextDecoder_decode (TextEncoder_encode s) = s.
Proof.
  intros U W N. unfold TextDecoder_decode, TextEncoder_encode.
  rewrite utf8_run_encode_all by now apply toScalarValues_scalar.
  rewrite stripBOM_toScalarValues by exact N.
  now apply utf16_of_scalars.
Qed.

Lemma TextEncoder_encode_bytes (s : JSString) :
  Forall is_code_unit s -> Forall is_byte (TextEncoder_encode s).
Proof.
  intros U. apply toScalarValues_scalar in U. unfold TextEncoder_encode.
  induction U as [|cp cps Sc _ IH]; [constructor|].
  cbn [flat_map]. apply Forall_app. split; [|exact IH].
  now apply utf8_encode_bytes.
Qed.

End Unicode.
(** ** AES-GCM: decryption undoes encryption *)

Section Gcm.

Lemma xor_bytes_length (a b : Bytes) :
  (List.length a <= List.length b)%nat ->
  List.length (AES.xor_bytes a b) = List.length a.
Proof.
  intros L. unfold AES.xor_bytes. rewrite length_map, length_combine. lia.
Qed.

Lemma xor_bytes_twice (p ks : Bytes) :
  (List.length p <= List.length ks)%nat ->
  AES.xor_bytes (AES.xor_bytes p ks) ks = p.
Proof.
  revert ks; induction p as [|x p IH]; intros [|k ks] L;
    try reflexivity; [simpl in L; lia|].
  unfold AES.xor_bytes in *. cbn [combine map fst snd].
  rewrite IH by (simpl in L; lia).
  now rewrite Z.lxor_assoc, Z.lxor_nilpotent, Z.lxor_0_r.
Qed.

Lemma xor_bytes_bytes (a b : Bytes) :
  Forall is_byte a -> Forall is_byte b -> Forall is_byte (AES.xor_bytes a b).
Proof.
  intros A; revert b; induction A as [|x a Hx _ IH]; intros b B;
    [constructor|].
  destruct B as [|y b Hy B]; [constructor|].
  unfold AES.xor_bytes in *. cbn [combine map fst snd].
  constructor; [now apply lxor_byte | now apply IH].
Qed.

Lemma keystream_length (rks : list Bytes) (n : nat) (cb : Z) :
  List.length (AES.keystream rks n cb) = (16 * n)%nat.
Proof.
  revert cb; induction n as [|n IH]; intros cb; [reflexivity|].
  cbn [AES.keystream]. rewrite length_app, be_bytes_length, IH. lia.
Qed.

Lemma keystream_bytes (rks : list Bytes) (n : nat) (cb : Z) :
  Forall is_byte (AES.keystream rks n cb).
Proof.
  revert cb; induction n as [|n IH]; intros cb; [constructor|].
  cbn [AES.keystream]. apply Forall_app. split;
    [apply be_bytes_bytes | apply IH].
Qed.

Lemma keystream_covers (rks : list Bytes) (data : Bytes) (cb : Z) :
  (List.length data <=
   List.length (AES.keystream rks ((List.length data + 15) / 16) cb))%nat.
Proof.
  rewrite keystream_length.
  pose proof (Nat.div_mod_eq (List.length data + 15) 16).
  pose proof (Nat.mod_upper_bound (List.length data + 15) 16).
  lia.
Qed.

Lemma GCTR_length (rks : list Bytes) (icb : Z) (data : Bytes) :
  List.length (AES.GCTR rks icb data) = List.length data.
Proof. apply xor_bytes_length, keystream_covers. Qed.

(** Counter mode is its own inverse. *)
Lemma GCTR_twice (rks : list Bytes) (icb : Z) (data : Bytes) :
  AES.GCTR rks icb (AES.GCTR rks icb data) = data.
Proof.
  unfold AES.GCTR at 1. rewrite GCTR_length. unfold AES.GCTR.
  apply xor_bytes_twice, keystream_covers.
Qed.

Lemma bytes_eqb_refl (a : Bytes) : AES.bytes_eqb a a = true.
Proof.
  induction a as [|x a IH]; [reflexivity|].
  cbn [AES.bytes_eqb]. now rewrite Z.eqb_refl, IH.
Qed.

Lemma tag_length rks H j0 aad ct :
  List.length (AES.tag rks H j0 aad ct) = 16%nat.
Proof. apply be_bytes_length. Qed.

(** Whatever the key, the nonce and the data: what was encrypted decrypts
    to the data. *)
Lemma gcm_decrypt_encrypt (key iv data : Bytes) :
  AES.gcm_decrypt key iv (AES.gcm_encrypt key iv data) = Some data.
Proof.
  unfold AES.gcm_decrypt, AES.gcm_encrypt. cbv zeta.
  set (rks := AES.KeyExpansion key). set (H := AES.CIPH rks 0).
  set (j0 := AES.J0 H iv). set (ct := AES.GCTR rks (AES.inc32 j0) data).
  set (t := AES.tag rks H j0 [] ct).
  assert (N : (List.length (ct ++ t) - 16 = List.length ct)%nat).
  { rewrite length_app. unfold t. rewrite tag_length. lia. }
  rewrite N, firstn_exact, skipn_exact.
  replace (List.length (ct ++ t) <? 16)%nat with false.
  2:{ symmetry. apply Nat.ltb_ge. rewrite length_app. unfold t.
      rewrite tag_length. lia. }
  fold t. rewrite bytes_eqb_refl. unfold ct. now rewrite GCTR_twice.
Qed.

Lemma gcm_encrypt_bytes (key iv data : Bytes) :
  Forall is_byte data -> Forall is_byte (AES.gcm_encrypt key iv data).
Proof.
  intros D. unfold AES.gcm_encrypt. cbv zeta. apply Forall_app. split.
  - apply xor_bytes_bytes; [exact D | apply keystream_bytes].
  - apply be_bytes_bytes.
Qed.

End Gcm.

(** ** Messages: encryption and decryption *)

Section Messages.
Import Exn.

(** C8, as stated, fails. Under a key of 32 zero bytes and a nonce of 12
    zero bytes, a message that begins with U+FEFF comes back without it,
    and an unpaired surrogate comes back as U+FFFD. *)
Lemma decrypt_encrypt_loses_some_strings :
  (let m := 65279 :: js "hi" in
   let e := CryptoService.encryptMessage (repeat 0 32) (repeat 0 12) m in
   CryptoService.decryptMessage (repeat 0 32)
     (CryptoService.ciphertext e) (CryptoService.iv e) = Ok (js "hi")
   /\ js "hi" <> m)
  /\ (let m := [55296] in
      let e := CryptoService.encryptMessage (repeat 0 32) (repeat 0 12) m in
      CryptoService.decryptMessage (repeat 0 32)
        (CryptoService.ciphertext e) (CryptoService.iv e) = Ok [65533]).
Proof.
  split.
  - split; [vm_compute; reflexivity | discriminate].
  - vm_compute. reflexivity.
Qed.

(** C8, amended. For every key, every nonce and every string that has no
    unpaired surrogate and does not begin with U+FEFF, decrypting what
    [encryptMessage] returned, under the same key, returns the string. *)
Theorem decrypt_encrypt_round_trip
    (key : CryptoService.CryptoKey) (ivBytes : Bytes) (m : JSString) :
  Forall is_byte ivBytes ->
  Forall is_code_unit m ->
  Codec.isWellFormed m = true ->
  startsWith m [65279] = false ->
  let e := CryptoService.encryptMessage key ivBytes m in
  CryptoService.decryptMessage key
    (CryptoService.ciphertext e) (CryptoService.iv e) = Ok m.
Proof.
  intros I U W N e. subst e.
  unfold CryptoService.decryptMessage, CryptoService.encryptMessage.
  cbn [CryptoService.ciphertext CryptoService.iv].
  unfold CryptoService.bufferToBase64.
  rewrite (atob_btoa ivBytes I). cbn [orThrow bind].
  rewrite atob_btoa
    by now apply gcm_encrypt_bytes, TextEncoder_encode_bytes.
  cbn [orThrow bind]. rewrite gcm_decrypt_encrypt. cbn [orThrow bind].
  now rewrite decode_encode.
Qed.

(** A message with an accented letter and a character outside the Basic
    Multilingual Plane. *)
Lemma decrypt_encrypt_round_trip_witness :
  let m := js "caf" ++ [233; 32; 55357; 56832] in
  let e := CryptoService.encryptMessage (repeat 7 32) (repeat 1 12) m in
  CryptoService.decryptMessage (repeat 7 32)
    (CryptoService.ciphertext e) (CryptoService.iv e) = Ok m.
Proof.
  apply (decrypt_encrypt_round_trip (repeat 7 32) (repeat 1 12)).
  - repeat constructor; unfold is_byte; lia.
  - repeat constructor; unfold is_code_unit; lia.
  - reflexivity.
  - reflexivity.
Defined.

End Messages.

(** * Further properties of the code *)

(** ** [bufferToBase64], [bufferToHex] and [hashData] *)

Section Encodings.
Import Codec.

Lemma btoa_length (bs : Bytes) :
  Z.of_nat (List.length (btoa bs)) = 4 * ((Z.of_nat (List.length bs) + 2) / 3).
Proof.
  induction bs as [|b0|b0 b1|b0 b1 b2 bs IH] using list_ind3;
    try reflexivity.
  cbn [btoa List.length] in *. lia.
Qed.

(** X1. [bufferToBase64] loses nothing: [atob] reads the bytes of any
    buffer back from its text, and the text of a buffer of [n] bytes has
    [4 * ceil(n / 3)] characters. *)
Theorem bufferToBase64_lossless (buffer : Bytes) :
  Forall is_byte buffer ->
  atob (CryptoService.bufferToBase64 buffer) = Some buffer
  /\ Z.of_nat (List.length (CryptoService.bufferToBase64 buffer)) =
     4 * ((Z.of_nat (List.length buffer) + 2) / 3).
Proof.
  intros B. split; [now apply atob_btoa | apply btoa_length].
Qed.

(** A buffer of two bytes. *)
Lemma bufferToBase64_lossless_witness :
  atob (CryptoService.bufferToBase64 [77; 97]) = Some [77; 97]
  /\ Z.of_nat (List.length (CryptoService.bufferToBase64 [77; 97])) = 4.
Proof.
  apply (bufferToBase64_lossless [77; 97]).
  repeat constructor; unfold is_byte; lia.
Defined.

Lemma round_length (v : list Z) (kw : Z * Z) :
  List.length (SHA256.round v kw) = List.length v.
Proof.
  unfold SHA256.round.
  do 9 (destruct v as [|? v]; try reflexivity).
Qed.

Lemma rounds_length (kws : list (Z * Z)) (v : list Z) :
  List.length (fold_left SHA256.round kws v) = List.length v.
Proof.
  revert v; induction kws as [|kw kws IH]; intros v; [reflexivity|].
  cbn [fold_left]. now rewrite IH, round_length.
Qed.

Lemma compress_length (h : list Z) (block : Bytes) :
  List.length (SHA256.compress h block) = List.length h.
Proof.
  unfold SHA256.compress.
  rewrite length_map, length_combine, rounds_length. lia.
Qed.

Lemma compress_all_length (blocks : list Bytes) (h : list Z) :
  List.length (fold_left SHA256.compress blocks h) = List.length h.
Proof.
  revert h; induction blocks as [|b blocks IH]; intros h; [reflexivity|].
  cbn [fold_left]. now rewrite IH, compress_length.
Qed.

Lemma be_bytes_all_length (n : nat) (ws : list Z) :
  List.length (flat_map (be_bytes n) ws) = (n * List.length ws)%nat.
Proof.
  induction ws as [|w ws IH]; cbn [flat_map List.length]; [lia|].
  rewrite length_app, be_bytes_length, IH. lia.
Qed.

Lemma be_bytes_all_bytes (n : nat) (ws : list Z) :
  Forall is_byte (flat_map (be_bytes n) ws).
Proof.
  induction ws as [|w ws IH]; cbn [flat_map]; [constructor|].
  apply Forall_app. split; [apply be_bytes_bytes | exact IH].
Qed.

(** A digest is 32 bytes. *)
Lemma digest_length (msg : Bytes) : List.length (SHA256.digest msg) = 32%nat.
Proof.
  unfold SHA256.digest. cbv zeta.
  now rewrite be_bytes_all_length, compress_all_length.
Qed.

Lemma digest_bytes (msg : Bytes) : Forall is_byte (SHA256.digest msg).
Proof. apply be_bytes_all_bytes. Qed.

Lemma hexDigit_lower (d : Z) :
  0 <= d < 16 -> ChatView.isLowerHex (hexDigit d) = true.
Proof.
  intros D. unfold ChatView.isLowerHex, hexDigit.
  apply orb_true_iff. rewrite !andb_true_iff, !Z.leb_le.
  destruct (Z.ltb_spec d 10); lia.
Qed.

Lemma bufferToHex_length (buffer : Bytes) :
  List.length (CryptoService.bufferToHex buffer) =
  (2 * List.length buffer)%nat.
Proof.
  unfold CryptoService.bufferToHex.
  induction buffer as [|b buffer IH]; cbn [flat_map List.length app];
    [reflexivity | rewrite IH; lia].
Qed.

Lemma bufferToHex_lower (buffer : Bytes) :
  Forall is_byte buffer ->
  forallb ChatView.isLowerHex (CryptoService.bufferToHex buffer) = true.
Proof.
  unfold CryptoService.bufferToHex, is_byte.
  induction 1 as [|b buffer B _ IH]; [reflexivity|].
  cbn [flat_map app forallb].
  rewrite !hexDigit_lower by lia. exact IH.
Qed.

(** X2. Whatever the text, [hashData] returns 64 characters, each a digit
    or a letter from [a] to [f]. *)
Theorem hashData_is_64_hex_digits (data : JSString) :
  List.length (CryptoService.hashData data) = 64%nat
  /\ forallb ChatView.isLowerHex (CryptoService.hashData data) = true.
Proof.
  unfold CryptoService.hashData. cbv zeta. split.
  - now rewrite bufferToHex_length, digest_length.
  - apply bufferToHex_lower, digest_bytes.
Qed.

End Encodings.

(** ** [decryptMessage] and the envelope of a message *)

Section Envelope.
Import Codec Exn Types.

Lemma sextetsToBytes_length (vs : list Z) :
  4 * Z.of_nat (List.length (sextetsToBytes vs)) <=
  3 * Z.of_nat (List.length vs).
Proof.
  assert (H : forall n vs, (List.length vs <= n)%nat ->
              4 * Z.of_nat (List.length (sextetsToBytes vs)) <=
              3 * Z.of_nat (List.length vs)).
  { induction n as [|n IH]; intros l L.
    - destruct l; [simpl; lia | simpl in L; lia].
    - destruct l as [|v0 [|v1 [|v2 [|v3 rest]]]];
        cbn [sextetsToBytes List.length] in *; try lia.
      assert (R := IH rest). lia. }
  now apply (H (List.length vs)).
Qed.

Lemma base64Values_length (s : JSString) (vs : list Z) :
  base64Values s = Some vs -> List.length vs = List.length s.
Proof.
  revert vs; induction s as [|c s IH]; intros vs; cbn [base64Values].
  - now intros [= <-].
  - destruct (base64Value c); [|discriminate].
    destruct (base64Values s) as [ws|]; [|discriminate].
    intros [= <-]. cbn [List.length]. now rewrite (IH ws).
Qed.

Lemma dropPadding_length (s : JSString) :
  (List.length (dropPadding s) <= List.length s)%nat.
Proof.
  unfold dropPadding.
  destruct (Z.of_nat (List.length s) mod 4 =? 0); [|lia].
  assert (L := length_rev s).
  destruct (rev s) as [|c1 r1]; [lia|].
  destruct (c1 =? 61); [|lia].
  destruct r1 as [|c2 r2]; [simpl in *; lia|].
  destruct (c2 =? 61); rewrite length_rev; simpl in *; lia.
Qed.

(** [atob] returns at most three bytes for four characters. *)
Lemma atob_length (s : JSString) (data : Bytes) :
  atob s = Some data ->
  4 * Z.of_nat (List.length data) <= 3 * Z.of_nat (List.length s).
Proof.
  unfold atob. cbv zeta.
  set (s1 := filter (fun c => negb (isAsciiWhitespace c)) s).
  destruct (Z.of_nat (List.length (dropPadding s1)) mod 4 =? 1);
    [discriminate|].
  destruct (base64Values (dropPadding s1)) as [vs|] eqn:V; [|discriminate].
  intros [= <-].
  assert (L1 := sextetsToBytes_length vs).
  assert (L2 := base64Values_length _ _ V).
  assert (L3 := dropPadding_length s1).
  assert (L4 : (List.length s1 <= List.length s)%nat)
    by apply filter_length_le.
  lia.
Qed.

(** X3. A ciphertext text of fewer than 22 characters holds less than the
    16-byte tag: [decryptMessage] never returns a text for it, it throws
    InvalidCharacterError or OperationError, whatever the key and the
    nonce. *)
Theorem decryptMessage_rejects_short_ciphertext
    (key : CryptoService.CryptoKey) (ciphertext ivStr : JSString) :
  (List.length ciphertext < 22)%nat ->
  CryptoService.decryptMessage key ciphertext ivStr =
    Throw InvalidCharacterError
  \/ CryptoService.decryptMessage key ciphertext ivStr = Throw OperationError.
Proof.
  intros L. unfold CryptoService.decryptMessage.
  destruct (atob ivStr) as [iv|]; cbn [orThrow bind]; [|now left].
  destruct (atob ciphertext) as [data|] eqn:A; cbn [orThrow bind];
    [|now left].
  apply atob_length in A.
  unfold AES.gcm_decrypt. cbv zeta.
  replace (List.length data <? 16)%nat with true.
  - now right.
  - symmetry. apply Nat.ltb_lt. lia.
Qed.

(** The base64 text of twelve bytes. *)
Lemma decryptMessage_rejects_short_witness :
  CryptoService.decryptMessage (repeat 7 32) (js "AAAAAAAAAAAAAAAA")
    (js "AAAAAAAAAAAAAAAA") = Throw InvalidCharacterError
  \/ CryptoService.decryptMessage (repeat 7 32) (js "AAAAAAAAAAAAAAAA")
       (js "AAAAAAAAAAAAAAAA") = Throw OperationError.
Proof.
  apply decryptMessage_rejects_short_ciphertext. vm_compute. lia.
Defined.

Lemma base64Char_not_colon (v : Z) :
  sextet v -> (base64Char v =? 58) = false.
Proof.
  intros Sx. apply sextet_cases in Sx.
  assert (A : forallb (fun v => negb (base64Char v =? 58))
                      (map Z.of_nat (seq 0 64)) = true)
    by (vm_compute; reflexivity).
  rewrite forallb_forall in A. now apply negb_true_iff, A.
Qed.

(** No colon in base64 text. *)
Lemma btoa_no_colon (bs : Bytes) :
  Forall is_byte bs -> Forall (fun c => (c =? 58) = false) (btoa bs).
Proof.
  intros B. destruct (btoa_shape bs B) as [vs [pad [E [Sx [_ L]]]]].
  rewrite E. apply Forall_app. split.
  - apply Forall_forall. intros c I. apply in_map_iff in I as [v [<- I]].
    rewrite Forall_forall in Sx. now apply base64Char_not_colon, Sx.
  - destruct L as [[-> _] | [[-> _] | [-> _]]]; repeat constructor.
Qed.

Lemma split_none (sep : Z) (s : JSString) :
  Forall (fun c => (c =? sep) = false) s -> ChatView.split sep s = [s].
Proof.
  induction 1 as [|c s C _ IH]; [reflexivity|].
  cbn [ChatView.split]. now rewrite C, IH.
Qed.

(** A text with one separator splits in two at it. *)
Lemma split_once (sep : Z) (a b : JSString) :
  Forall (fun c => (c =? sep) = false) a ->
  Forall (fun c => (c =? sep) = false) b ->
  ChatView.split sep (a ++ sep :: b) = [a; b].
Proof.
  intros A B. induction A as [|c a C _ IH]; cbn [app ChatView.split].
  - now rewrite Z.eqb_refl, split_none.
  - now rewrite C, IH.
Qed.

(** What was encrypted decrypts, under the same key, to the text as its
    UTF-8 encoding reads. *)
Lemma decryptMessage_encryptMessage
    (key : CryptoService.CryptoKey) (ivBytes : Bytes) (m : JSString) :
  Forall is_byte ivBytes -> Forall is_code_unit m ->
  CryptoService.decryptMessage key
    (CryptoService.ciphertext (CryptoService.encryptMessage key ivBytes m))
    (CryptoService.iv (CryptoService.encryptMessage key ivBytes m)) =
  Ok (TextDecoder_decode (TextEncoder_encode m)).
Proof.
  intros I U.
  unfold CryptoService.decryptMessage, CryptoService.encryptMessage.
  cbn [CryptoService.ciphertext CryptoService.iv].
  unfold CryptoService.bufferToBase64.
  rewrite (atob_btoa ivBytes I). cbn [orThrow bind].
  rewrite atob_btoa
    by now apply gcm_encrypt_bytes, TextEncoder_encode_bytes.
  cbn [orThrow bind]. rewrite gcm_decrypt_encrypt. reflexivity.
Qed.

End Envelope.

(** ** The conversation: [handleSendMessage], the simulated reply and the
       handshake over time *)

Section Conversation.
Import Codec Exn Types JSON.

Lemma run_reachable (st : Chat.State) (timers : list Chat.Timer) :
  ChatRun.reachable st timers -> Chat.reachable st.
Proof. induction 1; now constructor. Qed.

(** Once a key is held, [initSession] has returned. *)
Lemma key_held_settled (st : Chat.State) (key : CryptoService.CryptoKey) :
  Chat.reachable st -> Chat.aesKey st = Some key ->
  Chat.pending st = Chat.Settled.
Proof.
  intros Hr K. destruct (reachable_key_only_when_secure st Hr) as [P _].
  destruct (Chat.pending st); try reflexivity;
    (rewrite P in K by discriminate; discriminate).
Qed.

Lemma responses_code_units (choice : nat) :
  Forall is_code_unit (nth choice Chat.responses []).
Proof.
  assert (A : Forall (Forall is_code_unit) Chat.responses).
  { unfold Chat.responses.
    repeat (apply Forall_cons; [apply Forall_forall; intros c I;
      apply in_map_iff in I as [a [<- _]]; unfold is_code_unit;
      destruct a as [[] [] [] [] [] [] [] []]; cbn; lia|]).
    constructor. }
  rewrite Forall_forall in A.
  destruct (nth_in_or_default choice Chat.responses []) as [I | ->];
    [now apply A | constructor].
Qed.

(** The envelope [encryptMessage] and [hashData] give a text: two base64
    texts around one colon, of which the second decrypts under the key. *)
Lemma envelope_opens (key : CryptoService.CryptoKey) (ivBytes : Bytes)
    (text : JSString) :
  Forall is_byte ivBytes -> Forall is_code_unit text ->
  let enc := CryptoService.encryptMessage key ivBytes text in
  ChatView.split 58
    (CryptoService.iv enc ++ 58 :: CryptoService.ciphertext enc) =
    [CryptoService.iv enc; CryptoService.ciphertext enc]
  /\ CryptoService.decryptMessage key (CryptoService.ciphertext enc)
       (CryptoService.iv enc) =
     Ok (TextDecoder_decode (TextEncoder_encode text)).
Proof.
  intros I U enc. split.
  - apply split_once; apply btoa_no_colon; [exact I|].
    now apply gcm_encrypt_bytes, TextEncoder_encode_bytes.
  - now apply decryptMessage_encryptMessage.
Qed.

(** What holds of the chat and its timers at every moment. *)
Lemma conversation_invariant (st : Chat.State) (timers : list Chat.Timer) :
  ChatRun.reachable st timers ->
  Forall is_code_unit (Chat.inputText st)
  /\ match Chat.aesKey st with
     | None => Chat.messages st = [] /\ timers = []
     | Some key =>
         Forall (fun t => t = Chat.Echo 1500 key) timers
         /\ Forall
              (fun m =>
                 isSystem m = false ->
                 exists iv ct,
                   ChatView.split 58 (encryptedContent m) = [iv; ct]
                   /\ CryptoService.decryptMessage key ct iv =
                      Ok (TextDecoder_decode (TextEncoder_encode (content m)))
                   /\ integrityHash m = CryptoService.hashData ct)
              (Chat.messages st)
     end.
Proof.
  induction 1 as [|st timers e Hr [IU IH] NF T
                  |st before after t choice ivBytes uuid now Hr [IU IH] I].
  - split; [constructor | now split].
  - assert (Rs := run_reachable _ _ Hr).
    assert (Same : forall st',
              Chat.inputText st' = Chat.inputText st ->
              Chat.aesKey st' = Chat.aesKey st ->
              Chat.messages st' = Chat.messages st ->
              Forall is_code_unit (Chat.inputText st')
              /\ match Chat.aesKey st' with
                 | None => Chat.messages st' = [] /\ timers ++ [] = []
                 | Some key =>
                     Forall (fun t => t = Chat.Echo 1500 key) (timers ++ [])
                     /\ Forall
                          (fun m =>
                             isSystem m = false ->
                             exists iv ct,
                               ChatView.split 58 (encryptedContent m) =
                                 [iv; ct]
                               /\ CryptoService.decryptMessage key ct iv =
                                  Ok (TextDecoder_decode
                                        (TextEncoder_encode (content m)))
                               /\ integrityHash m = CryptoService.hashData ct)
                          (Chat.messages st')
                 end).
    { intros st' -> -> ->. rewrite app_nil_r. now split. }
    destruct e as [|s|text|kws u ivBytes uuid now|t choice ivBytes uuid now
                   |confirmed|shown]; cbn [Chat.handle];
      try discriminate NF.
    + (* Mount *)
      unfold Chat.initSession. cbn [Chat.skip Chat.next Chat.scheduled].
      destruct (Chat.pending st); now apply Same.
    + (* Settle *)
      unfold Chat.resume.
      destruct (Chat.pending st) eqn:P; destruct s as [[r|]|[r|]|[r|] now];
        cbn [Chat.skip Chat.next Chat.scheduled Chat.handshakeFailed];
        try (now apply Same).
      destruct (CryptoService.importAESKey r) as [k|];
        [|cbn [Chat.next Chat.scheduled Chat.handshakeFailed];
          now apply Same].
      destruct (reachable_key_only_when_secure st Rs) as [E _].
      rewrite E in IH by (rewrite P; discriminate).
      destruct IH as [_ ->]. cbn. split; [exact IU|]. split; [constructor|].
      constructor; [discriminate | constructor].
    + (* Type_ *)
      cbn [Chat.skip Chat.next Chat.scheduled]. cbn in T.
      cbn [Chat.setInputText Chat.inputText Chat.aesKey Chat.messages].
      rewrite app_nil_r. now split.
    + (* Submit *)
      unfold Chat.handleSendMessage.
      destruct (negb (truthy (trim (Chat.inputText st))));
        [cbn [Chat.skip Chat.next Chat.scheduled]; now apply Same|].
      destruct (Chat.aesKey st) as [key|] eqn:K;
        [|cbn [Chat.skip Chat.next Chat.scheduled]; apply Same;
          [reflexivity | exact K | reflexivity]].
      cbn in T.
      cbn [Chat.next Chat.scheduled Chat.setMessages Chat.setInputText
           Chat.inputText Chat.aesKey Chat.messages].
      rewrite K. split; [constructor|]. destruct IH as [IT IM]. split.
      * apply Forall_app. split; [exact IT | now constructor].
      * apply Forall_app. split; [exact IM|]. constructor; [|constructor].
        intros _. cbn [encryptedContent content integrityHash].
        destruct (envelope_opens key ivBytes (Chat.inputText st) T IU)
          as [E1 E2].
        do 2 eexists. split; [exact E1|]. split; [exact E2 | reflexivity].
    + (* Report *)
      unfold Chat.handleReportIncident.
      destruct confirmed; cbn [Chat.skip Chat.next Chat.scheduled];
        now apply Same.
    + (* Modal *)
      cbn [Chat.skip Chat.next Chat.scheduled]. now apply Same.
  - (* a timer fires *)
    destruct (Chat.aesKey st) as [key|] eqn:K.
    2:{ destruct IH as [_ E]. now destruct before. }
    destruct IH as [IT IM].
    apply Forall_app in IT as [IB IA]. inversion IA as [|? ? -> IA']; subst.
    cbn [Chat.handle]. unfold Chat.echo.
    cbn [Chat.next Chat.setMessages Chat.inputText Chat.aesKey Chat.messages].
    rewrite K. split; [exact IU|]. split.
    + apply Forall_app. now split.
    + apply Forall_app. split; [exact IM|]. constructor; [|constructor].
      intros _. cbn [encryptedContent content integrityHash].
      destruct (envelope_opens key ivBytes
                  (nth (choice mod 5) Chat.responses []) I
                  (responses_code_units _)) as [E1 E2].
      do 2 eexists. split; [exact E1|]. split; [exact E2 | reflexivity].
Qed.

End Conversation.

Section ConversationFacts.
Import Codec Exn Types JSON.

Lemma run_next_eq st timers e st' timers' :
  ChatRun.reachable st timers -> ChatRun.isFire e = false ->
  ChatRun.typed e ->
  st' = Chat.next (Chat.handle e st) ->
  timers' = timers ++ Chat.scheduled (Chat.handle e st) ->
  ChatRun.reachable st' timers'.
Proof. intros R F T -> ->. now constructor. Qed.

Lemma js_code_units (s : string) : Forall is_code_unit (js s).
Proof.
  apply Forall_forall. intros c I. apply in_map_iff in I as [a [<- _]].
  unfold is_code_unit. destruct a as [[] [] [] [] [] [] [] []]; cbn; lia.
Qed.

Lemma repeat_bytes (b : Z) (n : nat) : is_byte b -> Forall is_byte (repeat b n).
Proof. intros B. induction n; now constructor. Qed.

#[local] Ltac run_step typing :=
  eapply (run_next_eq _ []); [| | |reflexivity|];
  [|reflexivity|typing|reflexivity].

Lemma typing_run : ChatRun.reachable Sample.typing [].
Proof.
  unfold Sample.typing.
  run_step ltac:(apply js_code_units). run_step ltac:(exact I).
  constructor.
Qed.

Lemma unwrapping_run : ChatRun.reachable Transcript.unwrapping [].
Proof.
  unfold Transcript.unwrapping.
  do 3 run_step ltac:(exact I). constructor.
Qed.

Lemma secure_run : ChatRun.reachable Sample.secure [].
Proof.
  unfold Sample.secure.
  run_step ltac:(apply js_code_units). run_step ltac:(exact I).
  exact unwrapping_run.
Qed.

Lemma sent_run :
  ChatRun.reachable (Chat.next Transcript.sent) [Chat.Echo 1500 (repeat 7 32)].
Proof.
  unfold Transcript.sent.
  run_step ltac:(apply repeat_bytes; unfold is_byte; lia).
  exact secure_run.
Qed.

Lemma replied_run : ChatRun.reachable (Chat.next Transcript.replied) [].
Proof.
  apply (ChatRun.reachable_fire (Chat.next Transcript.sent) [] []).
  - exact sent_run.
  - apply repeat_bytes. unfold is_byte. lia.
Qed.

(** X4. Every message of the conversation that is not a system message
    was sealed under the session key the chat holds: its
    [encryptedContent] splits at the colon into a nonce and a ciphertext,
    [decryptMessage] under that key returns the content (as its UTF-8
    encoding reads), and [integrityHash] is the hash of the ciphertext. *)
Theorem conversation_opens_under_session_key
    (st : Chat.State) (timers : list Chat.Timer) (m : Message) :
  ChatRun.reachable st timers -> In m (Chat.messages st) ->
  isSystem m = false ->
  exists key iv ct,
    Chat.aesKey st = Some key
    /\ ChatView.split 58 (encryptedContent m) = [iv; ct]
    /\ CryptoService.decryptMessage key ct iv =
       Ok (TextDecoder_decode (TextEncoder_encode (content m)))
    /\ integrityHash m = CryptoService.hashData ct.
Proof.
  intros R I S0. destruct (conversation_invariant st timers R) as [_ Inv].
  destruct (Chat.aesKey st) as [key|].
  - destruct Inv as [_ IM]. rewrite Forall_forall in IM.
    destruct (IM m I S0) as [iv [ct H]]. now exists key, iv, ct.
  - destruct Inv as [E _]. rewrite E in I. contradiction.
Qed.

(** The reply of the sample run. *)
Lemma conversation_opens_witness :
  let st := Chat.next Transcript.replied in
  let m := last (Chat.messages st) (Chat.welcome 0) in
  exists key iv ct,
    Chat.aesKey st = Some key
    /\ ChatView.split 58 (encryptedContent m) = [iv; ct]
    /\ CryptoService.decryptMessage key ct iv =
       Ok (TextDecoder_decode (TextEncoder_encode (content m)))
    /\ integrityHash m = CryptoService.hashData ct.
Proof.
  apply (conversation_opens_under_session_key _ [] _ replied_run).
  - vm_compute. right. right. left. reflexivity.
  - vm_compute. reflexivity.
Defined.

(** X5. While the chat holds no session key the conversation is empty and
    no reply is pending. *)
Theorem conversation_empty_without_key
    (st : Chat.State) (timers : list Chat.Timer) :
  ChatRun.reachable st timers -> Chat.aesKey st = None ->
  Chat.messages st = [] /\ timers = [].
Proof.
  intros R K. destruct (conversation_invariant st timers R) as [_ Inv].
  now rewrite K in Inv.
Qed.

Lemma conversation_empty_witness :
  Chat.messages Sample.typing = [] /\ @nil Chat.Timer = [].
Proof.
  apply (conversation_empty_without_key Sample.typing [] typing_run).
  reflexivity.
Defined.

(** X6. Every pending reply was set with a delay of 1500 ms and holds the
    session key of the chat: a reply is never encrypted under another
    key. *)
Theorem pending_replies_hold_session_key
    (st : Chat.State) (timers : list Chat.Timer) (t : Chat.Timer) :
  ChatRun.reachable st timers -> In t timers ->
  exists key, Chat.aesKey st = Some key /\ t = Chat.Echo 1500 key.
Proof.
  intros R I. destruct (conversation_invariant st timers R) as [_ Inv].
  destruct (Chat.aesKey st) as [key|].
  - destruct Inv as [IT _]. rewrite Forall_forall in IT.
    exists key. split; [reflexivity | now apply IT].
  - destruct Inv as [_ E]. rewrite E in I. contradiction.
Qed.

Lemma pending_replies_witness :
  exists key,
    Chat.aesKey (Chat.next Transcript.sent) = Some key
    /\ Chat.Echo 1500 (repeat 7 32) = Chat.Echo 1500 key.
Proof.
  apply (pending_replies_hold_session_key _ _ _ sent_run). now left.
Defined.

(** X7. The session key is set once: whatever happens to a chat that holds
    a key, also a late result of the handshake, it holds the same key and
    shows the same fingerprint and status afterwards. *)
Theorem session_key_set_once
    (st : Chat.State) (key : CryptoService.CryptoKey) (e : Chat.Event) :
  Chat.reachable st -> Chat.aesKey st = Some key ->
  Chat.aesKey (Chat.next (Chat.handle e st)) = Some key
  /\ Chat.sessionFingerprint (Chat.next (Chat.handle e st)) =
     Chat.sessionFingerprint st
  /\ Chat.handshakeStatus (Chat.next (Chat.handle e st)) = js "Secure".
Proof.
  intros R K. assert (P := key_held_settled st key R K).
  destruct (reachable_key_only_when_secure st R) as [_ [N | Sec]];
    [congruence|].
  destruct e as [|s|text|kws u ivBytes uuid now|[d k] choice ivBytes uuid now
                 |confirmed|shown]; cbn [Chat.handle].
  - unfold Chat.initSession. rewrite P. now cbn.
  - unfold Chat.resume. rewrite P. now cbn.
  - now cbn.
  - unfold Chat.handleSendMessage.
    destruct (negb (truthy (trim (Chat.inputText st)))); [now cbn|].
    rewrite K. now cbn.
  - now cbn.
  - unfold Chat.handleReportIncident. destruct confirmed; now cbn.
  - now cbn.
Qed.

(** A second unwrapped key that comes in after the handshake is over. *)
Lemma session_key_set_once_witness :
  let late :=
    Chat.Settle (Chat.UnwrapSettled (Some (repeat 1 16)) 1700000009000) in
  Chat.aesKey (Chat.next (Chat.handle late Sample.secure)) =
    Some (repeat 7 32)
  /\ Chat.sessionFingerprint (Chat.next (Chat.handle late Sample.secure)) =
     Chat.sessionFingerprint Sample.secure
  /\ Chat.handshakeStatus (Chat.next (Chat.handle late Sample.secure)) =
     js "Secure".
Proof.
  apply (session_key_set_once Sample.secure (repeat 7 32) _ secure_reachable).
  reflexivity.
Defined.

End ConversationFacts.

(** ** The send guard and the handshake *)

Section Handshake.
Import Codec Exn Types JSON.

Lemma trimStart_blank (s : JSString) :
  forallb isWhiteSpace s = true -> trimStart s = [].
Proof.
  induction s as [|c s IH]; [reflexivity|]. cbn [forallb trimStart].
  intros H. apply andb_true_iff in H as [-> H]. now apply IH.
Qed.

Lemma forallb_false_witness {A} (f : A -> bool) (l : list A) :
  forallb f l = false -> exists x, In x l /\ f x = false.
Proof.
  induction l as [|a l IH]; [discriminate|]. cbn [forallb].
  destruct (f a) eqn:E.
  - intros H. destruct (IH H) as [x [I F]]. exists x. split; [now right|].
    exact F.
  - intros _. exists a. split; [now left | exact E].
Qed.

(** A text trims to the empty string exactly when it is white space
    throughout. *)
Lemma trim_blank (s : JSString) :
  truthy (trim s) = false <-> forallb isWhiteSpace s = true.
Proof.
  destruct (forallb isWhiteSpace s) eqn:E.
  - split; [reflexivity|]. intros _. unfold trim, trimEnd.
    now rewrite (trimStart_blank s E).
  - apply forallb_false_witness in E as [c [I W]].
    rewrite (trim_truthy s c I W). split; discriminate.
Qed.

(** X8. [handleSendMessage] does nothing at all exactly when the typed
    text is white space throughout (the empty text included) or no
    session key is held. *)
Theorem send_skipped_iff_blank_or_no_key
    (kws : list JSString) (u : User) (ivBytes : Bytes) (uuid : JSString)
    (now : Z) (st : Chat.State) :
  Chat.handleSendMessage kws u ivBytes uuid now st = Chat.skip st <->
  forallb isWhiteSpace (Chat.inputText st) = true \/ Chat.aesKey st = None.
Proof.
  unfold Chat.handleSendMessage. rewrite <- trim_blank.
  destruct (truthy (trim (Chat.inputText st))); cbn [negb].
  2:{ split; [now left | reflexivity]. }
  destruct (Chat.aesKey st) as [key|].
  - split.
    + intros H. apply (f_equal Chat.scheduled) in H. discriminate.
    + intros [H | H]; discriminate.
  - split; [now right | reflexivity].
Qed.

Lemma toUpperCase_hex (s : JSString) :
  forallb ChatView.isLowerHex s = true ->
  List.length (toUpperCase s) = List.length s
  /\ forallb ChatView.isUpperHex (toUpperCase s) = true.
Proof.
  induction s as [|c s IH]; [now split|]. cbn [forallb].
  intros H. apply andb_true_iff in H as [C H]. destruct (IH H) as [L U].
  unfold ChatView.isLowerHex in C.
  apply orb_true_iff in C. rewrite !andb_true_iff, !Z.leb_le in C.
  assert (E : toUpperCodeUnit c = [c] /\ 48 <= c <= 57
              \/ toUpperCodeUnit c = [c - 32] /\ 97 <= c <= 102).
  { unfold toUpperCodeUnit. destruct C as [C | C]; [left | right].
    - replace ((97 <=? c) && (c <=? 122)) with false
        by (symmetry; apply andb_false_iff; left; apply Z.leb_gt; lia).
      replace ((224 <=? c) && (c <=? 246)) with false
        by (symmetry; apply andb_false_iff; left; apply Z.leb_gt; lia).
      replace ((248 <=? c) && (c <=? 254)) with false
        by (symmetry; apply andb_false_iff; left; apply Z.leb_gt; lia).
      cbn [orb].
      rewrite (proj2 (Z.eqb_neq c 223)), (proj2 (Z.eqb_neq c 181)),
        (proj2 (Z.eqb_neq c 255)) by lia.
      split; [reflexivity | lia].
    - replace ((97 <=? c) && (c <=? 122)) with true
        by (symmetry; apply andb_true_iff; rewrite !Z.leb_le; lia).
      split; [reflexivity | lia]. }
  cbn [toUpperCase flat_map].
  fold (toUpperCase s).
  destruct E as [[-> R] | [-> R]]; cbn [app List.length forallb];
    (split; [now rewrite L|]); rewrite U, andb_true_r;
    unfold ChatView.isUpperHex; apply orb_true_iff;
    rewrite !andb_true_iff, !Z.leb_le; lia.
Qed.

Lemma forallb_firstn {A} (f : A -> bool) (n : nat) (l : list A) :
  forallb f l = true -> forallb f (firstn n l) = true.
Proof.
  revert n; induction l as [|a l IH]; intros [|n]; try reflexivity.
  cbn [forallb firstn]. intros H. apply andb_true_iff in H as [-> H].
  now apply IH.
Qed.

(** The fingerprint [initSession] shows: sixteen digits or letters from
    [A] to [F]. *)
Lemma fingerprint_shape (encryptedSessionKey : Bytes) :
  let fingerprint :=
    toUpperCase
      (substring0 16
         (CryptoService.hashData
            (CryptoService.bufferToBase64 encryptedSessionKey))) in
  List.length fingerprint = 16%nat
  /\ forallb ChatView.isUpperHex fingerprint = true.
Proof.
  cbv zeta. unfold substring0.
  set (h := CryptoService.hashData _).
  assert (Hl : List.length h = 64%nat).
  { unfold h, CryptoService.hashData. cbv zeta.
    now rewrite bufferToHex_length, digest_length. }
  assert (Hx : forallb ChatView.isLowerHex h = true).
  { unfold h, CryptoService.hashData. apply bufferToHex_lower, digest_bytes. }
  destruct (toUpperCase_hex (firstn 16 h) (forallb_firstn _ 16 h Hx))
    as [L U].
  split; [|exact U]. rewrite L, length_firstn, Hl. reflexivity.
Qed.

(** X9. A handshake whose three awaited results arrive, the last one a key
    of 16, 24 or 32 bytes: the status goes through its four texts, the
    key is held only after the last step and is the unwrapped one, the
    conversation is the welcome message, and exactly one event is logged,
    KEY_EXCHANGE with severity INFO, carrying the fingerprint shown, which
    has sixteen characters, digits or letters from [A] to [F]. *)
Theorem handshake_establishes_key
    (rsaPair : Chat.RsaKeyPair) (wrapped raw : Bytes) (now : Z) :
  CryptoService.importAESKey raw = Some raw ->
  let steps := ChatRun.handshake (Some rsaPair) (Some wrapped) (Some raw) now in
  exists fingerprint,
    map (fun s => Chat.handshakeStatus (Chat.next s)) steps =
      [js "Generating RSA Keypair..."; js "Negotiating Session Key...";
       js "Decrypting Session Key..."; js "Secure"]
    /\ map (fun s => Chat.aesKey (Chat.next s)) steps =
       [None; None; None; Some raw]
    /\ map (fun s => Chat.messages (Chat.next s)) steps =
       [[]; []; []; [Chat.welcome now]]
    /\ map (fun s => Chat.sessionFingerprint (Chat.next s)) steps =
       [[]; []; []; fingerprint]
    /\ flat_map Chat.logged steps =
       [{| Chat.callType := KEY_EXCHANGE;
           Chat.callMetadata :=
             JObj [(js "mechanism", JStr (js "HYBRID RSA-2048/AES-256"));
                   (js "rsaKeyFingerprint", JStr fingerprint);
                   (js "status", JStr (js "SUCCESS"))];
           Chat.callSeverity := Some INFO |}]
    /\ List.length fingerprint = 16%nat
    /\ forallb ChatView.isUpperHex fingerprint = true.
Proof.
  intros K steps.
  exists (toUpperCase
            (substring0 16
               (CryptoService.hashData
                  (CryptoService.bufferToBase64 wrapped)))).
  destruct (fingerprint_shape wrapped) as [L U].
  subst steps. unfold ChatRun.handshake. cbv zeta.
  cbn [Chat.handle Chat.initSession Chat.initial Chat.pending Chat.skip
       Chat.next Chat.setPending Chat.setHandshakeStatus Chat.resume
       Chat.messages Chat.inputText Chat.aesKey Chat.handshakeStatus
       Chat.sessionFingerprint Chat.showKeyModal].
  rewrite K. unfold Chat.handshakeDone. cbv zeta.
  cbn [map flat_map app Chat.next Chat.logged Chat.setPending
       Chat.setMessages Chat.setHandshakeStatus Chat.setAesKey
       Chat.setSessionFingerprint Chat.messages Chat.inputText Chat.aesKey
       Chat.handshakeStatus Chat.sessionFingerprint Chat.showKeyModal
       Chat.pending Chat.skip].
  repeat split; [exact L | exact U].
Qed.

Lemma handshake_establishes_key_witness :
  let steps :=
    ChatRun.handshake
      (Some {| Chat.publicKey := [1]; Chat.privateKey := [2] |})
      (Some (repeat 9 256)) (Some (repeat 7 32)) 1700000000500 in
  exists fingerprint,
    map (fun s => Chat.handshakeStatus (Chat.next s)) steps =
      [js "Generating RSA Keypair..."; js "Negotiating Session Key...";
       js "Decrypting Session Key..."; js "Secure"]
    /\ map (fun s => Chat.aesKey (Chat.next s)) steps =
       [None; None; None; Some (repeat 7 32)]
    /\ map (fun s => Chat.messages (Chat.next s)) steps =
       [[]; []; []; [Chat.welcome 1700000000500]]
    /\ map (fun s => Chat.sessionFingerprint (Chat.next s)) steps =
       [[]; []; []; fingerprint]
    /\ flat_map Chat.logged steps =
       [{| Chat.callType := KEY_EXCHANGE;
           Chat.callMetadata :=
             JObj [(js "mechanism", JStr (js "HYBRID RSA-2048/AES-256"));
                   (js "rsaKeyFingerprint", JStr fingerprint);
                   (js "status", JStr (js "SUCCESS"))];
           Chat.callSeverity := Some INFO |}]
    /\ List.length fingerprint = 16%nat
    /\ forallb ChatView.isUpperHex fingerprint = true.
Proof.
  apply (handshake_establishes_key
           {| Chat.publicKey := [1]; Chat.privateKey := [2] |}
           (repeat 9 256) (repeat 7 32) 1700000000500).
  reflexivity.
Defined.

(** X10. A handshake in which an awaited call rejects, or the unwrapped
    key is not one [importAESKey] takes: exactly one event is logged,
    ANOMALY_DETECTED with severity CRITICAL, no key is ever held, the
    conversation stays empty, and the status ends as
    [Handshake Failed]. *)
Theorem handshake_failure_is_logged_once
    (keyPair : option Chat.RsaKeyPair) (wrapped unwrapped : option Bytes)
    (now : Z) :
  keyPair = None \/ wrapped = None \/
  match unwrapped with
  | Some raw => CryptoService.importAESKey raw = None
  | None => True
  end ->
  let steps := ChatRun.handshake keyPair wrapped unwrapped now in
  flat_map Chat.logged steps =
    [{| Chat.callType := ANOMALY_DETECTED;
        Chat.callMetadata :=
          JObj [(js "error", JStr (js "RSA Key Exchange Failed"))];
        Chat.callSeverity := Some CRITICAL |}]
  /\ Forall (fun s => Chat.aesKey (Chat.next s) = None
                      /\ Chat.messages (Chat.next s) = []
                      /\ Chat.scheduled s = [])
            steps
  /\ Chat.handshakeStatus (Chat.next (last steps (Chat.skip Chat.initial))) =
     js "Handshake Failed".
Proof.
  intros F steps. subst steps. unfold ChatRun.handshake. cbv zeta.
  destruct keyPair as [rsaPair|]; [destruct wrapped as [w|];
    [destruct unwrapped as [raw|]|]|];
    cbn [Chat.handle Chat.initSession Chat.initial Chat.pending Chat.skip
         Chat.next Chat.setPending Chat.setHandshakeStatus Chat.resume
         Chat.messages Chat.inputText Chat.aesKey Chat.handshakeStatus
         Chat.sessionFingerprint Chat.showKeyModal Chat.handshakeFailed].
  1:{ destruct F as [F | [F | F]]; try discriminate. rewrite F.
      cbn [Chat.handshakeFailed Chat.next Chat.pending Chat.setPending
           Chat.setHandshakeStatus Chat.handshakeStatus].
      split; [reflexivity|]. split; [|reflexivity].
      repeat constructor. }
  all: split; [reflexivity|]; (split; [|reflexivity]); repeat constructor.
Qed.

(** The unwrapped key has 20 bytes. *)
Lemma handshake_failure_witness :
  let steps :=
    ChatRun.handshake
      (Some {| Chat.publicKey := [1]; Chat.privateKey := [2] |})
      (Some (repeat 9 256)) (Some (repeat 7 20)) 1700000000500 in
  flat_map Chat.logged steps =
    [{| Chat.callType := ANOMALY_DETECTED;
        Chat.callMetadata :=
          JObj [(js "error", JStr (js "RSA Key Exchange Failed"))];
        Chat.callSeverity := Some CRITICAL |}]
  /\ Forall (fun s => Chat.aesKey (Chat.next s) = None
                      /\ Chat.messages (Chat.next s) = []
                      /\ Chat.scheduled s = [])
            steps
  /\ Chat.handshakeStatus (Chat.next (last steps (Chat.skip Chat.initial))) =
     js "Handshake Failed".
Proof.
  apply (handshake_failure_is_logged_once
           (Some {| Chat.publicKey := [1]; Chat.privateKey := [2] |})
           (Some (repeat 9 256)) (Some (repeat 7 20)) 1700000000500).
  right. right. reflexivity.
Defined.

End Handshake.

(** ** The application: login, the forensic log and the keyword list *)

Section Sessions.
Import Codec Exn Types JSON.

(** No event takes an entry out of the log or changes one: the log after
    an event is the log before it, with at most one entry more. *)
Lemma handle_appends (e : Session.Event) (st : App.State) :
  exists added,
    App.logs (Session.handle e st) = App.logs st ++ added
    /\ (List.length added <= 1)%nat.
Proof.
  assert (Z0 : exists added,
            App.logs st = App.logs st ++ added
            /\ (List.length added <= 1)%nat).
  { exists []. rewrite app_nil_r. split; [reflexivity | simpl; lia]. }
  unfold Session.handle.
  destruct e as [form now1 now2 uuid|now1 now2 uuid|v
                 |newKeyword now1 now2 uuid|index now1 now2 uuid
                 |closureUser c now1 now2 uuid];
    destruct (App.user st) as [u|] eqn:U; try exact Z0;
    try (eexists; split; [reflexivity | simpl; lia]).
  - destruct (snd (Login.authenticate (Login.handleLogin form)));
      [|exact Z0].
    eexists. split; [reflexivity | simpl; lia].
  - unfold App.handleLogout. rewrite U.
    eexists. split; [reflexivity | simpl; lia].
  - destruct (App.activeView st); try exact Z0.
    destruct (fst (Settings.handleAdd (App.suspiciousKeywords st) newKeyword));
      [|exact Z0].
    eexists. split; [reflexivity | simpl; lia].
  - destruct (App.activeView st); try exact Z0.
    destruct (nth_error (App.suspiciousKeywords st) index); [|exact Z0].
    eexists. split; [reflexivity | simpl; lia].
Qed.

(** X11. The forensic log only grows: whatever the user or the chat does,
    logging out included, the log afterwards is the log before with at
    most one entry appended; so the log of a state is a prefix of the log
    of every state that follows it. *)
Theorem forensic_log_is_append_only
    (events : list Session.Event) (st : App.State) :
  exists added,
    App.logs (fold_left (fun s e => Session.handle e s) events st) =
      App.logs st ++ added
    /\ (List.length added <= List.length events)%nat.
Proof.
  revert st; induction events as [|e events IH]; intros st.
  - exists []. rewrite app_nil_r. split; [reflexivity | simpl; lia].
  - cbn [fold_left]. destruct (IH (Session.handle e st)) as [later [E L]].
    destruct (handle_appends e st) as [added [E1 L1]].
    exists (added ++ later). rewrite E, E1, <- app_assoc.
    split; [reflexivity|]. rewrite length_app. simpl. lia.
Qed.

Lemma trimStart_code_units (s : JSString) :
  Forall is_code_unit s -> Forall is_code_unit (trimStart s).
Proof.
  induction 1 as [|c s C F IH]; [constructor|]. cbn [trimStart].
  destruct (isWhiteSpace c); [exact IH | now constructor].
Qed.

Lemma trim_code_units (s : JSString) :
  Forall is_code_unit s -> Forall is_code_unit (trim s).
Proof.
  intros U. unfold trim, trimEnd.
  apply Forall_rev, trimStart_code_units, Forall_rev.
  now apply trimStart_code_units.
Qed.

Lemma arrayIncludes_iff (keywords : list JSString) (k : JSString) :
  Settings.arrayIncludes keywords k = true <-> In k keywords.
Proof.
  unfold Settings.arrayIncludes. rewrite existsb_exists. split.
  - intros [x [I E]]. apply str_eqb_eq in E. now subst.
  - intros I. exists k. split; [exact I | apply str_eqb_refl].
Qed.

Lemma NoDup_snoc {A} (l : list A) (x : A) :
  NoDup l -> ~ In x l -> NoDup (l ++ [x]).
Proof.
  induction 1 as [|a l N D IH]; intros X; cbn [app].
  - constructor; [intros [] | constructor].
  - constructor.
    + rewrite in_app_iff. intros [I | [-> | []]]; [now apply N|].
      apply X. now left.
    + apply IH. intros I. apply X. now right.
Qed.

(** What [handleAdd] hands to [onAdd]. *)
Lemma handleAdd_some (keywords : list JSString) (newKeyword k : JSString) :
  fst (Settings.handleAdd keywords newKeyword) = Some k ->
  k = toLowerCase (trim newKeyword) /\ truthy (trim newKeyword) = true
  /\ ~ In k keywords.
Proof.
  unfold Settings.handleAdd.
  destruct (truthy (trim newKeyword)) eqn:T; cbn [andb]; [|discriminate].
  destruct (Settings.arrayIncludes keywords (toLowerCase (trim newKeyword)))
    eqn:A; cbn [negb fst]; [discriminate|].
  intros [= <-]. split; [reflexivity|]. split; [reflexivity|].
  intros I. apply arrayIncludes_iff in I. congruence.
Qed.

Lemma keywords_change (e : Session.Event) (st : App.State) :
  App.suspiciousKeywords (Session.handle e st) = App.suspiciousKeywords st
  \/ (exists raw k now1 now2 uuid,
        e = Session.AddKeyword raw now1 now2 uuid
        /\ fst (Settings.handleAdd (App.suspiciousKeywords st) raw) = Some k
        /\ App.suspiciousKeywords (Session.handle e st) =
           App.suspiciousKeywords st ++ [k])
  \/ (exists word,
        App.suspiciousKeywords (Session.handle e st) =
        filter (fun k => negb (str_eqb k word)) (App.suspiciousKeywords st)).
Proof.
  unfold Session.handle.
  destruct e as [form now1 now2 uuid|now1 now2 uuid|v
                 |newKeyword now1 now2 uuid|index now1 now2 uuid
                 |closureUser c now1 now2 uuid];
    destruct (App.user st) as [u|] eqn:U; try (now left).
  - destruct (snd (Login.authenticate (Login.handleLogin form)));
      now left.
  - unfold App.handleLogout. rewrite U. now left.
  - destruct (App.activeView st); try (now left).
    destruct (fst (Settings.handleAdd (App.suspiciousKeywords st) newKeyword))
      as [k|] eqn:H; [|now left].
    right. left. now exists newKeyword, k, now1, now2, uuid.
  - destruct (App.activeView st); try (now left).
    destruct (nth_error (App.suspiciousKeywords st) index) as [word|];
      [|now left].
    right. right. now exists word.
Qed.

Lemma reachable_reached (st : App.State) :
  Session.reachable st -> Session.reached st.
Proof. induction 1; constructor; assumption. Qed.

(** No keyword is held twice. *)
Lemma keywords_distinct (st : App.State) :
  Session.reached st -> NoDup (App.suspiciousKeywords st).
Proof.
  induction 1 as [|st e R N].
  - apply (NoDup_count_occ' (list_eq_dec Z.eq_dec)).
    intros k I. cbn in I.
    repeat (destruct I as [<- | I]; [vm_compute; reflexivity|]).
    contradiction.
  - destruct (keywords_change e st)
      as [-> | [[raw [k [n1 [n2 [uuid [-> [H ->]]]]]]] | [word ->]]].
    + exact N.
    + apply handleAdd_some in H as [-> [Tr NI]].
      apply NoDup_snoc; assumption.
    + apply NoDup_filter; assumption.
Qed.

Lemma keywords_invariant (st : App.State) :
  Session.reachable st ->
  NoDup (App.suspiciousKeywords st)
  /\ Forall (fun k => truthy k = true /\ toLowerCase k = k)
            (App.suspiciousKeywords st).
Proof.
  intros R. split; [apply keywords_distinct, reachable_reached, R|].
  induction R as [|st e R F T].
  - assert (A : forallb (fun k => truthy k && str_eqb (toLowerCase k) k)
                        (App.suspiciousKeywords App.initial) = true)
      by (vm_compute; reflexivity).
    apply Forall_forall. intros k I. rewrite forallb_forall in A.
    specialize (A k I). apply andb_true_iff in A as [A1 A2].
    apply str_eqb_eq in A2. split; assumption.
  - destruct (keywords_change e st)
      as [-> | [[raw [k [n1 [n2 [uuid [-> [H ->]]]]]]] | [word ->]]].
    + exact F.
    + cbn [Session.typed] in T.
      apply handleAdd_some in H as [-> [Tr NI]].
      apply Forall_app. split; [exact F|]. constructor; [|constructor].
      split; [|apply toLowerCase_idempotent, trim_code_units, T].
      destruct (toLowerCase (trim raw)) eqn:L; [|reflexivity].
      apply toLowerCase_nonempty in L. rewrite L in Tr. discriminate.
    + rewrite Forall_forall in *. intros k I. apply filter_In in I as [I _].
      apply F; assumption.
Qed.

(** X12. The keyword list the settings screen maintains never holds the
    same keyword twice, and each of its keywords is not the empty text
    (which every message would contain) and is in lower case, the form
    the scan of a message compares with. *)
Theorem keyword_list_is_well_kept (st : App.State) (k : JSString) :
  Session.reachable st -> In k (App.suspiciousKeywords st) ->
  k <> [] /\ toLowerCase k = k /\ NoDup (App.suspiciousKeywords st).
Proof.
  intros R I. destruct (keywords_invariant st R) as [N F].
  rewrite Forall_forall in F. destruct (F k I) as [T L].
  split; [|now split]. intros ->. discriminate.
Qed.

Lemma loggedIn_reachable : Session.reachable Visit.loggedIn.
Proof. apply Session.reachable_next; [constructor | exact I]. Qed.

Lemma configuring_reached : Session.reached Visit.configuring.
Proof. repeat apply Session.reached_next. constructor. Qed.

Lemma removed_reached : Session.reached Visit.removed.
Proof. apply Session.reached_next. exact configuring_reached. Qed.

Lemma configuring_reachable : Session.reachable Visit.configuring.
Proof.
  apply Session.reachable_next; [exact loggedIn_reachable | exact I].
Qed.

Lemma removed_reachable : Session.reachable Visit.removed.
Proof.
  apply Session.reachable_next; [exact configuring_reachable | exact I].
Qed.

Lemma keyword_list_is_well_kept_witness :
  js "hack" <> [] /\ toLowerCase (js "hack") = js "hack"
  /\ NoDup (App.suspiciousKeywords Visit.removed).
Proof.
  apply (keyword_list_is_well_kept Visit.removed (js "hack")
           removed_reachable).
  right. left. reflexivity.
Defined.

Lemma filter_removes_nth (l : list JSString) (index : nat) (word : JSString) :
  NoDup l -> nth_error l index = Some word ->
  filter (fun k => negb (str_eqb k word)) l =
  firstn index l ++ skipn (S index) l.
Proof.
  intros N. revert index.
  induction N as [|a l NI N IH]; intros [|index]; try discriminate.
  - cbn [nth_error]. intros [= ->]. cbn [filter firstn skipn app].
    rewrite str_eqb_refl. cbn [negb]. apply filter_all.
    apply Forall_forall.
    intros x I. apply negb_true_iff, str_eqb_neq. intros ->. contradiction.
  - cbn [nth_error]. intros E. cbn [filter firstn skipn app].
    replace (str_eqb a word) with false.
    + cbn [negb]. now rewrite (IH index E).
    + symmetry. apply str_eqb_neq. intros ->. apply NI.
      now apply nth_error_In with index.
Qed.

(** X13. Clicking the button of a keyword on the settings screen takes out
    that keyword and nothing else: the others stay, in their order, the
    keyword is configured no more, and one entry is logged,
    ANOMALY_DETECTED with severity WARNING, naming the action and the
    keyword. *)
Theorem removeKeyword_removes_that_keyword
    (st : App.State) (u : User) (index : nat) (word : JSString)
    (now1 now2 : Z) (uuid : JSString) :
  Session.reached st -> App.user st = Some u ->
  App.activeView st = App.settings ->
  nth_error (App.suspiciousKeywords st) index = Some word ->
  let st' := Session.handle (Session.RemoveKeyword index now1 now2 uuid) st in
  App.suspiciousKeywords st' =
    firstn index (App.suspiciousKeywords st)
    ++ skipn (S index) (App.suspiciousKeywords st)
  /\ ~ In word (App.suspiciousKeywords st')
  /\ exists e,
       App.logs st' = App.logs st ++ [e]
       /\ eventType e = ANOMALY_DETECTED /\ severity e = WARNING
       /\ metadata e =
          JObj [(js "action", JStr (js "DLP_RULE_REMOVED"));
                (js "keyword", JStr word)].
Proof.
  intros R U V E st'. subst st'. unfold Session.handle. rewrite U, V, E.
  assert (N := keywords_distinct st R).
  cbn [App.removeKeyword App.handleLogEvent App.setLogs
       App.setSuspiciousKeywords App.suspiciousKeywords App.logs App.user].
  split; [now apply filter_removes_nth|]. split.
  - intros I. apply filter_In in I as [_ I].
    now rewrite str_eqb_refl in I.
  - eexists. split; [reflexivity|]. now cbn.
Qed.

Lemma removeKeyword_witness :
  let st' :=
    Session.handle
      (Session.RemoveKeyword 3 1700000002000 1700000002000 Sample.uuid2)
      Visit.configuring in
  App.suspiciousKeywords st' =
    firstn 3 (App.suspiciousKeywords Visit.configuring)
    ++ skipn 4 (App.suspiciousKeywords Visit.configuring)
  /\ ~ In (js "bribe") (App.suspiciousKeywords st')
  /\ exists e,
       App.logs st' = App.logs Visit.configuring ++ [e]
       /\ eventType e = ANOMALY_DETECTED /\ severity e = WARNING
       /\ metadata e =
          JObj [(js "action", JStr (js "DLP_RULE_REMOVED"));
                (js "keyword", JStr (js "bribe"))].
Proof.
  apply (removeKeyword_removes_that_keyword Visit.configuring Sample.agent 3
           (js "bribe") 1700000002000 1700000002000 Sample.uuid2
           configuring_reached); reflexivity.
Defined.

(** X14. Submitting the keyword form changes nothing, and logs nothing,
    when the typed text is white space throughout or is, once trimmed and
    lowercased, a keyword of the list; otherwise, on the settings screen,
    the trimmed and lowercased text becomes the last keyword and one entry
    is logged, ANOMALY_DETECTED with severity INFO. *)
Theorem addKeyword_adds_only_new_keywords
    (st : App.State) (u : User) (newKeyword : JSString) (now1 now2 : Z)
    (uuid : JSString) :
  App.user st = Some u -> App.activeView st = App.settings ->
  let keyword := toLowerCase (trim newKeyword) in
  let st' :=
    Session.handle (Session.AddKeyword newKeyword now1 now2 uuid) st in
  if forallb isWhiteSpace newKeyword
     || Settings.arrayIncludes (App.suspiciousKeywords st) keyword
  then st' = st
  else
    App.suspiciousKeywords st' = App.suspiciousKeywords st ++ [keyword]
    /\ exists e,
         App.logs st' = App.logs st ++ [e]
         /\ eventType e = ANOMALY_DETECTED /\ severity e = INFO
         /\ metadata e =
            JObj [(js "action", JStr (js "DLP_RULE_ADDED"));
                  (js "keyword", JStr keyword)].
Proof.
  intros U V keyword st'. subst keyword st'.
  unfold Session.handle, Settings.handleAdd. rewrite U, V.
  destruct (forallb isWhiteSpace newKeyword) eqn:B; cbn [orb].
  - apply trim_blank in B. rewrite B. reflexivity.
  - assert (T : truthy (trim newKeyword) = true).
    { destruct (truthy (trim newKeyword)) eqn:T; [reflexivity|].
      apply trim_blank in T. congruence. }
    rewrite T. cbn [andb].
    destruct (Settings.arrayIncludes (App.suspiciousKeywords st)
                (toLowerCase (trim newKeyword))); cbn [negb fst];
      [reflexivity|].
    split; [reflexivity|]. eexists. split; [reflexivity|]. now cbn.
Qed.

(** [  Hack ] is typed while [hack] is configured. *)
Lemma addKeyword_witness :
  Session.handle
    (Session.AddKeyword (js "  Hack ") 1700000003000 1700000003000
       Sample.uuid2)
    Visit.configuring = Visit.configuring.
Proof.
  apply (addKeyword_adds_only_new_keywords Visit.configuring Sample.agent
           (js "  Hack ") 1700000003000 1700000003000 Sample.uuid2);
    reflexivity.
Defined.

(** X15. A login with any password but [password], letter for letter,
    leaves the application as it was: no user is set and nothing is written
    to the forensic log. *)
Theorem failed_login_leaves_no_trace
    (form : Login.State) (now1 now2 : Z) (uuid : JSString) (st : App.State) :
  Login.password form <> js "password" ->
  Session.handle (Session.SubmitLogin form now1 now2 uuid) st = st
  /\ Login.authenticate (Login.handleLogin form) =
     ({| Login.selectedRole := Login.selectedRole form;
         Login.password := Login.password form;
         Login.loading := false;
         Login.error := js "Invalid credentials" |}, None).
Proof.
  intros P. apply str_eqb_neq in P.
  unfold Session.handle, Login.authenticate, Login.handleLogin.
  cbn [Login.password Login.selectedRole]. rewrite P. cbn [snd].
  split; [now destruct (App.user st) | reflexivity].
Qed.

Lemma failed_login_witness :
  Session.handle
    (Session.SubmitLogin Visit.mistyped 1700000001000 1700000001000
       Sample.uuid1) App.initial = App.initial
  /\ Login.authenticate (Login.handleLogin Visit.mistyped) =
     ({| Login.selectedRole := Login.agent;
         Login.password := js "PASSWORD";
         Login.loading := false;
         Login.error := js "Invalid credentials" |}, None).
Proof.
  apply (failed_login_leaves_no_trace Visit.mistyped). discriminate.
Defined.

(** X16. A login with the password sets the user to the identity of the
    selected role and appends one entry, LOGIN with severity INFO, whose
    user is that identity; the view and the keyword list stay. *)
Theorem login_is_logged_for_the_user
    (form : Login.State) (now1 now2 : Z) (uuid : JSString) (st : App.State) :
  App.user st = None -> Login.password form = js "password" ->
  let st' := Session.handle (Session.SubmitLogin form now1 now2 uuid) st in
  let who := Login.identity (Login.selectedRole form) in
  App.user st' = Some who
  /\ App.activeView st' = App.activeView st
  /\ App.suspiciousKeywords st' = App.suspiciousKeywords st
  /\ exists e,
       App.logs st' = App.logs st ++ [e]
       /\ eventType e = LOGIN /\ severity e = INFO
       /\ userId e = user_id who /\ id e = uuid /\ timestamp e = now2.
Proof.
  intros U P st' who. subst st' who.
  unfold Session.handle, Login.authenticate, Login.handleLogin.
  cbn [Login.password Login.selectedRole]. rewrite U, P.
  change (str_eqb (js "password") (js "password")) with true. cbn [snd].
  unfold App.handleLogin, App.handleLogEvent.
  cbn [App.setLogs App.user App.activeView App.suspiciousKeywords App.logs].
  repeat split. eexists. split; [reflexivity|].
  destruct (Login.selectedRole form); now cbn.
Qed.

Lemma login_is_logged_witness :
  let st' := Visit.loggedIn in
  let who := Login.identity Login.agent in
  App.user st' = Some who
  /\ App.activeView st' = App.activeView App.initial
  /\ App.suspiciousKeywords st' = App.suspiciousKeywords App.initial
  /\ exists e,
       App.logs st' = App.logs App.initial ++ [e]
       /\ eventType e = LOGIN /\ severity e = INFO
       /\ userId e = user_id who /\ id e = Sample.uuid1
       /\ timestamp e = 1700000001000.
Proof.
  apply (login_is_logged_for_the_user Visit.form 1700000001000 1700000001000
           Sample.uuid1 App.initial); reflexivity.
Defined.

(** An entry built while the clock stands still. *)
Lemma steady_entry (e : Session.Event) (st : App.State) :
  Session.steady e ->
  Forall (fun l => App.recomputeHash l = hash l) (App.logs st) ->
  Forall (fun l => App.recomputeHash l = hash l)
         (App.logs (Session.handle e st)).
Proof.
  intros S0 F. unfold Session.handle.
  assert (New : forall u now uuid type meta sev o,
            Forall (fun l => App.recomputeHash l = hash l)
              (App.logs st ++ [App.newLog u now now uuid type meta sev o])).
  { intros. apply Forall_app. split; [exact F|].
    constructor; [apply newLog_hash_of_stored_fields | constructor]. }
  destruct e as [form now1 now2 uuid|now1 now2 uuid|v
                 |newKeyword now1 now2 uuid|index now1 now2 uuid
                 |closureUser c now1 now2 uuid];
    cbn [Session.steady] in S0; try subst now2;
    destruct (App.user st) as [u|] eqn:U; try exact F; try apply New.
  - destruct (snd (Login.authenticate (Login.handleLogin form)));
      [apply New | exact F].
  - unfold App.handleLogout. rewrite U. apply New.
  - destruct (App.activeView st); try exact F.
    destruct (fst (Settings.handleAdd (App.suspiciousKeywords st) newKeyword));
      [apply New | exact F].
  - destruct (App.activeView st); try exact F.
    destruct (nth_error (App.suspiciousKeywords st) index);
      [apply New | exact F].
Qed.

(** X17. As long as the clock does not advance between the two readings
    [handleLogEvent] makes of it, the chain can be verified by
    recomputation: the hash every entry stores is the hash of the type,
    metadata, timestamp and user the entry stores. *)
Theorem steady_clock_chain_recomputes (st : App.State) (l : ForensicLog) :
  Session.reachableSteady st -> In l (App.logs st) ->
  hash l =
    CryptoService.hashData
      (stringify
         (App.payloadOf (eventType l) (metadata l) (timestamp l) (userId l))).
Proof.
  intros R.
  assert (F : Forall (fun l => App.recomputeHash l = hash l) (App.logs st)).
  { induction R as [|st e R IH S0]; [constructor|].
    now apply steady_entry. }
  intros I. rewrite Forall_forall in F. symmetry. now apply F.
Qed.

Lemma removed_steady : Session.reachableSteady Visit.removed.
Proof.
  repeat (apply Session.steady_next; [|reflexivity || exact I]).
  constructor.
Qed.

(** The entry of the removed keyword. *)
Lemma steady_clock_witness :
  let l :=
    App.newLog (Some Sample.agent) 1700000002000 1700000002000 Sample.uuid2
      ANOMALY_DETECTED
      (JObj [(js "action", JStr (js "DLP_RULE_REMOVED"));
             (js "keyword", JStr (js "bribe"))])
      (Some WARNING) None in
  hash l =
    CryptoService.hashData
      (stringify
         (App.payloadOf (eventType l) (metadata l) (timestamp l) (userId l))).
Proof.
  apply (steady_clock_chain_recomputes Visit.removed _ removed_steady).
  vm_compute. right. left. reflexivity.
Defined.

End Sessions.

(** ** The dashboard and the request to the model *)

Section Telemetry.
Import Codec Exn Types JSON.

(** X18. The stat cards of the dashboard: "Encryption Ops" counts the
    MESSAGE_SENT and the MESSAGE_DECRYPTED entries and no other, and
    "Anomalies" counts every entry but those of severity INFO, whatever
    its type. *)
Theorem stat_cards_count (logs : list ForensicLog) :
  DashboardView.encryptionOps logs =
    (List.length
       (filter (fun l => eventType_eqb (eventType l) MESSAGE_SENT) logs)
     + List.length
         (filter (fun l => eventType_eqb (eventType l) MESSAGE_DECRYPTED)
                 logs))%nat
  /\ (DashboardView.anomalies logs
      + List.length (filter (fun l => severity_eqb (severity l) INFO) logs)
      = DashboardView.totalEvents logs)%nat.
Proof.
  unfold DashboardView.encryptionOps, DashboardView.anomalies,
    DashboardView.totalEvents.
  induction logs as [|l logs [IH1 IH2]]; [now split|].
  cbn [filter]. split.
  - destruct (eventType l);
      match goal with
      | |- context [includes ?a ?b] =>
          let v := eval vm_compute in (includes a b) in
          change (includes a b) with v
      end;
      cbn [eventType_eqb List.length]; lia.
  - destruct (severity l); cbn [severity_eqb orb List.length]; lia.
Qed.

Lemma bump_labels (t : JSString) (acc : list DashboardView.Bar) :
  In t (map DashboardView.time (DashboardView.bump t acc))
  /\ (map DashboardView.time (DashboardView.bump t acc) =
        map DashboardView.time acc
      \/ ~ In t (map DashboardView.time acc)
         /\ map DashboardView.time (DashboardView.bump t acc) =
            map DashboardView.time acc ++ [t]).
Proof.
  induction acc as [|item rest [I IH]]; cbn [DashboardView.bump map app].
  - split; [now left|]. right. split; [intros []|reflexivity].
  - destruct (str_eqb (DashboardView.time item) t) eqn:E; cbn [map].
    + apply str_eqb_eq in E. split; [now left | now left].
    + apply str_eqb_neq in E. split; [now right|].
      destruct IH as [-> | [N ->]]; [now left|]. right.
      split; [|reflexivity]. intros [H | H]; [now apply E | now apply N].
Qed.

Lemma bump_bars (t : JSString) (acc : list DashboardView.Bar)
    (b : DashboardView.Bar) :
  NoDup (map DashboardView.time acc) ->
  In b (DashboardView.bump t acc) ->
  (In b acc /\ DashboardView.time b <> t)
  \/ (exists b0,
        In b0 acc /\ DashboardView.time b0 = t
        /\ b = {| DashboardView.time := t;
                  DashboardView.count := DashboardView.count b0 + 1 |})
  \/ (~ In t (map DashboardView.time acc)
      /\ b = {| DashboardView.time := t; DashboardView.count := 1 |}).
Proof.
  induction acc as [|item rest IH]; cbn [DashboardView.bump map]; intros N I.
  - destruct I as [<- | []]. right. right. split; [intros []|reflexivity].
  - inversion N as [|? ? NI N']; subst.
    destruct (str_eqb (DashboardView.time item) t) eqn:E.
    + apply str_eqb_eq in E. destruct I as [<- | I].
      * right. left. exists item. split; [now left|].
        split; [exact E | now rewrite E].
      * left. split; [now right|]. intros T. apply NI. rewrite E, <- T.
        now apply in_map.
    + apply str_eqb_neq in E. destruct I as [<- | I].
      * left. split; [now left | exact E].
      * destruct (IH N' I) as [[I' T] | [[b0 [I' [T ->]]] | [NI' ->]]].
        -- left. split; [now right | exact T].
        -- right. left. exists b0. split; [now right | now split].
        -- right. right. split; [|reflexivity].
           intros [H | H]; [now apply E | now apply NI'].
Qed.

Lemma grouped_snoc (label : Z -> JSString) (logs : list ForensicLog)
    (l : ForensicLog) :
  DashboardView.grouped label (logs ++ [l]) =
  DashboardView.bump (label (timestamp l)) (DashboardView.grouped label logs).
Proof. unfold DashboardView.grouped. now rewrite fold_left_app. Qed.

Lemma filter_none {A} (f : A -> bool) (l : list A) :
  (forall x, In x l -> f x = false) -> filter f l = [].
Proof.
  induction l as [|a l IH]; intros H; [reflexivity|]. cbn [filter].
  rewrite (H a) by now left. apply IH. intros x I. apply H. now right.
Qed.

Lemma grouped_invariant (label : Z -> JSString) (logs : list ForensicLog) :
  let bars := DashboardView.grouped label logs in
  NoDup (map DashboardView.time bars)
  /\ (forall b, In b bars ->
        DashboardView.count b =
        Z.of_nat
          (List.length
             (filter (fun l => str_eqb (label (timestamp l))
                                       (DashboardView.time b)) logs)))
  /\ (forall l, In l logs ->
        In (label (timestamp l)) (map DashboardView.time bars)).
Proof.
  cbv zeta. induction logs as [|l logs [N [C L]]] using rev_ind.
  - split; [constructor|]. split; intros ? [].
  - rewrite grouped_snoc.
    set (t := label (timestamp l)) in *.
    set (acc := DashboardView.grouped label logs) in *.
    destruct (bump_labels t acc) as [It Ht]. split; [|split].
    + destruct Ht as [-> | [NI ->]]; [exact N|].
      apply NoDup_snoc; [exact N | exact NI].
    + intros b I. rewrite filter_app, length_app. cbn [filter]. fold t.
      destruct (bump_bars t acc b N I)
        as [[I' T] | [[b0 [I' [T ->]]] | [NI ->]]].
      * replace (str_eqb t (DashboardView.time b)) with false
          by (symmetry; apply str_eqb_neq; congruence).
        rewrite (C b I'). cbn [List.length]. lia.
      * cbn [DashboardView.time DashboardView.count].
        rewrite str_eqb_refl, (C b0 I'), T. cbn [List.length]. lia.
      * cbn [DashboardView.time DashboardView.count].
        rewrite str_eqb_refl, filter_none; [reflexivity|].
        intros x Ix. apply str_eqb_neq. intros E. apply NI.
        rewrite <- E. now apply L.
    + intros x Ix. apply in_app_iff in Ix as [Ix | [<- | []]].
      * destruct Ht as [-> | [_ ->]]; [now apply L|].
        apply in_app_iff. left. now apply L.
      * exact It.
Qed.

(** X19. The activity chart has one bar for each time label among its
    last ten labels in order of first appearance, and the bar of a label
    counts the entries of the log with that label; no label has two
    bars. *)
Theorem chartData_counts_entries_per_label
    (label : Z -> JSString) (logs : list ForensicLog)
    (b : DashboardView.Bar) :
  In b (DashboardView.chartData label logs) ->
  DashboardView.count b =
    Z.of_nat
      (List.length
         (filter (fun l => str_eqb (label (timestamp l))
                                   (DashboardView.time b)) logs))
  /\ 0 < DashboardView.count b
  /\ NoDup (map DashboardView.time (DashboardView.chartData label logs))
  /\ (List.length (DashboardView.chartData label logs) <= 10)%nat.
Proof.
  destruct (grouped_invariant label logs) as [N [C L]].
  unfold DashboardView.chartData, DashboardView.sliceLast.
  set (bars := DashboardView.grouped label logs) in *.
  set (n := (List.length bars - 10)%nat).
  assert (Sub : forall x, In x (skipn n bars) -> In x bars).
  { intros x Ix. rewrite <- (firstn_skipn n bars). apply in_app_iff.
    now right. }
  intros I. apply Sub in I. split; [now apply C|]. split; [|split].
  - assert (T : In (DashboardView.time b) (map DashboardView.time bars))
      by now apply in_map.
    rewrite (C b I).
    destruct (filter _ logs) as [|x xs] eqn:E; [|cbn [List.length]; lia].
    exfalso.
    assert (Ex : exists l, In l logs
                 /\ label (timestamp l) = DashboardView.time b).
    { clear - I. subst bars. revert I.
      induction logs as [|l logs IH] using rev_ind; [intros []|].
      rewrite grouped_snoc. intros I.
      destruct (str_eqb (label (timestamp l)) (DashboardView.time b)) eqn:Q.
      - apply str_eqb_eq in Q. exists l. split; [|exact Q].
        apply in_app_iff. right. now left.
      - apply str_eqb_neq in Q.
        assert (I' : In b (DashboardView.grouped label logs)).
        { clear IH. revert I.
          induction (DashboardView.grouped label logs) as [|item rest IHr];
            cbn [DashboardView.bump].
          - intros [<- | []]. now elim Q.
          - destruct (str_eqb (DashboardView.time item)
                        (label (timestamp l))) eqn:R.
            + apply str_eqb_eq in R. intros [<- | H]; [|now right].
              cbn [DashboardView.time] in Q. now elim Q.
            + intros [<- | H]; [now left | right; now apply IHr]. }
        destruct (IH I') as [x [Ix Ex]]. exists x. split; [|exact Ex].
        apply in_app_iff. now left. }
    destruct Ex as [l [Il El]].
    assert (In l (filter (fun l => str_eqb (label (timestamp l))
                                           (DashboardView.time b)) logs)).
    { apply filter_In. split; [exact Il|]. now apply str_eqb_eq. }
    rewrite E in H. contradiction.
  - rewrite <- (firstn_skipn n bars), map_app in N.
    clear - N. induction (map DashboardView.time (firstn n bars));
      [exact N|]. inversion N; auto.
  - rewrite length_skipn. subst n. lia.
Qed.

(** The two entries of the sample chain are of the same minute. *)
Lemma chartData_witness :
  let b := {| DashboardView.time := js "22:13"; DashboardView.count := 2 |} in
  DashboardView.count b =
    Z.of_nat
      (List.length
         (filter (fun l => str_eqb (Visit.minuteLabel (timestamp l))
                                   (DashboardView.time b))
                 Sample.untouched))
  /\ 0 < DashboardView.count b
  /\ NoDup (map DashboardView.time
              (DashboardView.chartData Visit.minuteLabel Sample.untouched))
  /\ (List.length
        (DashboardView.chartData Visit.minuteLabel Sample.untouched) <= 10)%nat.
Proof.
  apply (chartData_counts_entries_per_label Visit.minuteLabel
           Sample.untouched).
  vm_compute. left. reflexivity.
Defined.

(** X20. When an entry of the log has a timestamp that is no valid date,
    no request is sent to the model: the RangeError of [toISOString] is
    written to the console and the fixed fallback is returned. *)
Theorem analyzeLogs_invalid_date_sends_nothing
    (ai : Gemini.Model) (logs : list ForensicLog) :
  forallb (fun l => Date.valid (timestamp l)) logs = false ->
  Gemini.analyzeLogs ai logs =
    {| Gemini.value := Gemini.fallback; Gemini.sent := [];
       Gemini.console := [RangeError] |}.
Proof.
  intros V.
  assert (E : Gemini.logSummary logs = Throw RangeError).
  { induction logs as [|l logs IH]; [discriminate|].
    cbn [forallb] in V. cbn [Gemini.logSummary].
    destruct (Date.valid (timestamp l)) eqn:D.
    - destruct (summarize_ok l D) as [x ->]. cbn [bind].
      now rewrite (IH V).
    - unfold Gemini.summarize, Date.toISOString. now rewrite D. }
  unfold Gemini.analyzeLogs. now rewrite E.
Qed.

(** An entry dated one millisecond after the last valid instant. *)
Lemma analyzeLogs_invalid_date_witness :
  Gemini.analyzeLogs Sample.lenient
    (map (fun e =>
            {| id := id e; timestamp := 8640000000000001;
               userId := userId e; eventType := eventType e;
               metadata := metadata e; severity := severity e;
               hash := hash e |})
         Sample.untouched) =
    {| Gemini.value := Gemini.fallback; Gemini.sent := [];
       Gemini.console := [RangeError] |}.
Proof.
  apply analyzeLogs_invalid_date_sends_nothing. vm_compute. reflexivity.
Defined.

(** X21. What reaches the model: when every entry has a valid date, one
    request whose contents are the JSON text of one object for each
    entry, in order, holding its time, type, severity, metadata and the
    first eight characters of its hash and nothing else, and no request
    otherwise; with the id, the user and the rest of the hash of every
    entry replaced, the run is the same, request included. *)
Theorem analyzeLogs_withholds_ids_users_and_hashes
    (ai : Gemini.Model) (logs : list ForensicLog)
    (newId newUser rest : ForensicLog -> JSString) :
  Forall (fun e => (8 <= List.length (hash e))%nat) logs ->
  let entry := fun l =>
    JObj [(js "time",
           JStr match Date.toISOString (timestamp l) with
                | Some time => time
                | None => []
                end);
          (js "type", JStr (eventTypeName (eventType l)));
          (js "severity", JStr (severityName (severity l)));
          (js "metadata", metadata l);
          (js "hash", JStr (substring0 8 (hash l) ++ js "..."))] in
  let request :=
    {| Gemini.model := js "gemini-2.5-flash";
       Gemini.contents := stringify (JArr (map entry logs));
       Gemini.systemInstruction := Gemini.SYSTEM_INSTRUCTION;
       Gemini.responseMimeType := js "application/json";
       Gemini.schema := Gemini.responseSchema |} in
  Gemini.sent (Gemini.analyzeLogs ai logs) =
    (if forallb (fun l => Date.valid (timestamp l)) logs
     then [request] else [])
  /\ Gemini.analyzeLogs ai
       (map (fun e =>
               {| id := newId e; timestamp := timestamp e;
                  userId := newUser e; eventType := eventType e;
                  metadata := metadata e; severity := severity e;
                  hash := substring0 8 (hash e) ++ rest e |})
            logs) =
     Gemini.analyzeLogs ai logs.
Proof.
  intros H entry request. split.
  - unfold Gemini.analyzeLogs.
    destruct (forallb (fun l => Date.valid (timestamp l)) logs) eqn:V.
    + rewrite (logSummary_digest logs V). fold entry.
      change (Gemini.requestFor (map entry logs)) with request.
      now destruct (Gemini.readReply (ai request)).
    + now rewrite (logSummary_invalid logs V).
  - assert (E : Gemini.logSummary
                  (map (fun e =>
                          {| id := newId e; timestamp := timestamp e;
                             userId := newUser e; eventType := eventType e;
                             metadata := metadata e; severity := severity e;
                             hash := substring0 8 (hash e) ++ rest e |})
                       logs) = Gemini.logSummary logs).
    { induction H as [|e logs L _ IH]; [reflexivity|].
      cbn [map Gemini.logSummary]. rewrite IH.
      unfold Gemini.summarize.
      cbn [timestamp eventType severity metadata hash].
      unfold substring0.
      rewrite firstn_app, firstn_firstn, length_firstn.
      replace (8 - Nat.min 8 (List.length (hash e)))%nat with 0%nat by lia.
      cbn [firstn Nat.min]. now rewrite app_nil_r. }
    unfold Gemini.analyzeLogs. now rewrite E.
Qed.

Lemma analyzeLogs_withholds_witness :
  Gemini.analyzeLogs Sample.lenient
    (map (fun e =>
            {| id := js "0"; timestamp := timestamp e;
               userId := js "nobody"; eventType := eventType e;
               metadata := metadata e; severity := severity e;
               hash := substring0 8 (hash e) ++ js "0000" |})
         Sample.untouched) =
  Gemini.analyzeLogs Sample.lenient Sample.untouched.
Proof.
  apply (analyzeLogs_withholds_ids_users_and_hashes Sample.lenient
           Sample.untouched (fun _ => js "0") (fun _ => js "nobody")
           (fun _ => js "0000")).
  apply Forall_forall. intros e I.
  assert (A : forallb (fun e => (8 <=? List.length (hash e))%nat)
                      Sample.untouched = true)
    by (vm_compute; reflexivity).
  rewrite forallb_forall in A. now apply Nat.leb_le, A.
Defined.

End Telemetry.

(** ** What the chat shows of its session, and the size of a sealed
       message *)

Section Shown.
Import Codec Exn Types JSON.

(** X22. What the chat shows of its session is consistent at every
    moment: while it holds a key the status reads [Secure] and the
    fingerprint has sixteen characters, digits or letters from [A] to [F];
    while it holds none the status reads something else and there is no
    fingerprint. *)
Theorem secure_status_iff_key_held (st : Chat.State) :
  Chat.reachable st ->
  match Chat.aesKey st with
  | Some _ =>
      Chat.handshakeStatus st = js "Secure"
      /\ List.length (Chat.sessionFingerprint st) = 16%nat
      /\ forallb ChatView.isUpperHex (Chat.sessionFingerprint st) = true
  | None =>
      Chat.handshakeStatus st <> js "Secure"
      /\ Chat.sessionFingerprint st = []
  end.
Proof.
  induction 1 as [|st e R IH].
  - split; [discriminate | reflexivity].
  - assert (P := reachable_key_only_when_secure st R).
    assert (Same : forall st',
              Chat.aesKey st' = Chat.aesKey st ->
              Chat.handshakeStatus st' = Chat.handshakeStatus st ->
              Chat.sessionFingerprint st' = Chat.sessionFingerprint st ->
              match Chat.aesKey st' with
              | Some _ =>
                  Chat.handshakeStatus st' = js "Secure"
                  /\ List.length (Chat.sessionFingerprint st') = 16%nat
                  /\ forallb ChatView.isUpperHex (Chat.sessionFingerprint st')
                     = true
              | None =>
                  Chat.handshakeStatus st' <> js "Secure"
                  /\ Chat.sessionFingerprint st' = []
              end).
    { intros st' -> -> ->. exact IH. }
    assert (Early : forall st' status,
              Chat.pending st <> Chat.Settled ->
              Chat.aesKey st' = Chat.aesKey st ->
              Chat.handshakeStatus st' = js status ->
              str_eqb (js status) (js "Secure") = false ->
              Chat.sessionFingerprint st' = Chat.sessionFingerprint st ->
              match Chat.aesKey st' with
              | Some _ =>
                  Chat.handshakeStatus st' = js "Secure"
                  /\ List.length (Chat.sessionFingerprint st') = 16%nat
                  /\ forallb ChatView.isUpperHex (Chat.sessionFingerprint st')
                     = true
              | None =>
                  Chat.handshakeStatus st' <> js "Secure"
                  /\ Chat.sessionFingerprint st' = []
              end).
    { intros st' status Q -> -> N ->. destruct P as [P _].
      rewrite (P Q) in *. split; [now apply str_eqb_neq | apply IH]. }
    destruct e as [|s|text|kws u ivBytes uuid now|[d k] choice ivBytes uuid now
                   |confirmed|shown]; cbn [Chat.handle].
    + unfold Chat.initSession. cbn [Chat.skip Chat.next].
      destruct (Chat.pending st) eqn:Q; try (now apply Same).
      apply Early with "Generating RSA Keypair..."%string;
        [rewrite ?Q; discriminate | reflexivity ..].
    + unfold Chat.resume.
      destruct (Chat.pending st) eqn:Q; destruct s as [[r|]|[r|]|[r|] now];
        cbn [Chat.skip Chat.next Chat.handshakeFailed];
        try (now apply Same);
        try (apply Early with "Handshake Failed"%string;
             [rewrite ?Q; discriminate | reflexivity ..]).
      * apply Early with "Negotiating Session Key..."%string;
          [rewrite ?Q; discriminate | reflexivity ..].
      * apply Early with "Decrypting Session Key..."%string;
          [rewrite ?Q; discriminate | reflexivity ..].
      * destruct (CryptoService.importAESKey r) as [key|].
        -- unfold Chat.handshakeDone. cbv zeta.
           cbn [Chat.next Chat.setPending Chat.setMessages
                Chat.setHandshakeStatus Chat.setAesKey
                Chat.setSessionFingerprint Chat.aesKey Chat.handshakeStatus
                Chat.sessionFingerprint].
           split; [reflexivity | apply fingerprint_shape].
        -- cbn [Chat.next Chat.handshakeFailed].
           apply Early with "Handshake Failed"%string;
             [rewrite ?Q; discriminate | reflexivity ..].
    + now apply Same.
    + unfold Chat.handleSendMessage.
      destruct (negb (truthy (trim (Chat.inputText st))));
        [now apply Same|].
      destruct (Chat.aesKey st) eqn:K; [|now apply Same].
      cbn [Chat.next Chat.setMessages Chat.setInputText Chat.aesKey
           Chat.handshakeStatus Chat.sessionFingerprint].
      now rewrite K.
    + now apply Same.
    + unfold Chat.handleReportIncident. destruct confirmed; now apply Same.
    + now apply Same.
Qed.

Lemma secure_status_witness :
  Chat.handshakeStatus Sample.secure = js "Secure"
  /\ List.length (Chat.sessionFingerprint Sample.secure) = 16%nat
  /\ forallb ChatView.isUpperHex (Chat.sessionFingerprint Sample.secure)
     = true.
Proof. exact (secure_status_iff_key_held Sample.secure secure_reachable). Defined.

(** X23. What [encryptMessage] returns for a text: the nonce in the
    clear, as base64, and a ciphertext that is base64 of exactly sixteen
    bytes (the tag) more than the UTF-8 encoding of the text. *)
Theorem encryptMessage_sizes
    (key : CryptoService.CryptoKey) (ivBytes : Bytes) (message : JSString) :
  Forall is_byte ivBytes -> Forall is_code_unit message ->
  let enc := CryptoService.encryptMessage key ivBytes message in
  atob (CryptoService.iv enc) = Some ivBytes
  /\ exists data,
       atob (CryptoService.ciphertext enc) = Some data
       /\ List.length data =
          (List.length (TextEncoder_encode message) + 16)%nat.
Proof.
  intros I U enc. subst enc. unfold CryptoService.encryptMessage.
  cbn [CryptoService.iv CryptoService.ciphertext].
  unfold CryptoService.bufferToBase64. split; [now apply atob_btoa|].
  eexists. split.
  - apply atob_btoa. now apply gcm_encrypt_bytes, TextEncoder_encode_bytes.
  - unfold AES.gcm_encrypt. cbv zeta.
    now rewrite length_app, GCTR_length, tag_length.
Qed.

Lemma encryptMessage_sizes_witness :
  let enc :=
    CryptoService.encryptMessage (repeat 7 32) (repeat 1 12) (js "hello") in
  atob (CryptoService.iv enc) = Some (repeat 1 12)
  /\ exists data,
       atob (CryptoService.ciphertext enc) = Some data
       /\ List.length data =
          (List.length (TextEncoder_encode (js "hello")) + 16)%nat.
Proof.
  apply (encryptMessage_sizes (repeat 7 32) (repeat 1 12) (js "hello")).
  - repeat constructor; unfold is_byte; lia.
  - repeat constructor; unfold is_code_unit; lia.
Defined.

End Shown.

(** ** Where the keyword list changes, and what every log entry holds *)

Section LogEntries.
Import Codec Exn Types JSON.



Lemma targetUserId_truthy (o : option JSString) (u : option User) :
  truthy (App.targetUserId o u) = true.
Proof.
  unfold App.targetUserId. cbv zeta.
  assert (F : truthy
                match u with
                | Some v => if truthy (user_id v) then user_id v
                            else js "unknown"
                | None => js "unknown"
                end = true).
  { destruct u as [v|]; [|reflexivity].
    now destruct (truthy (user_id v)) eqn:T. }
  destruct o as [o|]; [|exact F]. now destruct (truthy o) eqn:T.
Qed.

(** The entries an event appends are entries [handleLogEvent] built. *)
Lemma handle_entries (e : Session.Event) (st : App.State) :
  exists added,
    App.logs (Session.handle e st) = App.logs st ++ added
    /\ Forall (fun l => exists u now1 now2 uuid type meta sev o,
                 l = App.newLog u now1 now2 uuid type meta sev o) added.
Proof.
  assert (Z0 : exists added,
            App.logs st = App.logs st ++ added
            /\ Forall (fun l => exists u now1 now2 uuid type meta sev o,
                         l = App.newLog u now1 now2 uuid type meta sev o)
                      added).
  { exists []. rewrite app_nil_r. now split. }
  assert (New : forall u now1 now2 uuid type meta sev o,
            exists added,
              App.logs st ++ [App.newLog u now1 now2 uuid type meta sev o] =
              App.logs st ++ added
              /\ Forall (fun l => exists u now1 now2 uuid type meta sev o,
                           l = App.newLog u now1 now2 uuid type meta sev o)
                        added).
  { intros. eexists. split; [reflexivity|].
    constructor; [|constructor]. do 8 eexists. reflexivity. }
  unfold Session.handle.
  destruct e as [form now1 now2 uuid|now1 now2 uuid|v
                 |newKeyword now1 now2 uuid|index now1 now2 uuid
                 |closureUser c now1 now2 uuid];
    destruct (App.user st) as [u|] eqn:U; try exact Z0; try apply New.
  - destruct (snd (Login.authenticate (Login.handleLogin form)));
      [apply New | exact Z0].
  - unfold App.handleLogout. rewrite U. apply New.
  - destruct (App.activeView st); try exact Z0.
    destruct (fst (Settings.handleAdd (App.suspiciousKeywords st) newKeyword));
      [apply New | exact Z0].
  - destruct (App.activeView st); try exact Z0.
    destruct (nth_error (App.suspiciousKeywords st) index);
      [apply New | exact Z0].
Qed.

(** X25. Every entry of the forensic log names a user (the id of a user,
    or [unknown]; never the empty text) and stores as its hash 64
    lowercase hexadecimal digits. *)
Theorem log_entries_name_a_user_and_a_digest
    (st : App.State) (l : ForensicLog) :
  Session.reached st -> In l (App.logs st) ->
  userId l <> []
  /\ List.length (hash l) = 64%nat
  /\ forallb ChatView.isLowerHex (hash l) = true.
Proof.
  intros R.
  assert (F : Forall (fun l => truthy (userId l) = true
                               /\ List.length (hash l) = 64%nat
                               /\ forallb ChatView.isLowerHex (hash l) = true)
                     (App.logs st)).
  { induction R as [|st e R IH]; [constructor|].
    destruct (handle_entries e st) as [added [-> A]].
    apply Forall_app. split; [exact IH|].
    apply Forall_forall. intros x Ix. rewrite Forall_forall in A.
    destruct (A x Ix) as [u [n1 [n2 [uuid [type [meta [sev [o ->]]]]]]]].
    cbn [App.newLog userId hash]. split; [apply targetUserId_truthy|].
    unfold CryptoService.hashData. cbv zeta. split.
    - now rewrite bufferToHex_length, digest_length.
    - apply bufferToHex_lower, digest_bytes. }
  intros I. rewrite Forall_forall in F. destruct (F l I) as [T H].
  split; [|exact H]. intros E. rewrite E in T. discriminate.
Qed.

(** The entry of the login. *)
Lemma log_entries_witness :
  let l :=
    App.newLog (Some Sample.agent) 1700000001000 1700000001000 Sample.uuid1
      LOGIN
      (JObj [(js "method", JStr (js "PASSWORD"));
             (js "status", JStr (js "SUCCESS"))])
      (Some INFO) (Some (js "user-001")) in
  userId l <> []
  /\ List.length (hash l) = 64%nat
  /\ forallb ChatView.isLowerHex (hash l) = true.
Proof.
  apply (log_entries_name_a_user_and_a_digest Visit.removed _
           removed_reached).
  vm_compute. left. reflexivity.
Defined.

End LogEntries.
